(* ===== verification/_CoqProject ===== *)
-Q . S2P
Prelude.v
DateFormat.v
Calendar.v
Distance.v
Types.v
Store.v
Loader.v
Json.v
JsonFuel.v
JsonTypes.v
LoaderIO.v
Board.v
BoardInv.v
BoardRefine.v
View.v
Markup.v
Scenarios.v
Races.v
