(* ===== verification/Prelude.v ===== *)
(** * A verification development for the task board page

    The repository is a Next.js page, [src/pages/board/index.tsx]: a
    signed-in user sees, adds, edits and deletes personal to-do items kept
    in a Firestore collection [tasks].  The page has three parts that
    interact:

    - the server-side loader [getServerSideProps] (lines 212-246) reads the
      session, redirects an anonymous request to ["/"], queries the
      [tasks] whose [userId] is the session's id, attaches a formatted
      creation date to every row and hands the rows to the page;
    - the component [Board] (lines 48-210) keeps three React states
      ([input], [taskList], [taskEdit]) and four handlers
      ([handleAddTask], [handleDelete], [handleEditTask],
      [handleCancelEdit]); the handlers that write to Firestore await a
      promise and patch the local state in its [.then] callback, with the
      values the handler's closure captured when the event fired;
    - the Firestore collection (the [db] handle of
      [services/firebaseConnection], which is not under [src/]) and its four
      calls [addDoc], [updateDoc], [deleteDoc], [getDocs]/[where].

    Files of the development, in dependency order:

    - [Prelude] (this file): the scope [board_scope], the JavaScript
      pieces the page relies on ([Array.prototype.findIndex] returning [-1],
      reads of an array at an index that may be [-1], exceptions thrown in
      a promise callback as the sum type [js_result]), the hint database
      [board] and the generic lemmas on lists and options.
    - [DateFormat]: [format(date, 'dd MMMM yyyy')] of date-fns as it runs
      on the server (line 231) and in the browser (line 94): the local day
      of the instant, the proleptic Gregorian calendar of
      [civil_from_days], the English month name, the zero-padded numerals.
      Its theorems: the string names a valid date, it tells days apart,
      it reads back with the pattern, and a browser west of UTC shows
      the server's date exactly when the instant lies at least its offset
      after UTC midnight.
    - [Calendar]: the era arithmetic of [civil_from_days] checked against
      the calendar a reader would write first, [next_day] (the next day
      of the month, else the first of the next month, else 1 January) and
      [date_after] (that step [n] times from 1 January 1970).  Its
      theorems: the date the page shows is the date counted day by day,
      and one day later it shows the next date, before 1970 as well.
    - [Distance]: [formatDistance] of date-fns with the [ptBR] locale,
      the relative time of the supporter panel (lines 199-201): the
      ordering of the instants, the rounding to minutes, the buckets and
      their Portuguese texts.  Its theorems: the text ignores the
      direction of time, grows with the time elapsed, and shows counts
      within the range of their bucket.
    - [Types]: the records of the source: [TaskList.t] (the TS type
      [TaskList]), [User.t] (the [user] prop of [BoardProps]), [Session.t]
      (what [getSession] returns) and [Doc.t] (the fields [addDoc] writes).
    - [Store]: the interface the page relies on, the class [DocStore] with
      the laws [DocStoreLaws] (an [addDoc] id is fresh and never reused,
      [updateDoc] rejects a missing document and changes only [task],
      [deleteDoc] removes, the [where('userId','==',u)] query returns
      exactly the documents of [u]); the instance [FireStore] on a [gmap]
      discharges the laws.  Both the loader and the board are proved
      against the class, not the instance.
    - [Loader]: [getServerSideProps] as a function from the session and the
      store to [Redirect] or [Props]; its theorems say that an anonymous
      request is redirected to ["/"] whatever the store holds and that an
      authenticated one receives exactly the user's documents.
    - [Json]: [JSON.stringify] and [JSON.parse] on JSON values, the
      object the loader builds for a document (the spread of
      [doc.data()] after [id] and [createdFormatted]) and the text it
      sends.  Its theorems: [JSON.parse] undoes [JSON.stringify] on every
      value whose objects have distinct keys, the rows of the loader
      reach the component unchanged, and [created] arrives as a plain
      object, not a [Date].
    - [LoaderIO]: the loader as the [async] function it is, in a
      writer-and-error monad [Async] (the calls made, in order, and the
      value or the rejection of the last [await]): [getSession], then,
      for a session with an id, [getDocs]; [respond] is what Next.js
      sends.  Its theorems: when both promises resolve it makes exactly
      those calls and returns what [getServerSideProps] returns, the
      text [data] parsing back to the rows; a rejection of either ends in
      the 500 page with no partial props, and an anonymous request is
      redirected before the store is touched.
    - [JsonFuel]: the fuel of [JSON_parse] loses nothing.  A parse that
      succeeds consumes characters and succeeds again on every fuel no
      smaller than what it consumed ([parse_fuel], by induction on the
      fuel over the three mutually recursive parsers), so [JSON_parse] is
      the unbounded parser on every text.
    - [JsonTypes]: the TypeScript types of the page ([ty], [has_type],
      [TaskList_ty] for lines 30-37), with the theorem that
      [JSON.parse(data)] has the declared type [TaskList[]] only when the
      user has no task.
    - [Board]: the component as a world ([World]: object heap, the three
      states, the promises in flight with the values their closures
      captured, the store, the clock and the console) and one function per
      event ([handle]): [handleAddTask], [handleDelete], [handleEditTask],
      [handleCancelEdit], and [settle] which resolves one promise and runs
      its callback ([add_then], [edit_then], [delete_then]) or its
      [.catch].  Its theorems give the behaviour of every handler on every
      branch (empty input, add, edit, cancel, delete, rejection).
    - [BoardInv]: the step relation [step] (any event, including the
      resolution of any promise in flight with any outcome, in any order)
      and the worlds [reachable] from a load of the page; the invariant
      [Inv] (the heap is well formed, every object is owned by the user,
      has an id the store issued and no two objects share an id) holds in
      every reachable world, by rule induction.  Its theorems: the rows
      shown are the user's, ids are never reused, the fields other than
      [task] never change, a user who is not a supporter never edits.
    - [BoardRefine]: the abstract view of the collection (a map from id to
      text, [abs_store]) and two refinement theorems: when every request
      resolves before the next event ([sstep]), and more generally when
      the user may type, edit and wait while one request is in flight
      ([ostep]), the page shows exactly the user's collection.
    - [View]: what React renders for a world ([render]): the edit
      banner, the input, the heading that counts the tasks, one article
      per row with its key, link, date and buttons, and the supporter
      panel.  [Markup] prints it as the element tree of the JSX and
      proves what it shows.
    - [Markup]: the JSX of lines 130-209 as a React element tree
      ([jsx]): [Head] and its title, the edit banner, the form, the
      heading's text nodes, one [article] per object of [taskList] with
      its link, date and buttons, the supporter panel and
      [SupportButton], with the classes, icon props and event props;
      DOM queries ([elems_by_tag], [text_content]) read it.  Every
      click and submit the tree offers is accepted by [handle].  Its
      claim composes the loader, the JSON transfer, [init] and the
      tree: the first render of a signed-in user's page shows exactly the
      documents the store holds for that user, once each, with distinct
      keys, and a heading that counts them.
    - [Scenarios]: the page of a concrete user evaluated by [vm_compute]
      with [format_ddMMMMyyyy 0] as the formatter, the scenario of the
      specification, and one witness per theorem with hypotheses.
    - [Races]: concrete interleavings in which the closures that captured
      [taskList] make the page and the collection diverge (a lost row, a
      [TypeError] of [data[-1]], a resurrected row).

    The object heap of [Board] is needed because the edit callback writes
    [data[taskIndex].task = input] into an object that other closures
    still hold; the promises are explicit because the code captures
    [taskList] before awaiting.  [Loader] and [Board] take the formatter
    as a parameter [fmt], so their theorems hold for every time zone;
    [DateFormat] is the formatter they are run with.  Two definitions
    use fuel: [decimal] gets [1 + log2 n] steps, enough because a number
    below [2^k] has at most [k] decimal digits ([decimal_fuel]);
    [JSON_parse] gets [1 + length] of its text, enough for every text:
    a successful parse needs no more fuel than the characters it consumes
    ([JsonFuel.parse_fuel]).  Every other definition
    is structural.  [Loader] and [Board] pass the rows unchanged from the
    loader to the component, which [Json.loader_data_transfer] justifies.
    The markup of [Link], [SupportButton], the icons and the CSS module
    lies outside [src/]: they are elements with their props in [Markup].
    The relative time of the
    supporter panel is a parameter [dist] of [View], run with
    [Distance.formatDistance]; date-fns' [differenceInMonths], which it
    uses only from two months on, is a parameter [months_between].

    Not modelled, and why: [getSession] of next-auth is an external
    library; the loader takes the session it resolves with (or its
    rejection, in [LoaderIO]) as an input.  The Firestore backend is not
    under [src/]: the page relies only on the contract [DocStore] states
    (and on its calls resolving or rejecting), so nothing beyond that
    contract is modelled.  date-fns' [differenceInMonths], which the panel
    uses only for distances of two months and more, stays a parameter:
    the repository has no package manifest pinning a date-fns version,
    and its calendar-month rules changed between versions, so no
    definition of it could be checked against the code that runs.
    The rest of [index.tsx] is modelled: the lines the map leaves out
    are the imports and blank lines. *)

From stdpp Require Export base list gmap strings fin_maps relations.
From Stdlib Require Export ZArith Lia.

Declare Scope board_scope.
Delimit Scope board_scope with board.
Open Scope board_scope.

(** ** Exceptions raised inside a promise callback

    A [.then] callback either returns or throws; a throw lands in the
    [.catch] handler of the chain.  [js_error] lists the exceptions the page
    can meet. *)

Inductive js_error :=
  | TypeError (msg : string)
  | FirebaseError (code : string).

#[export] Instance js_error_eq_dec : EqDecision js_error.
Proof. solve_decision. Defined.

Inductive js_result (A : Type) :=
  | JsOk (a : A)
  | JsThrow (e : js_error).
Arguments JsOk {A} a.
Arguments JsThrow {A} e.

Definition js_bind {A B} (m : js_result A) (k : A -> js_result B) : js_result B :=
  match m with
  | JsOk a => k a
  | JsThrow e => JsThrow e
  end.

Notation "x <-! m ;; k" := (js_bind m (fun x => k))
  (at level 100, m at next level, right associativity) : board_scope.

(** Dereferencing [undefined] throws a [TypeError]. *)
Definition js_deref {A} (o : option A) : js_result A :=
  match o with
  | Some a => JsOk a
  | None => JsThrow (TypeError "Cannot set properties of undefined")
  end.

(** ** Arrays

    [Array.prototype.findIndex] returns the index of the first element that
    satisfies the predicate, or [-1]; reading [a[i]] with [i] out of range
    (in particular [-1]) yields [undefined], modelled as [None]. *)

Definition findIndex {A} (p : A -> bool) (l : list A) : Z :=
  match list_find (fun x => p x = true) l with
  | Some (i, _) => Z.of_nat i
  | None => (-1)%Z
  end.

Definition js_at {A} (l : list A) (i : Z) : option A :=
  if (i <? 0)%Z then None else l !! Z.to_nat i.

Create HintDb board discriminated.

(** ** Generic lemmas *)

Section lists.
Context {A : Type}.
Implicit Types (l : list A) (p : A -> bool).

Lemma findIndex_Some p l i x :
  list_find (fun y => p y = true) l = Some (i, x) ->
  findIndex p l = Z.of_nat i.
Proof. unfold findIndex. by intros ->. Qed.

Lemma findIndex_None p l :
  Forall (fun y => p y = false) l -> findIndex p l = (-1)%Z.
Proof.
  intros Hall. unfold findIndex.
  rewrite (proj2 (list_find_None _ _)); [done|].
  eapply Forall_impl; [exact Hall|]. intros y ->. done.
Qed.

(** The two outcomes of [findIndex]: an index whose element satisfies
    the predicate and is the first to, or [-1] and no element does. *)
Lemma findIndex_spec p l :
  (exists i x, findIndex p l = Z.of_nat i /\ l !! i = Some x /\ p x = true /\
     forall j y, l !! j = Some y -> (j < i)%nat -> p y = false)
  \/ (findIndex p l = (-1)%Z /\ Forall (fun y => p y = false) l).
Proof.
  unfold findIndex.
  destruct (list_find (fun y => p y = true) l) as [[i x]|] eqn:Hf.
  - left. apply list_find_Some in Hf as (Hl & Hp & Hmin).
    exists i, x. repeat split; auto.
    intros j y Hj Hlt. apply not_true_is_false. eauto.
  - right. split; [done|]. apply list_find_None in Hf.
    eapply Forall_impl; [exact Hf|]. intros y Hy. by apply not_true_is_false.
Qed.

Lemma js_at_nat l (i : nat) : js_at l (Z.of_nat i) = l !! i.
Proof.
  unfold js_at. destruct (Z.ltb_spec (Z.of_nat i) 0); [lia|].
  by rewrite Nat2Z.id.
Qed.

Lemma js_at_neg l : js_at l (-1)%Z = None.
Proof. done. Qed.

(** When some element satisfies the predicate, [a[findIndex(p)]] is
    defined and satisfies it. *)
Lemma findIndex_at p l x :
  x ∈ l -> p x = true ->
  exists y, js_at l (findIndex p l) = Some y /\ p y = true.
Proof.
  intros Hin Hp. destruct (findIndex_spec p l) as
      [(i & y & Hi & Hl & Hpy & _)|(Hi & Hall)].
  - exists y. rewrite Hi, js_at_nat. auto.
  - exfalso. rewrite Forall_forall in Hall.
    specialize (Hall x Hin). congruence.
Qed.
Lemma omap_cons_eq {B} (f : A -> option B) x l :
  omap f (x :: l) = match f x with Some y => y :: omap f l | None => omap f l end.
Proof. done. Qed.

(** [omap] only looks at the elements of its list. *)
Lemma omap_ext_elem {B} (f g : A -> option B) l :
  (forall x, x ∈ l -> f x = g x) -> omap f l = omap g l.
Proof.
  intros Hfg. apply list_omap_ext. induction l as [|x l IH]; constructor.
  - apply Hfg. set_solver.
  - apply IH. intros y Hy. apply Hfg. set_solver.
Qed.
Lemma filter_all (P : A -> Prop) `{!forall x, Decision (P x)} l :
  Forall P l -> filter P l = l.
Proof.
  induction 1 as [|x l Hx _ IH]; [done|].
  rewrite filter_cons, decide_True by done. by rewrite IH.
Qed.
End lists.

(** Reading [l[j]], ..., [l[j+n-1]] in order. *)
Lemma omap_lookup_seq {A} (l : list A) j n :
  (j + n <= length l)%nat ->
  omap (fun i => l !! i) (seq j n) = take n (drop j l).
Proof.
  revert j. induction n as [|n IH]; intros j Hlen; [by rewrite take_0|].
  change (seq j (S n)) with (j :: seq (S j) n). rewrite omap_cons_eq.
  destruct (l !! j) as [x|] eqn:Hx; [|apply lookup_ge_None in Hx; lia].
  rewrite (drop_S l x j Hx), IH by lia. done.
Qed.

#[export] Hint Resolve js_at_nat js_at_neg : board.

Ltac invc H := inversion H; subst; clear H.
