(* ===== verification/DateFormat.v ===== *)
(** * [format(date, 'dd MMMM yyyy')] of date-fns (lines 94 and 231)

    Both the loader and the add callback attach to a row the string
    [format(date, 'dd MMMM yyyy')]: the day of the month on two digits, the
    full English month name (no locale is passed, so date-fns uses
    [en-US]) and the year of the era on at least four digits, all in the
    local time of the machine that runs the code.  A [Date] is its time
    value [t] in milliseconds; the local day is [t] shifted by the time-zone
    offset [offset] of [getTimezoneOffset()] (minutes, UTC minus local),
    taken constant.

    [civil_from_days] converts a count of days since 1970-01-01 into a
    proleptic Gregorian (year, month, day), by eras of 400 years;
    [days_from_civil] is its inverse.  [decimal] writes a numeral with
    [1 + log2 n] steps of fuel, which is enough ([decimal_fuel]);
    [parse_ddMMMMyyyy], the pattern read back, is not code of the page but
    the reading the theorems use.  The theorems: the string names a valid
    date (month 1-12, day within the month, 29 February only in leap
    years), two instants of the common era get the same string exactly on
    the same local day, the string reads back as its date, and a browser
    west of UTC shows the server's date for an instant exactly when the
    instant lies at least its offset after UTC midnight. *)

From S2P Require Import Prelude.
From Stdlib Require Import Ascii.

Local Open Scope Z_scope.

Definition ms_per_day : Z := 86400000.

(** The local day number of the instant [t]. *)
Definition local_day (offset t : Z) : Z := (t - offset * 60000) / ms_per_day.

Definition civil_from_days (z0 : Z) : Z * Z * Z :=
  let z := z0 + 719468 in
  let era := z / 146097 in
  let doe := z - era * 146097 in
  let yoe := (doe - doe / 1460 + doe / 36524 - doe / 146096) / 365 in
  let doy := doe - (365 * yoe + yoe / 4 - yoe / 100) in
  let mp := (5 * doy + 2) / 153 in
  let d := doy - (153 * mp + 2) / 5 + 1 in
  let m := if mp <? 10 then mp + 3 else mp - 9 in
  let y := yoe + era * 400 + (if m <=? 2 then 1 else 0) in
  (y, m, d).

Definition days_from_civil (y0 m d : Z) : Z :=
  let y := if m <=? 2 then y0 - 1 else y0 in
  let era := y / 400 in
  let yoe := y - era * 400 in
  let mp := if 2 <? m then m - 3 else m + 9 in
  let doy := (153 * mp + 2) / 5 + d - 1 in
  let doe := yoe * 365 + yoe / 4 - yoe / 100 + doy in
  era * 146097 + doe - 719468.

Definition is_leap (y : Z) : bool :=
  ((y mod 4 =? 0) && negb (y mod 100 =? 0)) || (y mod 400 =? 0).

Definition days_in_month (y m : Z) : Z :=
  if m =? 2 then (if is_leap y then 29 else 28)
  else if (m =? 4) || (m =? 6) || (m =? 9) || (m =? 11) then 30 else 31.

(** [MMMM] in the [en-US] locale. *)
Definition month_names : list string :=
  ["January"; "February"; "March"; "April"; "May"; "June"; "July";
   "August"; "September"; "October"; "November"; "December"].

Definition month_name (m : Z) : string :=
  default "" (month_names !! Z.to_nat (m - 1)).

(** ** Decimal numerals *)

Definition digit_char (n : Z) : Ascii.ascii :=
  Ascii.ascii_of_nat (48 + Z.to_nat n)%nat.

Fixpoint decimal_go (fuel : nat) (n : Z) (acc : string) : string :=
  match fuel with
  | O => acc
  | S f =>
      let acc' := String (digit_char (n mod 10)) acc in
      if n <? 10 then acc' else decimal_go f (n / 10) acc'
  end.

(** The digits of [n >= 0]; a number has at most as many digits as bits. *)
Definition decimal (n : Z) : string := decimal_go (S (Z.to_nat (Z.log2 n))) n "".

(** date-fns' [addLeadingZeros]. *)
Definition pad0 (width : nat) (s : string) : string :=
  String.append (String.concat "" (replicate (width - String.length s)%nat "0")) s.

(** [y] for a year of the common era, [1 - y] before it. *)
Definition year_of_era (y : Z) : Z := if 0 <? y then y else 1 - y.

Definition format_ddMMMMyyyy (offset t : Z) : string :=
  let '(y, m, d) := civil_from_days (local_day offset t) in
  String.append (pad0 2 (decimal d))
    (String.append " " (String.append (month_name m)
      (String.append " " (pad0 4 (decimal (year_of_era y)))))).

(** ** The calendar arithmetic *)

(** A number between [0] and [n] is a natural number below [n + 1], on
    which [destruct] enumerates the cases. *)
Lemma Z_below z n : 0 <= z <= n -> exists k, z = Z.of_nat k /\ (k < S (Z.to_nat n))%nat.
Proof. intros Hz. exists (Z.to_nat z). lia. Qed.

(** [civil_from_days] step by step: the era, the day of the era, the year
    of the era (March-based), the day of that year and the month counted
    from March. *)
Lemma civil_parts z :
  exists era doe yoe doy mp,
    z = era * 146097 + doe - 719468 /\ 0 <= doe < 146097 /\
    yoe = (doe - doe / 1460 + doe / 36524 - doe / 146096) / 365 /\ 0 <= yoe <= 399 /\
    doy = doe - (365 * yoe + yoe / 4 - yoe / 100) /\ 0 <= doy <= 365 /\
    mp = (5 * doy + 2) / 153 /\ 0 <= mp <= 11 /\
    civil_from_days z =
      (yoe + era * 400 + (if mp <? 10 then 0 else 1),
       (if mp <? 10 then mp + 3 else mp - 9),
       doy - (153 * mp + 2) / 5 + 1).
Proof.
  set (era := (z + 719468) / 146097). set (doe := z + 719468 - era * 146097).
  set (yoe := (doe - doe / 1460 + doe / 36524 - doe / 146096) / 365).
  set (doy := doe - (365 * yoe + yoe / 4 - yoe / 100)).
  set (mp := (5 * doy + 2) / 153).
  exists era, doe, yoe, doy, mp.
  assert (Hdoe : 0 <= doe < 146097) by (unfold doe, era; Z.div_mod_to_equations; lia).
  assert (Hyoe : 0 <= yoe <= 399) by (unfold yoe; Z.div_mod_to_equations; lia).
  assert (Hdoy : 0 <= doy <= 365) by (unfold doy, yoe; Z.div_mod_to_equations; lia).
  assert (Hmp : 0 <= mp <= 11) by (unfold mp; Z.div_mod_to_equations; lia).
  do 8 (split; [unfold doe; lia || done|]).
  unfold civil_from_days. fold era doe yoe doy mp.
  destruct (Z.ltb_spec mp 10).
  - rewrite (proj2 (Z.leb_gt (mp + 3) 2)) by lia. done.
  - rewrite (proj2 (Z.leb_le (mp - 9) 2)) by lia. done.
Qed.

Lemma civil_month_day z y m d :
  civil_from_days z = (y, m, d) -> 1 <= m <= 12 /\ 1 <= d.
Proof.
  destruct (civil_parts z) as (era & doe & yoe & doy & mp & _ & _ & _ & _ &
    Hdoy & Hdb & Hmp & Hmb & ->).
  intros [= _ <- <-]. split; [destruct (Z.ltb_spec mp 10); lia|].
  subst. Z.div_mod_to_equations. lia.
Qed.

(** The last day of a March-based year of the era is a 29 February. *)
Lemma last_day_leap doe :
  0 <= doe < 146097 ->
  let yoe := (doe - doe / 1460 + doe / 36524 - doe / 146096) / 365 in
  doe - (365 * yoe + yoe / 4 - yoe / 100) = 365 ->
  (yoe + 1) mod 4 = 0 /\ ((yoe + 1) mod 100 <> 0 \/ (yoe + 1) mod 400 = 0).
Proof. intros H yoe. subst yoe. intros Hd. Z.div_mod_to_equations. lia. Qed.

(** The conversion lands on a valid date: a month from 1 to 12 and a day
    from 1 to the length of that month in that year, 29 February only in a
    leap year. *)
Theorem civil_from_days_valid z :
  let '(y, m, d) := civil_from_days z in
  1 <= m <= 12 /\ 1 <= d <= days_in_month y m.
Proof.
  destruct (civil_parts z) as (era & doe & yoe & doy & mp & Hz & Hdoe & Hyoe & Hyb &
    Hdoy & Hdb & Hmp & Hmb & ->).
  unfold days_in_month.
  destruct (Z_below _ _ Hmb) as [k [-> Hk]].
  (* March to January: the day is below the next month's first day. *)
  do 11 (destruct k as [|k];
    [simpl in *; split; [lia|]; subst; Z.div_mod_to_equations; lia|]).
  destruct k as [|k]; [|lia].
  (* February *)
  simpl in *.
  split; [lia|].
  destruct (Z.eq_dec doy 365) as [H365|H365].
  - unfold is_leap. assert (Hl := last_day_leap doe Hdoe). cbv zeta in Hl. rewrite <- Hyoe, <- Hdoy in Hl.
    destruct (Hl H365) as [H4 H100].
    replace ((yoe + era * 400 + 1) mod 4) with ((yoe + 1) mod 4)
      by (Z.div_mod_to_equations; lia).
    replace ((yoe + era * 400 + 1) mod 100) with ((yoe + 1) mod 100)
      by (Z.div_mod_to_equations; lia).
    replace ((yoe + era * 400 + 1) mod 400) with ((yoe + 1) mod 400)
      by (Z.div_mod_to_equations; lia).
    rewrite H4. destruct H100 as [H100|H400].
    + rewrite (proj2 (Z.eqb_neq _ 0) H100). simpl. Z.div_mod_to_equations. lia.
    + rewrite H400, orb_true_r. Z.div_mod_to_equations. lia.
  - destruct (is_leap (yoe + era * 400 + 1)); simpl; Z.div_mod_to_equations; lia.
Qed.

(** [days_from_civil] undoes [civil_from_days]. *)
Theorem days_from_civil_of_civil z :
  let '(y, m, d) := civil_from_days z in days_from_civil y m d = z.
Proof.
  destruct (civil_parts z) as (era & doe & yoe & doy & mp & -> & Hdoe & Hyoe & Hyb &
    Hdoy & Hdb & Hmp & Hmb & ->).
  unfold days_from_civil. cbv zeta.
  destruct (Z.ltb_spec mp 10) as [Hlt|Hge].
  - rewrite (proj2 (Z.leb_gt (mp + 3) 2)), Z.add_0_r by lia.
    rewrite (proj2 (Z.ltb_lt 2 (mp + 3))) by lia.
    replace (mp + 3 - 3) with mp by lia.
    replace ((yoe + era * 400) / 400) with era by (Z.div_mod_to_equations; lia).
    replace (yoe + era * 400 - era * 400) with yoe by lia. lia.
  - rewrite (proj2 (Z.leb_le (mp - 9) 2)) by lia.
    replace (yoe + era * 400 + 1 - 1) with (yoe + era * 400) by lia.
    rewrite (proj2 (Z.ltb_ge 2 (mp - 9))) by lia.
    replace (mp - 9 + 9) with mp by lia.
    replace ((yoe + era * 400) / 400) with era by (Z.div_mod_to_equations; lia).
    replace (yoe + era * 400 - era * 400) with yoe by lia. lia.
Qed.

(** ** Reading the string back

    [parse_ddMMMMyyyy] reads the pattern [dd MMMM yyyy] as date-fns' [parse]
    does for a year of the common era: three fields separated by one
    space, a decimal day, an English month name, a decimal year. *)

Definition digit_val (c : Ascii.ascii) : option Z :=
  let n := Ascii.nat_of_ascii c in
  if (48 <=? n)%nat && (n <=? 57)%nat then Some (Z.of_nat n - 48) else None.

Fixpoint parse_digits (s : string) (acc : Z) : option Z :=
  match s with
  | EmptyString => Some acc
  | String c s' => d ← digit_val c; parse_digits s' (acc * 10 + d)
  end.

Definition parse_decimal (s : string) : option Z :=
  match s with EmptyString => None | _ => parse_digits s 0 end.

(** The text before the first space, and what follows that space. *)
Fixpoint break_space (s : string) : string * option string :=
  match s with
  | EmptyString => (EmptyString, None)
  | String c s' =>
      if Ascii.eqb c " "%char then (EmptyString, Some s')
      else let '(a, r) := break_space s' in (String c a, r)
  end.

Definition month_index (s : string) : option Z :=
  (fun ix => Z.of_nat ix.1 + 1) <$> list_find (fun x => x = s) month_names.

Definition parse_ddMMMMyyyy (s : string) : option (Z * Z * Z) :=
  match break_space s with
  | (ds, Some s1) =>
      match break_space s1 with
      | (ms, Some ys) =>
          match break_space ys with
          | (_, Some _) => None
          | (_, None) =>
              d ← parse_decimal ds; m ← month_index ms; y ← parse_decimal ys;
              Some (y, m, d)
          end
      | (_, None) => None
      end
  | (_, None) => None
  end.

Fixpoint has_space (s : string) : bool :=
  match s with
  | EmptyString => false
  | String c s' => Ascii.eqb c " "%char || has_space s'
  end.

Lemma break_space_app a b :
  has_space a = false -> break_space (String.append a (String " "%char b)) = (a, Some b).
Proof.
  induction a as [|c a IH]; [done|]. simpl.
  intros [Hc Ha]%orb_false_iff. rewrite Hc, IH by done. done.
Qed.

Lemma break_space_none a : has_space a = false -> break_space a = (a, None).
Proof.
  induction a as [|c a IH]; [done|]. simpl.
  intros [Hc Ha]%orb_false_iff. rewrite Hc, IH by done. done.
Qed.

Lemma has_space_app a b : has_space (String.append a b) = has_space a || has_space b.
Proof. induction a as [|c a IH]; [done|]. simpl. by rewrite IH, orb_assoc. Qed.

(** ** Decimal numerals, read back *)

Fixpoint string_of_digits (ds : list Z) : string :=
  match ds with
  | [] => EmptyString
  | d :: ds' => String (digit_char d) (string_of_digits ds')
  end.

Definition digits_value (ds : list Z) (a : Z) : Z := fold_left (fun acc d => acc * 10 + d) ds a.

Definition is_digit (d : Z) : Prop := 0 <= d <= 9.

Lemma digit_val_char d : is_digit d -> digit_val (digit_char d) = Some d.
Proof.
  intros Hd. destruct (Z_below d 9) as [k [-> Hk]]; [apply Hd|].
  do 10 (destruct k as [|k]; [reflexivity|]). lia.
Qed.

Lemma digit_char_not_space d : is_digit d -> Ascii.eqb (digit_char d) " "%char = false.
Proof.
  intros Hd. destruct (Z_below d 9) as [k [-> Hk]]; [apply Hd|].
  do 10 (destruct k as [|k]; [reflexivity|]). lia.
Qed.

Lemma str_app_cons x a b : String.append (String x a) b = String x (String.append a b).
Proof. done. Qed.

Lemma str_app_assoc a b c :
  String.append a (String.append b c) = String.append (String.append a b) c.
Proof. induction a as [|x a IH]; [done|]. rewrite !str_app_cons. by f_equal. Qed.

Lemma str_app_nil_r a : String.append a EmptyString = a.
Proof. induction a as [|x a IH]; [done|]. rewrite str_app_cons. by f_equal. Qed.

Lemma string_of_digits_app ds1 ds2 :
  string_of_digits (ds1 ++ ds2) = String.append (string_of_digits ds1) (string_of_digits ds2).
Proof. induction ds1 as [|d ds1 IH]; simpl; [done|]. by rewrite str_app_cons, IH. Qed.

Lemma decimal_go_S f n acc :
  decimal_go (S f) n acc =
  if n <? 10 then String (digit_char (n mod 10)) acc
  else decimal_go f (n / 10) (String (digit_char (n mod 10)) acc).
Proof. done. Qed.

(** The digits [ds] of [n] start with a digit, not [0] unless [n] is. *)
Definition leading (ds : list Z) (n : Z) : Prop :=
  exists d ds', ds = d :: ds' /\ (1 <= n -> 1 <= d).

Lemma decimal_go_spec f n acc :
  0 <= n < 10 ^ Z.of_nat (S f) ->
  exists ds, decimal_go (S f) n acc = String.append (string_of_digits ds) acc /\
    leading ds n /\ Forall is_digit ds /\ digits_value ds 0 = n.
Proof.
  revert n acc. induction f as [|f IH]; intros n acc Hn; rewrite decimal_go_S.
  - assert (n < 10) by (simpl in Hn; lia). rewrite (proj2 (Z.ltb_lt n 10)) by done.
    exists [n]. rewrite Z.mod_small by lia.
    repeat split; [by exists n, []|by repeat constructor; unfold is_digit; lia].
  - destruct (Z.ltb_spec n 10) as [Hlt|Hge].
    + exists [n]. rewrite Z.mod_small by lia.
      repeat split; [by exists n, []|by repeat constructor; unfold is_digit; lia].
    + destruct (IH (n / 10) (String (digit_char (n mod 10)) acc)) as (ds & Heq & Hne & Hall & Hv).
      { rewrite Nat2Z.inj_succ, Z.pow_succ_r in Hn by lia.
        split; [apply Z.div_pos; lia|]. apply Z.div_lt_upper_bound; lia. }
      exists (ds ++ [n mod 10]). rewrite Heq, string_of_digits_app.
      split; [by rewrite <- str_app_assoc|].
      split.
      { destruct Hne as (d & ds' & -> & Hd). exists d, (ds' ++ [n mod 10]).
        split; [done|]. intros _. apply Hd. apply Z.div_le_lower_bound; lia. }
      split.
      * apply Forall_app. split; [done|]. constructor; [|done].
        unfold is_digit. pose proof (Z.mod_pos_bound n 10). lia.
      * unfold digits_value in *. rewrite fold_left_app. simpl. rewrite Hv.
        pose proof (Z.div_mod n 10). lia.
Qed.

(** [decimal n] has enough fuel: a number below [2^k] is below [10^k]. *)
Lemma decimal_fuel n : 0 <= n -> n < 10 ^ Z.of_nat (S (Z.to_nat (Z.log2 n))).
Proof.
  intros Hn. rewrite Nat2Z.inj_succ, Z2Nat.id by apply Z.log2_nonneg.
  destruct (Z.eq_dec n 0) as [->|Hn0]; [done|].
  destruct (Z.log2_spec n) as [_ Hlt]; [lia|].
  eapply Z.lt_le_trans; [exact Hlt|]. apply Z.pow_le_mono_l. lia.
Qed.

Lemma decimal_spec n :
  0 <= n -> exists ds, decimal n = string_of_digits ds /\ leading ds n /\
    Forall is_digit ds /\ digits_value ds 0 = n.
Proof.
  intros Hn. destruct (decimal_go_spec (Z.to_nat (Z.log2 n)) n "") as (ds & Heq & ?).
  { split; [done|]. by apply decimal_fuel. }
  exists ds. unfold decimal. by rewrite Heq, str_app_nil_r.
Qed.

Lemma parse_digits_app ds rest a :
  Forall is_digit ds ->
  parse_digits (String.append (string_of_digits ds) rest) a =
  parse_digits rest (digits_value ds a).
Proof.
  revert a. induction ds as [|d ds IH]; intros a Hall; [done|].
  apply Forall_cons in Hall as [Hd Hall].
  change (string_of_digits (d :: ds)) with (String (digit_char d) (string_of_digits ds)).
  rewrite str_app_cons. cbn [parse_digits]. rewrite digit_val_char by done. by apply IH.
Qed.

Lemma has_space_digits ds : Forall is_digit ds -> has_space (string_of_digits ds) = false.
Proof.
  induction 1 as [|d ds Hd _ IH]; [done|]. cbn [string_of_digits has_space].
  by rewrite digit_char_not_space, IH.
Qed.

Lemma digits_value_app l1 l2 a :
  digits_value (l1 ++ l2) a = digits_value l2 (digits_value l1 a).
Proof. apply fold_left_app. Qed.

Lemma digits_value_zeros zs : Forall (fun z => z = 0) zs -> digits_value zs 0 = 0.
Proof. induction 1 as [|z zs -> _ IH]; [done|]. exact IH. Qed.

Lemma parse_decimal_digits l :
  l <> [] -> Forall is_digit l -> parse_decimal (string_of_digits l) = Some (digits_value l 0).
Proof.
  destruct l as [|d l]; [done|]. intros _ Hall.
  change (parse_digits (string_of_digits (d :: l)) 0 = Some (digits_value (d :: l) 0)).
  by rewrite <- (str_app_nil_r (string_of_digits (d :: l))), parse_digits_app.
Qed.

Lemma concat_zeros_S k :
  String.concat "" (replicate (S k) "0") = String "0" (String.concat "" (replicate k "0")).
Proof. by destruct k. Qed.

Lemma pad0_digits w ds :
  exists zs, pad0 w (string_of_digits ds) = string_of_digits (zs ++ ds) /\ Forall (fun z => z = 0) zs.
Proof.
  unfold pad0. generalize (w - String.length (string_of_digits ds))%nat as k. intros k.
  exists (replicate k 0). rewrite string_of_digits_app. split; [|by apply Forall_replicate].
  f_equal. induction k as [|k IH]; [done|]. rewrite concat_zeros_S, IH. reflexivity.
Qed.

(** A zero-padded decimal numeral has no space and reads back as its number. *)
Lemma parse_pad0_decimal w n :
  0 <= n -> has_space (pad0 w (decimal n)) = false /\ parse_decimal (pad0 w (decimal n)) = Some n.
Proof.
  intros Hn. destruct (decimal_spec n Hn) as (ds & -> & Hne & Hall & Hv).
  destruct (pad0_digits w ds) as (zs & -> & Hzs).
  assert (Hall' : Forall is_digit (zs ++ ds)).
  { apply Forall_app. split; [|done]. eapply Forall_impl; [exact Hzs|].
    intros z ->. unfold is_digit. lia. }
  split; [by apply has_space_digits|].
  rewrite parse_decimal_digits; [|by destruct Hne as (? & ? & -> & _), zs|done].
  rewrite digits_value_app, digits_value_zeros by done. by rewrite Hv.
Qed.

Lemma month_name_index m :
  1 <= m <= 12 -> has_space (month_name m) = false /\ month_index (month_name m) = Some m.
Proof.
  intros Hm. destruct (Z_below (m - 1) 11) as [k [Hmk Hk]]; [lia|].
  replace m with (Z.of_nat k + 1) by lia.
  do 12 (destruct k as [|k]; [vm_compute; split; reflexivity|]). lia.
Qed.

Lemma str_app_space x : String.append " " x = String " "%char x.
Proof. done. Qed.

(** The three fields of a date of the common era read back. *)
Lemma parse_fields y m d :
  1 <= y -> 1 <= m <= 12 -> 1 <= d ->
  parse_ddMMMMyyyy (String.append (pad0 2 (decimal d))
    (String.append " " (String.append (month_name m)
      (String.append " " (pad0 4 (decimal y)))))) = Some (y, m, d).
Proof.
  intros Hy Hm Hd.
  destruct (parse_pad0_decimal 2 d) as [Hds Hdp]; [lia|].
  destruct (parse_pad0_decimal 4 y) as [Hys Hyp]; [lia|].
  destruct (month_name_index m Hm) as [Hms Hmi].
  unfold parse_ddMMMMyyyy. rewrite !str_app_space, !break_space_app, break_space_none by done.
  by rewrite Hdp, Hmi, Hyp.
Qed.

Lemma format_fields offset t y m d :
  civil_from_days (local_day offset t) = (y, m, d) -> 1 <= y ->
  format_ddMMMMyyyy offset t =
  String.append (pad0 2 (decimal d))
    (String.append " " (String.append (month_name m)
      (String.append " " (pad0 4 (decimal y))))).
Proof.
  intros E Hy. unfold format_ddMMMMyyyy. rewrite E.
  unfold year_of_era. by rewrite (proj2 (Z.ltb_lt 0 y)) by lia.
Qed.

(** C20: the string the page shows names a valid date.  [format_ddMMMMyyyy]
    writes the day, the month name and the year of the era of
    [civil_from_days] of the local day, and that month is one of the
    twelve and that day is one of its days in that year. *)
Theorem format_date_valid offset t :
  exists y m d, civil_from_days (local_day offset t) = (y, m, d) /\
    format_ddMMMMyyyy offset t =
      String.append (pad0 2 (decimal d))
        (String.append " " (String.append (month_name m)
          (String.append " " (pad0 4 (decimal (year_of_era y)))))) /\
    1 <= m <= 12 /\ 1 <= d <= days_in_month y m.
Proof.
  pose proof (civil_from_days_valid (local_day offset t)) as Hv.
  destruct (civil_from_days (local_day offset t)) as [[y m] d] eqn:E.
  exists y, m, d. unfold format_ddMMMMyyyy. rewrite E. done.
Qed.

(** Two instants of the common era, formatted with any two offsets, get
    the same string exactly when their local days coincide. *)
Lemma format_eq_iff o1 t1 o2 t2 :
  1 <= (civil_from_days (local_day o1 t1)).1.1 ->
  1 <= (civil_from_days (local_day o2 t2)).1.1 ->
  format_ddMMMMyyyy o1 t1 = format_ddMMMMyyyy o2 t2 <-> local_day o1 t1 = local_day o2 t2.
Proof.
  intros H1 H2. split; [|unfold format_ddMMMMyyyy; by intros ->].
  pose proof (days_from_civil_of_civil (local_day o1 t1)) as R1.
  pose proof (days_from_civil_of_civil (local_day o2 t2)) as R2.
  destruct (civil_from_days (local_day o1 t1)) as [[y1 m1] d1] eqn:E1.
  destruct (civil_from_days (local_day o2 t2)) as [[y2 m2] d2] eqn:E2.
  simpl in H1, H2. intros Hf.
  destruct (civil_month_day _ _ _ _ E1), (civil_month_day _ _ _ _ E2).
  rewrite (format_fields _ _ _ _ _ E1), (format_fields _ _ _ _ _ E2) in Hf by done.
  apply (f_equal parse_ddMMMMyyyy) in Hf. rewrite !parse_fields in Hf by done.
  simplify_eq. by rewrite <- R1, <- R2.
Qed.

(** West of UTC, the local day of an instant is its UTC day exactly from
    the [offset]-th minute of that UTC day on. *)
Lemma local_day_west offset t :
  0 <= offset <= 1440 ->
  local_day offset t = local_day 0 t <-> offset * 60000 <= t mod ms_per_day.
Proof. intros Ho. unfold local_day, ms_per_day. Z.div_mod_to_equations. lia. Qed.

(** C21: the date shown tells the day apart.  Two instants of the common
    era get the same [dd MMMM yyyy] string exactly when they fall on the
    same local day. *)
Theorem format_same_day_iff offset t1 t2 :
  1 <= (civil_from_days (local_day offset t1)).1.1 ->
  1 <= (civil_from_days (local_day offset t2)).1.1 ->
  format_ddMMMMyyyy offset t1 = format_ddMMMMyyyy offset t2 <->
  local_day offset t1 = local_day offset t2.
Proof. apply format_eq_iff. Qed.

(** C22: the date the page shows reads back.  For a day of the common era,
    reading [format_ddMMMMyyyy offset t] with the pattern [dd MMMM yyyy]
    gives the year, month and day [civil_from_days] computes for the
    local day of [t]: the formatter writes a separator only between the
    fields, and each field reads back as its value. *)
Theorem format_parse_roundtrip offset t y m d :
  civil_from_days (local_day offset t) = (y, m, d) -> 1 <= y ->
  parse_ddMMMMyyyy (format_ddMMMMyyyy offset t) = Some (y, m, d).
Proof.
  intros E Hy. destruct (civil_month_day _ _ _ _ E).
  rewrite (format_fields _ _ _ _ _ E Hy). by apply parse_fields.
Qed.

Lemma format_parse_roundtrip_witness :
  civil_from_days (local_day 0 951782400000) = (2000, 2, 29) /\
  parse_ddMMMMyyyy (format_ddMMMMyyyy 0 951782400000) = Some (2000, 2, 29).
Proof.
  split; [vm_compute; reflexivity|].
  apply format_parse_roundtrip; [vm_compute; reflexivity|lia].
Defined.

Lemma format_same_day_iff_witness :
  format_ddMMMMyyyy 180 0 = format_ddMMMMyyyy 180 3600000 <->
  local_day 180 0 = local_day 180 3600000.
Proof. apply format_same_day_iff; vm_compute; discriminate. Defined.

(** C23: the date shown depends on the time zone of the machine that
    formats it.  The loader formats a row on the server (line 231) and the
    add callback in the browser (line 94).  For a browser west of UTC
    ([getTimezoneOffset()] between 0 and 1440 minutes) and a server on
    UTC, the same instant of the common era gets the same string exactly
    from the [offset]-th minute of its UTC day on: during the first
    [offset] minutes of every UTC day the browser shows the previous
    date (at UTC-3, from 00:00 to 02:59 UTC). *)
Theorem format_depends_on_zone offset t :
  0 <= offset <= 1440 ->
  1 <= (civil_from_days (local_day offset t)).1.1 ->
  1 <= (civil_from_days (local_day 0 t)).1.1 ->
  format_ddMMMMyyyy offset t = format_ddMMMMyyyy 0 t <-> offset * 60000 <= t mod ms_per_day.
Proof. intros Ho H1 H2. rewrite format_eq_iff by done. by apply local_day_west. Qed.

(** The instant [0], formatted at UTC-3 and at UTC. *)
Lemma format_depends_on_zone_witness :
  (format_ddMMMMyyyy 180 0 = format_ddMMMMyyyy 0 0 <-> 180 * 60000 <= 0 mod ms_per_day) /\
  format_ddMMMMyyyy 0 0 = "01 January 1970" /\ format_ddMMMMyyyy 180 0 = "31 December 1969".
Proof.
  split; [apply format_depends_on_zone; [lia|vm_compute; discriminate..]|].
  split; vm_compute; reflexivity.
Defined.
