(* ===== verification/Calendar.v ===== *)
(** * The calendar of [format] checked against a day-by-day count

    [DateFormat.civil_from_days] is the era-based conversion date-fns'
    [format] relies on (through the [Date] of the JavaScript engine): a
    handful of divisions turn a day number into a year, a month and a day.
    This file checks it against the definition a reader would write
    first: [next_day] steps a date to the next one (the next day of the
    month, else the first of the next month, else 1 January of the next
    year, with [days_in_month] deciding, 29 February in leap years), and
    [date_after n] steps [n] times from 1 January 1970.

    The way there: [days_from_civil] is injective on valid dates
    ([civil_of_days_from_civil], the converse of
    [DateFormat.days_from_civil_of_civil]), it counts one more for the
    next day ([days_from_civil_next]), so the conversion of [z + 1] is
    the next day of the conversion of [z] ([civil_from_days_succ]).  The
    arithmetic is closed by [lia] after [Z.div_mod_to_equations], month
    by month where the month lengths differ. *)

From S2P Require Import Prelude DateFormat.

Local Open Scope Z_scope.

(** ** The reference calendar *)

(** The day after [(y, m, d)] in the Gregorian calendar. *)
Definition next_day (ymd : Z * Z * Z) : Z * Z * Z :=
  let '(y, m, d) := ymd in
  if d <? days_in_month y m then (y, m, d + 1)
  else if m <? 12 then (y, m + 1, 1) else (y + 1, 1, 1).

(** The dates from 1 January 1970 on, counted one day at a time. *)
Fixpoint date_after (n : nat) : Z * Z * Z :=
  match n with
  | O => (1970, 1, 1)
  | S n => next_day (date_after n)
  end.

Definition valid_date (ymd : Z * Z * Z) : Prop :=
  let '(y, m, d) := ymd in 1 <= m <= 12 /\ 1 <= d <= days_in_month y m.

Definition days_of (ymd : Z * Z * Z) : Z := let '(y, m, d) := ymd in days_from_civil y m d.

(** The pattern [dd MMMM yyyy] of a date, as [format_ddMMMMyyyy] writes it
    (line 94). *)
Definition show_date (ymd : Z * Z * Z) : string :=
  let '(y, m, d) := ymd in
  String.append (pad0 2 (decimal d))
    (String.append " " (String.append (month_name m)
      (String.append " " (pad0 4 (decimal (year_of_era y)))))).

(** ** [civil_from_days] inverts [days_from_civil] *)

Lemma yoe_inverse yoe doy :
  0 <= yoe <= 399 -> 0 <= doy ->
  (doy <= 364 \/ (doy = 365 /\ (yoe + 1) mod 4 = 0 /\ ((yoe + 1) mod 100 <> 0 \/ yoe = 399))) ->
  let doe := 365 * yoe + yoe / 4 - yoe / 100 + doy in
  (doe - doe / 1460 + doe / 36524 - doe / 146096) / 365 = yoe.
Proof. intros Hy Hd Hc doe. subst doe. Z.div_mod_to_equations. lia. Qed.

(** The month counted from March, and the first day of each. *)
Lemma month_offsets m :
  1 <= m <= 12 ->
  let mp := if 2 <? m then m - 3 else m + 9 in
  0 <= mp <= 11 /\ (if mp <? 10 then mp + 3 else mp - 9) = m /\ (m <=? 2) = negb (mp <? 10) /\
  forall d, 1 <= d <= days_in_month 2001 m + (if m =? 2 then 1 else 0) ->
    (5 * ((153 * mp + 2) / 5 + d - 1) + 2) / 153 = mp /\
    ((153 * mp + 2) / 5 + d - 1 <= 364 \/ (m = 2 /\ d = 29)).
Proof.
  intros Hm. destruct (Z_below (m - 1) 11) as [k [Hk Hlt]]; [lia|].
  replace m with (Z.of_nat k + 1) by lia. clear Hk Hm.
  do 12 (destruct k as [|k]; [simpl; split_and!; try done; intros d Hd; cbv [days_in_month is_leap] in Hd; simpl in Hd; split; Z.div_mod_to_equations; lia|]).
  lia.
Qed.

Lemma days_in_month_le y m : days_in_month y m <= days_in_month 2001 m + (if m =? 2 then 1 else 0).
Proof.
  unfold days_in_month. destruct (Z.eqb_spec m 2); [destruct (is_leap y); simpl; lia|].
  destruct (_ || _); lia.
Qed.

(** A 29 February lies in a leap year. *)
Lemma feb29_leap y : 29 <= days_in_month y 2 ->
  y mod 4 = 0 /\ (y mod 100 <> 0 \/ y mod 400 = 0).
Proof.
  unfold days_in_month, is_leap. rewrite Z.eqb_refl.
  destruct (Z.eqb_spec (y mod 4) 0), (Z.eqb_spec (y mod 100) 0), (Z.eqb_spec (y mod 400) 0);
    simpl; Z.div_mod_to_equations; lia.
Qed.

(** [civil_from_days] undoes [days_from_civil] on the valid dates. *)
Lemma civil_of_days_from_civil y m d :
  1 <= m <= 12 -> 1 <= d <= days_in_month y m ->
  civil_from_days (days_from_civil y m d) = (y, m, d).
Proof.
  intros Hm Hd. destruct (month_offsets m Hm) as (Hmp & Hback & Hle & Hday).
  revert Hmp Hback Hle Hday. cbv zeta.
  set (mp := if 2 <? m then m - 3 else m + 9). intros Hmp Hback Hle Hday.
  pose proof (days_in_month_le y m) as Hdim.
  destruct (Hday d) as [Hmp' Hdoy]; [lia|]. clear Hday.
  set (Y := if m <=? 2 then y - 1 else y).
  assert (HY : y = Y + (if mp <? 10 then 0 else 1)) by (unfold Y; rewrite Hle; destruct (mp <? 10); simpl; lia).
  set (era := Y / 400). set (yoe := Y - era * 400).
  assert (Hyoe : 0 <= yoe <= 399) by (unfold yoe, era; Z.div_mod_to_equations; lia).
  set (doy := (153 * mp + 2) / 5 + d - 1).
  assert (Hdoy0 : 0 <= doy) by (unfold doy; Z.div_mod_to_equations; lia).
  assert (Hleap : doy <= 364 \/ (doy = 365 /\ (yoe + 1) mod 4 = 0 /\ ((yoe + 1) mod 100 <> 0 \/ yoe = 399))).
  { destruct Hdoy as [|[-> ->]]; [by left|right].
    destruct (feb29_leap y) as [H4 H100]; [lia|].
    assert (Hm2 : mp = 11) by (unfold mp; simpl; lia).
    unfold doy. rewrite Hm2. simpl. split; [done|].
    rewrite Hm2 in HY. simpl in HY. unfold yoe, era.
    Z.div_mod_to_equations. lia. }
  pose proof (yoe_inverse yoe doy Hyoe Hdoy0 Hleap) as Hinv. cbv zeta in Hinv.
  destruct (civil_parts (days_from_civil y m d)) as (era' & doe' & yoe' & doy' & mp' & Hz & Hdoe' & Hyoe' & _ & Hdoy' & _ & Hmp'' & _ & ->).
  unfold days_from_civil in Hz. cbv zeta in Hz. fold mp Y in Hz. fold era yoe doy in Hz.
  assert (Hdoe : 0 <= yoe * 365 + yoe / 4 - yoe / 100 + doy < 146097) by (Z.div_mod_to_equations; lia).
  assert (era' = era /\ doe' = yoe * 365 + yoe / 4 - yoe / 100 + doy) as [-> ->] by lia.
  rewrite Z.mul_comm in Hyoe'. rewrite Hinv in Hyoe'. subst yoe'.
  assert (doy' = doy) as -> by lia. unfold doy in Hmp''. rewrite Hmp' in Hmp''. subst mp'.
  rewrite Hback. f_equal; [f_equal|]; [unfold yoe in *; lia|unfold doy; lia].
Qed.

(** ** One day more *)

Lemma days_in_month_pos y m : 28 <= days_in_month y m.
Proof. unfold days_in_month. destruct (m =? 2); [destruct (is_leap y)|destruct (_ || _)]; lia. Qed.

Lemma next_day_valid ymd : valid_date ymd -> valid_date (next_day ymd).
Proof.
  destruct ymd as [[y m] d]. simpl. intros [Hm Hd].
  pose proof (days_in_month_pos y (m + 1)). pose proof (days_in_month_pos (y + 1) 1).
  destruct (Z.ltb_spec d (days_in_month y m)); [simpl; lia|].
  destruct (Z.ltb_spec m 12); simpl; lia.
Qed.

(** From 1 March of [Y] to 1 March of [Y + 1]: a year, with a 29 February
    when [Y + 1] is a leap year. *)
Lemma days_from_civil_year Y :
  days_from_civil (Y + 1) 3 1 - days_from_civil Y 3 1 = 365 + (if is_leap (Y + 1) then 1 else 0).
Proof.
  unfold days_from_civil, is_leap. simpl.
  destruct (Z.eqb_spec ((Y + 1) mod 4) 0), (Z.eqb_spec ((Y + 1) mod 100) 0), (Z.eqb_spec ((Y + 1) mod 400) 0);
    simpl; Z.div_mod_to_equations; lia.
Qed.

(** A day of February counted from the 1 March before it. *)
Lemma days_from_civil_feb y d : days_from_civil y 2 d = days_from_civil (y - 1) 3 1 + 336 + d.
Proof. unfold days_from_civil. simpl. Z.div_mod_to_equations. lia. Qed.

Lemma days_from_civil_succ y m d : days_from_civil y m (d + 1) = days_from_civil y m d + 1.
Proof. unfold days_from_civil. ring. Qed.

Lemma days_from_civil_next ymd : valid_date ymd -> days_of (next_day ymd) = days_of ymd + 1.
Proof.
  destruct ymd as [[y m] d]. simpl. intros [Hm Hd].
  destruct (Z.ltb_spec d (days_in_month y m)); [simpl; apply days_from_civil_succ|].
  assert (d = days_in_month y m) as -> by lia.
  destruct (Z.eq_dec m 2) as [->|Hm2].
  - simpl. rewrite (days_from_civil_feb y).
    pose proof (days_from_civil_year (y - 1)) as Hy. replace (y - 1 + 1) with y in Hy by lia.
    change (2 + 1) with 3. unfold days_in_month in *. simpl. destruct (is_leap y); lia.
  - simpl. destruct (Z.ltb_spec m 12); simpl;
      [|assert (m = 12) as -> by lia; unfold days_in_month, days_from_civil; simpl;
       replace (y + 1 - 1) with y by lia; Z.div_mod_to_equations; lia].
    (* the last day of a month other than February and December *)
    unfold days_in_month. rewrite (proj2 (Z.eqb_neq m 2)) by done.
    assert (Hmp : 1 <= m <= 11) by lia.
    destruct (Z.leb_spec m 1) as [Hjan|Hrest].
    + assert (m = 1) as -> by lia. unfold days_from_civil. simpl. Z.div_mod_to_equations. lia.
    + unfold days_from_civil.
      rewrite (proj2 (Z.leb_gt m 2)), (proj2 (Z.leb_gt (m + 1) 2)), (proj2 (Z.ltb_lt 2 m)),
        (proj2 (Z.ltb_lt 2 (m + 1))) by lia.
      destruct (Z_below (m - 3) 8) as [k [Hk Hlt]]; [lia|].
      replace m with (Z.of_nat k + 3) by lia. clear - Hlt.
      do 9 (destruct k as [|k]; [cbn [Z.of_nat Pos.of_succ_nat Pos.succ]; simpl; Z.div_mod_to_equations; lia|]). lia.
Qed.

Lemma civil_valid z : valid_date (civil_from_days z).
Proof. pose proof (civil_from_days_valid z). by destruct (civil_from_days z) as [[y m] d]. Qed.

(** The conversion steps like the calendar: the day after [z] is the
    calendar's next day after the date of [z]. *)
Lemma civil_from_days_succ z : civil_from_days (z + 1) = next_day (civil_from_days z).
Proof.
  pose proof (days_from_civil_of_civil z) as Hz. pose proof (civil_valid z) as Hv.
  pose proof (days_from_civil_next _ Hv) as Hn. pose proof (next_day_valid _ Hv) as Hv'.
  destruct (civil_from_days z) as [[y m] d].
  destruct (next_day (y, m, d)) as [[y' m'] d'] eqn:E. simpl in Hn, Hv'.
  rewrite <- Hz, <- Hn. apply civil_of_days_from_civil; apply Hv'.
Qed.

Lemma civil_from_days_date_after n : civil_from_days (Z.of_nat n) = date_after n.
Proof.
  induction n as [|n IH]; [reflexivity|].
  rewrite Nat2Z.inj_succ, <- Z.add_1_r, civil_from_days_succ, IH. done.
Qed.

Lemma format_show offset t :
  format_ddMMMMyyyy offset t = show_date (civil_from_days (local_day offset t)).
Proof. unfold format_ddMMMMyyyy. by destruct (civil_from_days _) as [[y m] d]. Qed.

Lemma local_day_next offset t : local_day offset (t + ms_per_day) = local_day offset t + 1.
Proof.
  unfold local_day, ms_per_day. replace (t + 86400000 - offset * 60000) with
    ((t - offset * 60000) + 1 * 86400000) by lia. by rewrite Z.div_add.
Qed.

(** ** What the page shows *)

(** C33: the date the page shows is the date counted day by day.  For an
    instant on or after 1 January 1970 in local time, the string
    [format_ddMMMMyyyy] writes is the [dd MMMM yyyy] of the date reached
    by stepping [local_day] days from 1 January 1970 through the months
    and leap years of the Gregorian calendar: the era arithmetic of
    [civil_from_days] is that calendar. *)
Theorem format_counts_days offset t :
  0 <= local_day offset t ->
  format_ddMMMMyyyy offset t = show_date (date_after (Z.to_nat (local_day offset t))).
Proof.
  intros H. rewrite format_show, <- civil_from_days_date_after, Z2Nat.id by done. done.
Qed.

Lemma format_counts_days_witness :
  0 <= local_day 0 951782400000 /\
  format_ddMMMMyyyy 0 951782400000 = show_date (date_after (Z.to_nat (local_day 0 951782400000))).
Proof. split; [vm_compute; discriminate|]. apply format_counts_days. vm_compute. discriminate. Defined.

(** C34: a day later, the page shows the next date.  For every instant,
    before 1970 as well (a browser west of UTC shows 31 December 1969 at
    the instant [0]), the string for [t] plus one day is the
    [dd MMMM yyyy] of the calendar's next date after the one shown for
    [t]: the next day of the month, the first of the next month after its
    last day, 1 January after 31 December, and 29 February exactly in
    leap years. *)
Theorem format_next_day offset t :
  format_ddMMMMyyyy offset (t + ms_per_day) =
  show_date (next_day (civil_from_days (local_day offset t))).
Proof. by rewrite format_show, local_day_next, civil_from_days_succ. Qed.
