(* ===== verification/Distance.v ===== *)
(** * [formatDistance] of date-fns in the [ptBR] locale (lines 199-201)

    The supporter panel shows [formatDistance(new Date(user.lastDonate),
    new Date(), { locale: ptBR })]: the time between the last donation
    and now in words.  date-fns orders the two instants, takes the whole
    seconds between them, rounds them to minutes ([Math.round]) and picks
    a bucket: under a minute, minutes, about an hour, hours, a day, days,
    about a month, months, then years counted from the calendar months
    between the dates.  The locale turns the bucket and its count into
    text; no [addSuffix] is passed, so the text has neither [em] nor [há].

    Times are time values in milliseconds.  The two instants are taken in
    the same time-zone offset, so the daylight-saving correction of
    date-fns is [0].  The calendar months between two dates
    ([differenceInMonths]) matter only from two months on; they are a
    parameter [months_between] here. *)

From S2P Require Import Prelude DateFormat.

Local Open Scope Z_scope.

Inductive Token :=
  | LessThanXMinutes | XMinutes | AboutXHours | XDays | AboutXMonths
  | XMonths | AboutXYears | OverXYears | AlmostXYears.

#[export] Instance Token_eq_dec : EqDecision Token.
Proof. solve_decision. Defined.

(** The buckets in the order of the distances they cover. *)
Definition token_rank (t : Token) : nat :=
  match t with
  | LessThanXMinutes => 0 | XMinutes => 1 | AboutXHours => 2 | XDays => 3
  | AboutXMonths => 4 | XMonths => 5 | AboutXYears => 6 | OverXYears => 7
  | AlmostXYears => 8
  end%nat.

(** [Math.round(x / d)] for [d > 0]: the nearest integer, halves up. *)
Definition round_div (x d : Z) : Z := (2 * x + d) / (2 * d).

Definition minutes_in_day : Z := 1440.
Definition minutes_in_almost_two_days : Z := 2520.
Definition minutes_in_month : Z := 43200.
Definition minutes_in_two_months : Z := 86400.

(** The branches of [formatDistance] after [minutes] is computed, without
    [includeSeconds]. *)
Definition distance_token (minutes months : Z) : Token * Z :=
  if minutes <? 2 then
    (if minutes =? 0 then (LessThanXMinutes, 1) else (XMinutes, minutes))
  else if minutes <? 45 then (XMinutes, minutes)
  else if minutes <? 90 then (AboutXHours, 1)
  else if minutes <? minutes_in_day then (AboutXHours, round_div minutes 60)
  else if minutes <? minutes_in_almost_two_days then (XDays, 1)
  else if minutes <? minutes_in_month then (XDays, round_div minutes minutes_in_day)
  else if minutes <? minutes_in_two_months then
    (AboutXMonths, round_div minutes minutes_in_month)
  else if months <? 12 then (XMonths, round_div minutes minutes_in_month)
  else
    let r := months mod 12 in
    let years := months / 12 in
    if r <? 3 then (AboutXYears, years)
    else if r <? 9 then (OverXYears, years)
    else (AlmostXYears, years + 1).

(** [formatDistanceLocale] of [ptBR]: the [one] form for a count of [1],
    the [other] form with [{{count}}] replaced otherwise. *)
Definition ptBR (t : Token) (count : Z) : string :=
  let n := decimal count in
  let one_other (one other : string) := if count =? 1 then one else n +:+ other in
  match t with
  | LessThanXMinutes => if count =? 1 then "menos de um minuto" else "menos de " +:+ n +:+ " minutos"
  | XMinutes => one_other "1 minuto" " minutos"
  | AboutXHours => if count =? 1 then "cerca de 1 hora" else "cerca de " +:+ n +:+ " horas"
  | XDays => one_other "1 dia" " dias"
  | AboutXMonths => if count =? 1 then "cerca de 1 mês" else "cerca de " +:+ n +:+ " meses"
  | XMonths => one_other "1 mês" " meses"
  | AboutXYears => if count =? 1 then "cerca de 1 ano" else "cerca de " +:+ n +:+ " anos"
  | OverXYears => if count =? 1 then "mais de 1 ano" else "mais de " +:+ n +:+ " anos"
  | AlmostXYears => if count =? 1 then "quase 1 ano" else "quase " +:+ n +:+ " anos"
  end.

Section distance.
(** [differenceInMonths(dateRight, dateLeft)] of date-fns. *)
Variable months_between : Z -> Z -> Z.

(** The minutes between the two instants once ordered:
    [Math.round(differenceInSeconds(dateRight, dateLeft) / 60)]. *)
Definition distance_minutes (l r : Z) : Z := round_div ((r - l) / 1000) 60.

(** [formatDistance(date, baseDate, { locale: ptBR })]: [compareAsc] puts
    the later instant on the right. *)
Definition distance_of (date base : Z) : Token * Z :=
  let '(l, r) := if base <? date then (base, date) else (date, base) in
  distance_token (distance_minutes l r) (months_between r l).

Definition formatDistance (date base : Z) : string :=
  let '(t, n) := distance_of date base in ptBR t n.

End distance.

(** [(t1, n1)] shows a distance no larger than [(t2, n2)]: an earlier
    bucket, or the same bucket with a count no larger. *)
Definition dist_le (a b : Token * Z) : Prop :=
  (token_rank a.1 < token_rank b.1)%nat \/ (a.1 = b.1 /\ a.2 <= b.2).

Lemma round_div_mono x y d : 0 < d -> x <= y -> round_div x d <= round_div y d.
Proof. intros Hd Hxy. unfold round_div. apply Z.div_le_mono; lia. Qed.

(** The count each bucket shows. *)
Definition count_ok (tn : Token * Z) : Prop :=
  match tn with
  | (LessThanXMinutes, n) => n = 1
  | (XMinutes, n) => 1 <= n <= 44
  | (AboutXHours, n) => 1 <= n <= 24
  | (XDays, n) => 1 <= n <= 30
  | (AboutXMonths, n) => 1 <= n <= 2
  | (XMonths, n) => 2 <= n
  | (AboutXYears, n) | (OverXYears, n) => 1 <= n
  | (AlmostXYears, n) => 2 <= n
  end.

(** Case analysis on the thresholds of [distance_token]. *)
Ltac buckets :=
  unfold distance_token, minutes_in_day, minutes_in_almost_two_days, minutes_in_month,
    minutes_in_two_months;
  repeat match goal with
  | |- context [if ?a <? ?b then _ else _] => destruct (Z.ltb_spec a b)
  | |- context [if ?a =? ?b then _ else _] => destruct (Z.eqb_spec a b)
  end.

Lemma distance_token_mono m1 m2 mo1 mo2 :
  0 <= m1 <= m2 -> m2 < minutes_in_two_months ->
  dist_le (distance_token m1 mo1) (distance_token m2 mo2).
Proof.
  unfold minutes_in_two_months. intros Hm Hlt. unfold dist_le. buckets;
    try (exfalso; lia); try (left; simpl; lia);
    right; (split; [done|]); simpl;
    (lia || (apply round_div_mono; lia) || (unfold round_div; Z.div_mod_to_equations; lia)).
Qed.

Lemma distance_token_counts m mo : 0 <= m -> count_ok (distance_token m mo).
Proof.
  intros Hm. buckets; simpl; try lia; unfold round_div; Z.div_mod_to_equations; lia.
Qed.

Section distance_props.
Variable months_between : Z -> Z -> Z.

Lemma distance_minutes_mono l r1 r2 :
  r1 <= r2 -> distance_minutes l r1 <= distance_minutes l r2.
Proof.
  intros Hr. unfold distance_minutes. apply round_div_mono; [lia|].
  apply Z.div_le_mono; lia.
Qed.

Lemma distance_minutes_nonneg l r : l <= r -> 0 <= distance_minutes l r.
Proof.
  intros H. unfold distance_minutes, round_div. apply Z.div_pos; [|lia].
  pose proof (Z.div_pos (r - l) 1000). lia.
Qed.

Lemma distance_of_past date base :
  date <= base -> distance_of months_between date base =
  distance_token (distance_minutes date base) (months_between base date).
Proof. intros H. unfold distance_of. by rewrite (proj2 (Z.ltb_ge base date)) by lia. Qed.

(** C27: the panel does not say in which direction the time goes.  No
    [addSuffix] is passed, so [formatDistance] gives the same text when
    the two instants are swapped: a last donation dated in the future
    reads like one in the past, where the specification speaks of a
    distance "ago". *)
Theorem formatDistance_symmetric date base :
  formatDistance months_between date base = formatDistance months_between base date.
Proof.
  unfold formatDistance, distance_of.
  destruct (Z.ltb_spec base date), (Z.ltb_spec date base); try lia; try done.
  by replace base with date by lia.
Qed.

(** C28: the distance shown grows with time.  For a fixed last donation,
    a later now never shows an earlier bucket, nor a smaller count in the
    same bucket, as long as the distance stays below two months (from
    there on the calendar months of [months_between] decide). *)
Theorem distance_monotone last t1 t2 :
  last <= t1 <= t2 -> distance_minutes last t2 < minutes_in_two_months ->
  dist_le (distance_of months_between last t1) (distance_of months_between last t2).
Proof.
  intros Ht Hlt. rewrite !distance_of_past by lia.
  apply distance_token_mono; [|done].
  split; [apply distance_minutes_nonneg; lia|apply distance_minutes_mono; lia].
Qed.

(** C29: every count shown lies in the range of its bucket: [1] minute
    for less than a minute, 1 to 44 minutes, 1 to 24 hours, 1 to 30 days,
    1 or 2 months for about a month, at least 2 months, at least a year,
    almost 2 years or more. *)
Theorem distance_counts date base : count_ok (distance_of months_between date base).
Proof.
  unfold distance_of. destruct (Z.ltb_spec base date);
    apply distance_token_counts, distance_minutes_nonneg; lia.
Qed.

End distance_props.
