(* ===== verification/Types.v ===== *)
(** * The records of the page

    [TaskList.t] is the TS type [TaskList] of [index.tsx] (lines 30-37),
    [User.t] the [user] field of [BoardProps] (lines 38-46), [Session.t]
    the fields of the next-auth session the loader reads (lines 213-241),
    and [Doc.t] the document [addDoc] writes to the collection [tasks]
    (lines 84-89).  A [Date] is its time value in milliseconds since the
    epoch, a [Z]. *)

From S2P Require Import Prelude.

(** [created: string | Date] is a [Date] in a row the page adds
    ([new Date()] in [handleAddTask]); in a row of the loader it is, after
    [JSON.parse], the plain object [{ seconds, nanoseconds }] of the
    document's Firestore [Timestamp] ([Json.created_is_plain_object]).
    The page never reads it, so the model keeps the time value both
    denote. *)
Module TaskList.
Record t := mk {
  id : string;
  created : Z;
  createdFormatted : option string;
  task : string;
  userId : string;
  name : string;
}.

#[export] Instance eq_dec : EqDecision t.
Proof. solve_decision. Defined.

(** [task] is the only field the page ever writes after creation
    (line 71: [data[taskIndex].task = input]). *)
Definition set_task (s : string) (x : t) : t :=
  mk (id x) (created x) (createdFormatted x) s (userId x) (name x).

Lemma set_task_same x : set_task (task x) x = x.
Proof. by destruct x. Qed.

Lemma set_task_twice s s' x : set_task s (set_task s' x) = set_task s x.
Proof. done. Qed.
End TaskList.

(** The [user] prop: [vip] unlocks the edit button (line 174) and the
    supporter panel (line 192). *)
Module User.
Record t := mk {
  id : string;
  name : string;
  vip : bool;
  lastDonate : Z;
}.
End User.

(** The session object; [id] is [undefined] ([None]) when next-auth did not
    attach one. *)
Module Session.
Record t := mk {
  id : option string;
  user_name : string;
  vip : bool;
  lastDonate : Z;
}.
End Session.

(** A document of the collection [tasks]: the four fields [addDoc] writes.
    Its identifier is the key of the collection, not a field. *)
Module Doc.
Record t := mk {
  created : Z;
  task : string;
  userId : string;
  name : string;
}.

#[export] Instance eq_dec : EqDecision t.
Proof. solve_decision. Defined.

(** [updateDoc(ref, { task: input })] merges the one field. *)
Definition set_task (s : string) (d : t) : t :=
  mk (created d) s (userId d) (name d).
End Doc.
