(* ===== verification/Store.v ===== *)
(** * The collection [tasks]: the interface the page relies on

    The page calls four Firestore functions on the collection [tasks]
    (the handle [db] comes from [services/firebaseConnection], which is not
    under [src/]): [addDoc] (line 84), [updateDoc] (line 63), [deleteDoc]
    (line 108) and [getDocs(query(..., where('userId', '==', id)))]
    (lines 224-226).  The class [DocStore] gives these operations and
    [doc_at], the document stored under an id; [DocStoreLaws] states what
    Firestore promises of them, and is all the loader and the board use.
    [FireStore] implements the class on a [gmap] with the set of ids
    ever generated, and its laws are proved. *)

From S2P Require Import Prelude Types.

Class DocStore (S : Type) := {
  (** [addDoc(collection(db, 'tasks'), d)]: stores [d] under a generated id
      and returns that id. *)
  addDoc : Doc.t -> S -> string * S;
  (** [updateDoc(doc(db, 'tasks', k), { task: s })]: rejects with
      [not-found] when there is no document [k]. *)
  updateDoc : string -> string -> S -> option S;
  (** [deleteDoc(doc(db, 'tasks', k))]: succeeds whether or not [k] exists. *)
  deleteDoc : string -> S -> S;
  (** [getDocs(query(collection(db, 'tasks'), where('userId', '==', u)))]. *)
  getDocsByUser : string -> S -> list (string * Doc.t);
  (** Observations: the document under an id, and every id ever issued. *)
  doc_at : S -> string -> option Doc.t;
  issued : S -> gset string;
  store_wf : S -> Prop;
}.

Class DocStoreLaws (S : Type) `{!DocStore S} := {
  addDoc_fresh d s : store_wf s -> (addDoc d s).1 ∉ issued s;
  addDoc_doc_at d s k : store_wf s ->
    doc_at (addDoc d s).2 k =
      if decide (k = (addDoc d s).1) then Some d else doc_at s k;
  addDoc_issued d s : store_wf s ->
    issued (addDoc d s).2 = {[(addDoc d s).1]} ∪ issued s;
  addDoc_wf d s : store_wf s -> store_wf (addDoc d s).2;
  updateDoc_None k t s : updateDoc k t s = None <-> doc_at s k = None;
  updateDoc_doc_at k t s s' j : updateDoc k t s = Some s' ->
    doc_at s' j = if decide (j = k) then Doc.set_task t <$> doc_at s k
                  else doc_at s j;
  updateDoc_issued k t s s' : updateDoc k t s = Some s' -> issued s' = issued s;
  updateDoc_wf k t s s' : store_wf s -> updateDoc k t s = Some s' -> store_wf s';
  deleteDoc_doc_at k s j :
    doc_at (deleteDoc k s) j = if decide (j = k) then None else doc_at s j;
  deleteDoc_issued k s : issued (deleteDoc k s) = issued s;
  deleteDoc_wf k s : store_wf s -> store_wf (deleteDoc k s);
  doc_at_issued s k d : store_wf s -> doc_at s k = Some d -> k ∈ issued s;
  getDocsByUser_spec u s k d :
    (k, d) ∈ getDocsByUser u s <-> doc_at s k = Some d /\ Doc.userId d = u;
  getDocsByUser_NoDup u s : NoDup (getDocsByUser u s).*1;
}.

(** ** The documents of one user, as a map

    [user_docs u s] is the part of the collection the query
    [where('userId', '==', u)] sees; it is the abstract state the board
    refines. *)
Section user_docs.
Context `{DocStoreLaws St}.

Definition owned_by (u : string) (s : St) (k : string) : option Doc.t :=
  match doc_at s k with
  | Some d => if decide (Doc.userId d = u) then Some d else None
  | None => None
  end.

Lemma owned_by_Some u s k d :
  owned_by u s k = Some d <-> doc_at s k = Some d /\ Doc.userId d = u.
Proof.
  unfold owned_by. destruct (doc_at s k) as [d'|]; [|naive_solver].
  case_decide; naive_solver.
Qed.

Lemma getDocsByUser_owned u s k d :
  (k, d) ∈ getDocsByUser u s <-> owned_by u s k = Some d.
Proof. by rewrite getDocsByUser_spec, owned_by_Some. Qed.

Lemma addDoc_owned u d s k :
  store_wf s ->
  owned_by u (addDoc d s).2 k =
    if decide (k = (addDoc d s).1) then
      (if decide (Doc.userId d = u) then Some d else None)
    else owned_by u s k.
Proof.
  intros Hwf. unfold owned_by. rewrite addDoc_doc_at by done.
  by case_decide.
Qed.

(** The laws of [addDoc] at the id it returned. *)
Lemma addDoc_spec d s k s' :
  store_wf s -> addDoc d s = (k, s') ->
  k ∉ issued s /\ issued s' = {[k]} ∪ issued s /\ store_wf s' /\
  forall j, doc_at s' j = if decide (j = k) then Some d else doc_at s j.
Proof.
  intros Hwf Hadd.
  pose proof (addDoc_fresh d s Hwf) as Hf. pose proof (addDoc_issued d s Hwf) as Hi.
  pose proof (addDoc_wf d s Hwf) as Hw. pose proof (addDoc_doc_at d s) as Hd.
  rewrite Hadd in Hf, Hi, Hw, Hd. simpl in *. auto.
Qed.

Lemma deleteDoc_owned u k s j :
  owned_by u (deleteDoc k s) j = if decide (j = k) then None else owned_by u s j.
Proof. unfold owned_by. rewrite deleteDoc_doc_at. by case_decide. Qed.

Lemma updateDoc_owned u k t s s' j :
  updateDoc k t s = Some s' ->
  owned_by u s' j =
    if decide (j = k) then Doc.set_task t <$> owned_by u s k else owned_by u s j.
Proof.
  intros Hu. unfold owned_by. rewrite (updateDoc_doc_at _ _ _ _ _ Hu).
  case_decide; [|done]. subst. destruct (doc_at s k); [|done]. simpl.
  by case_decide.
Qed.
End user_docs.

#[export] Hint Resolve addDoc_wf deleteDoc_wf updateDoc_wf : board.

(** ** The implementation on a finite map

    Firestore generates a random 20-character id for [addDoc]; the model
    picks an id outside every id ever issued, which is what makes the ids
    unique and never reused. *)
Module FireStore.
Record t := mk {
  docs : gmap string Doc.t;
  ids : gset string;
}.

Definition wf (s : t) : Prop := dom (docs s) ⊆ ids s.

Definition add (d : Doc.t) (s : t) : string * t :=
  let k := fresh (ids s) in
  (k, mk (<[k := d]> (docs s)) ({[k]} ∪ ids s)).

Definition update (k : string) (txt : string) (s : t) : option t :=
  match docs s !! k with
  | Some d => Some (mk (<[k := Doc.set_task txt d]> (docs s)) (ids s))
  | None => None
  end.

Definition delete (k : string) (s : t) : t :=
  mk (base.delete k (docs s)) (ids s).

Definition by_user (u : string) (s : t) : list (string * Doc.t) :=
  map_to_list (filter (fun kd => Doc.userId kd.2 = u) (docs s)).

#[global] Instance store : DocStore t := {|
  addDoc := add;
  updateDoc := update;
  deleteDoc := delete;
  getDocsByUser := by_user;
  doc_at s k := docs s !! k;
  issued := ids;
  store_wf := wf;
|}.

Lemma wf_fresh s : wf s -> docs s !! fresh (ids s) = None.
Proof.
  intros Hwf. apply not_elem_of_dom. intros Hin.
  apply (is_fresh (ids s)). by apply Hwf.
Qed.

#[global] Instance laws : DocStoreLaws t.
Proof.
  split; simpl.
  - intros d s _. apply is_fresh.
  - intros d s k _. simpl. rewrite lookup_insert.
    repeat case_decide; congruence.
  - done.
  - intros d s Hwf. unfold wf in *. simpl. rewrite dom_insert_L. set_solver.
  - intros k txt s. unfold update. destruct (docs s !! k); naive_solver.
  - intros k txt s s' j. unfold update. destruct (docs s !! k) eqn:Hk; [|done].
    intros [= <-]. simpl. rewrite lookup_insert.
    repeat case_decide; subst; rewrite ?Hk; congruence.
  - intros k txt s s'. unfold update. destruct (docs s !! k); [|done]. by intros [= <-].
  - intros k txt s s' Hwf. unfold update, wf in *.
    destruct (docs s !! k) eqn:Hk; [|done]. intros [= <-]. simpl.
    rewrite dom_insert_L. apply elem_of_dom_2 in Hk. set_solver.
  - intros k s j. simpl. rewrite lookup_delete.
    repeat case_decide; congruence.
  - done.
  - intros k s Hwf. unfold wf in *. simpl. rewrite dom_delete_L. set_solver.
  - intros s k d Hwf Hk. apply Hwf. by eapply elem_of_dom_2.
  - intros u s k d. unfold by_user. rewrite elem_of_map_to_list.
    rewrite map_lookup_filter_Some. done.
  - intros u s. unfold by_user. apply NoDup_fst_map_to_list.
Qed.
End FireStore.
