(* ===== verification/Loader.v ===== *)
(** * The server-side loader [getServerSideProps] (lines 212-246)

    The loader resolves the session; when the session has no [id] it
    returns a temporary redirect to ["/"]; otherwise it queries the
    documents whose [userId] is the session's id and maps each one to a
    row [{ id: doc.id, createdFormatted: format(created, 'dd MMMM yyyy'),
    ...doc.data() }].  The spread comes last, but a document holds only the
    four fields [addDoc] writes ([Doc.t]), so it overrides neither [id] nor
    [createdFormatted].  The rows travel to the component as
    [JSON.stringify(rows)] and come back through [JSON.parse(data)]
    (line 50); the model hands the rows over unchanged, which
    [Json.loader_data_transfer] justifies: the text parses back into
    exactly these rows.  [format] is the
    date-fns formatter, a parameter [fmt] here. *)

From S2P Require Import Prelude Types Store.

Inductive Result :=
  | Redirect (destination : string) (permanent : bool)
  | Props (user : User.t) (data : list TaskList.t).

Section loader.
Context `{DocStoreLaws St}.
(** [format(date, 'dd MMMM yyyy')] *)
Variable fmt : Z -> string.

(** [{ id: doc.id, createdFormatted: format(...), ...doc.data() }] *)
Definition row_of (kd : string * Doc.t) : TaskList.t :=
  TaskList.mk kd.1 (Doc.created kd.2) (Some (fmt (Doc.created kd.2)))
    (Doc.task kd.2) (Doc.userId kd.2) (Doc.name kd.2).

(** [const user = { name: session?.user.name, id: session?.id, ... }] *)
Definition user_of (s : Session.t) (sid : string) : User.t :=
  User.mk sid (Session.user_name s) (Session.vip s) (Session.lastDonate s).

Definition getServerSideProps (session : option Session.t) (db : St) : Result :=
  match session with
  | Some s =>
      match Session.id s with
      | Some sid =>
          if decide (sid = "") then Redirect "/" false
          else Props (user_of s sid) (row_of <$> getDocsByUser sid db)
      | None => Redirect "/" false
      end
  | None => Redirect "/" false
  end.

(** [!session?.id]: no session, no id, or the empty string. *)
Definition anonymous (session : option Session.t) : bool :=
  match session with
  | Some s => match Session.id s with
              | Some sid => bool_decide (sid = "")
              | None => true
              end
  | None => true
  end.

Lemma row_of_inj : Inj eq eq row_of.
Proof.
  intros [k1 [c1 t1 u1 n1]] [k2 [c2 t2 u2 n2]]. unfold row_of. simpl.
  intros [=]. by subst.
Qed.

Lemma row_of_elem k d (l : list (string * Doc.t)) :
  row_of (k, d) ∈ row_of <$> l <-> (k, d) ∈ l.
Proof.
  rewrite list_elem_of_fmap. split.
  - intros (kd & Heq & Hin). apply row_of_inj in Heq. by subst.
  - intros Hin. by exists (k, d).
Qed.
End loader.

Section loader_props.
Context `{DocStoreLaws St} (fmt : Z -> string).

(** C9: an anonymous request ([!session?.id]) is redirected to ["/"],
    temporarily, whatever the collection holds: no document is read. *)
Theorem loader_redirects_anonymous session (db : St) :
  anonymous session = true ->
  getServerSideProps fmt session db = Redirect "/" false.
Proof.
  unfold anonymous, getServerSideProps.
  destruct session as [s|]; [|done].
  destruct (Session.id s) as [sid|]; [|done].
  intros Hsid. apply bool_decide_eq_true in Hsid. by rewrite decide_True.
Qed.

(** C10: an authenticated request receives the session's user and one row
    per document of that user and no other, with distinct ids: a document
    [k] of the collection has its row exactly when its [userId] is the
    session's id. *)
Theorem loader_rows_exact s sid (db : St) :
  Session.id s = Some sid -> sid <> "" ->
  exists rows,
    getServerSideProps fmt (Some s) db = Props (user_of s sid) rows /\
    (forall k d, row_of fmt (k, d) ∈ rows <-> owned_by sid db k = Some d) /\
    (forall r, r ∈ rows -> exists k d, r = row_of fmt (k, d)) /\
    NoDup (TaskList.id <$> rows).
Proof.
  intros Hsid Hne. exists (row_of fmt <$> getDocsByUser sid db).
  split; [unfold getServerSideProps; rewrite Hsid, decide_False; done|].
  split; [|split].
  - intros k d. by rewrite row_of_elem, getDocsByUser_owned.
  - intros r (kd & -> & _)%list_elem_of_fmap. destruct kd as [k d]. by exists k, d.
  - rewrite <- list_fmap_compose.
    assert (TaskList.id ∘ row_of fmt = fst) as -> by done.
    apply getDocsByUser_NoDup.
Qed.

(** What the component receives: rows with distinct ids, each the row of
    a document of the user under that id. *)
Lemma loader_props_spec session (db : St) u rows :
  getServerSideProps fmt session db = Props u rows ->
  NoDup (TaskList.id <$> rows) /\
  forall r, r ∈ rows -> exists d,
    owned_by (User.id u) db (TaskList.id r) = Some d /\ r = row_of fmt (TaskList.id r, d).
Proof.
  unfold getServerSideProps. destruct session as [s|]; [|done].
  destruct (Session.id s) as [sid|] eqn:Hsid; [|done].
  case_decide; [done|]. intros [= <- <-]. split.
  - rewrite <- list_fmap_compose.
    assert (TaskList.id ∘ row_of fmt = fst) as -> by done.
    apply getDocsByUser_NoDup.
  - intros r ([k d] & -> & Hin)%list_elem_of_fmap. exists d.
    split; [|done]. by apply getDocsByUser_owned.
Qed.

(** Conversely, every document of the user has its row. *)
Lemma loader_props_complete session (db : St) u rows k d :
  getServerSideProps fmt session db = Props u rows ->
  owned_by (User.id u) db k = Some d -> row_of fmt (k, d) ∈ rows.
Proof.
  unfold getServerSideProps. destruct session as [s|]; [|done].
  destruct (Session.id s) as [sid|] eqn:Hsid; [|done].
  case_decide; [done|]. intros [= <- <-] Hd.
  apply row_of_elem, getDocsByUser_owned. done.
Qed.

(** Every row the loader produces belongs to the user it hands over. *)
Lemma loader_rows_owned session (db : St) u rows :
  getServerSideProps fmt session db = Props u rows ->
  Forall (fun r => TaskList.userId r = User.id u) rows.
Proof.
  unfold getServerSideProps. destruct session as [s|]; [|done].
  destruct (Session.id s) as [sid|] eqn:Hsid; [|done].
  case_decide; [done|]. intros [= <- <-].
  apply Forall_forall. intros r (kd & -> & Hin)%list_elem_of_fmap.
  destruct kd as [k d]. apply getDocsByUser_spec in Hin as [_ Hu]. done.
Qed.
End loader_props.
