(* ===== verification/Json.v ===== *)
(** * The JSON transfer of the rows (lines 228-234 and 50)

    The loader does not hand the rows to the page as objects: it builds
    [JSON.stringify(querySnapshot.docs.map((doc) => ({ id: doc.id,
    createdFormatted: ..., ...doc.data() })))] and the component reads
    them back with [JSON.parse(data)].  This file models the JSON values
    ([json]), [JSON.stringify] ([stringify]) and [JSON.parse]
    ([JSON_parse]) on them, the object the loader builds for a document
    ([row_json], with the spread of [doc.data()] as [obj_spread]) and the
    reading of a parsed object as a [TaskList.t] ([row_of_json]).

    Strings are Rocq strings, one [ascii] per code unit: the characters
    the page handles in tasks and names are copied as they are, and
    [JSON.stringify] escapes the quote, the backslash and the control
    characters as ECMAScript's [QuoteJSONString] does.  The numbers the
    loader writes are the integer fields [seconds] and [nanoseconds] of a
    Firestore [Timestamp], so a number is a [Z]: [JSON_parse] reads an
    optional sign and the digits of an integer, not fractions or
    exponents.  Objects are association lists in property order; the
    keys of the page are never integer-like, so the JavaScript rule that
    puts integer keys first does not arise.

    [JSON_parse] is a recursive-descent parser with fuel [1 + length]
    of the text; [jsize_le_length] shows that this fuel is enough for any
    text [stringify] writes. *)

From S2P Require Import Prelude DateFormat Types Store Loader.
From Stdlib Require Import Ascii.

Local Open Scope Z_scope.

(** ** JSON values *)

Unset Elimination Schemes.
Inductive json :=
  | JNull
  | JBool (b : bool)
  | JNum (n : Z)
  | JStr (s : string)
  | JArr (vs : list json)
  | JObj (fs : list (string * json)).
Set Elimination Schemes.

(** The induction principle with a hypothesis for every element of an
    array and every value of an object. *)
Definition json_ind (P : json -> Prop)
    (fnull : P JNull) (fbool : forall b, P (JBool b)) (fnum : forall n, P (JNum n))
    (fstr : forall s, P (JStr s))
    (farr : forall vs, Forall P vs -> P (JArr vs))
    (fobj : forall fs, Forall (fun kv => P kv.2) fs -> P (JObj fs)) : forall v, P v :=
  fix F v :=
    match v with
    | JNull => fnull
    | JBool b => fbool b
    | JNum n => fnum n
    | JStr s => fstr s
    | JArr vs => farr vs ((fix G vs : Forall P vs :=
        match vs with [] => List.Forall_nil _ | w :: ws => List.Forall_cons _ w ws (F w) (G ws) end) vs)
    | JObj fs => fobj fs ((fix H fs : Forall (fun kv => P kv.2) fs :=
        match fs with
        | [] => List.Forall_nil _
        | kv :: gs => List.Forall_cons (fun kv => P kv.2) kv gs (F kv.2) (H gs)
        end) fs)
    end.

(** ** Objects

    Defining a property that exists replaces its value in place;
    otherwise it is appended.  [JSON.parse] builds an object this way
    (a repeated key keeps its first position and its last value), and so
    does an object literal with a spread. *)

Fixpoint obj_set {A} (k : string) (v : A) (o : list (string * A)) : list (string * A) :=
  match o with
  | [] => [(k, v)]
  | (k', v') :: o' => if String.eqb k k' then (k, v) :: o' else (k', v') :: obj_set k v o'
  end.

Definition obj_spread {A} (o : list (string * A)) (fs : list (string * A)) : list (string * A) :=
  fold_left (fun acc kv => obj_set kv.1 kv.2 acc) fs o.

Definition obj_get {A} (k : string) (o : list (string * A)) : option A :=
  option_map (fun ix => ix.2.2) (list_find (fun kv => kv.1 = k) o).

(** ** [JSON.stringify] *)

Definition dq : ascii := "034"%char.
Definition bs : ascii := "092"%char.

Definition hex_digit (n : nat) : ascii :=
  if (n <? 10)%nat then ascii_of_nat (48 + n) else ascii_of_nat (87 + n).

(** [QuoteJSONString] on one code unit. *)
Definition escape (c : ascii) : string :=
  let n := nat_of_ascii c in
  if (n =? 34)%nat then String bs (String dq EmptyString)
  else if (n =? 92)%nat then String bs (String bs EmptyString)
  else if (n =? 8)%nat then String bs "b"
  else if (n =? 9)%nat then String bs "t"
  else if (n =? 10)%nat then String bs "n"
  else if (n =? 12)%nat then String bs "f"
  else if (n =? 13)%nat then String bs "r"
  else if (n <? 32)%nat then
    String bs (String "u"%char (String "0"%char (String "0"%char
      (String (hex_digit (n / 16)) (String (hex_digit (n mod 16)) EmptyString)))))
  else String c EmptyString.

Fixpoint quote_go (s : string) : string :=
  match s with
  | EmptyString => String dq EmptyString
  | String c s' => String.append (escape c) (quote_go s')
  end.

Definition quote (s : string) : string := String dq (quote_go s).

(** [Number::toString] on an integer. *)
Definition num_str (n : Z) : string :=
  if n <? 0 then String "-"%char (decimal (- n)) else decimal n.

Fixpoint stringify (v : json) : string :=
  match v with
  | JNull => "null"
  | JBool true => "true"
  | JBool false => "false"
  | JNum n => num_str n
  | JStr s => quote s
  | JArr vs => String "["%char (String.append (String.concat "," (map stringify vs)) "]")
  | JObj fs =>
      String "{"%char (String.append
        (String.concat "," (map (fun kv => String.append (quote kv.1)
                                              (String ":"%char (stringify kv.2))) fs)) "}")
  end.

(** ** [JSON.parse] *)

(** JSON's white space: space, tab, line feed, carriage return. *)
Definition is_ws (c : ascii) : bool :=
  let n := nat_of_ascii c in
  (n =? 32)%nat || (n =? 9)%nat || (n =? 10)%nat || (n =? 13)%nat.

Fixpoint skip_ws (s : string) : string :=
  match s with
  | EmptyString => EmptyString
  | String c s' => if is_ws c then skip_ws s' else s
  end.

(** The text after the character [c], white space skipped before it. *)
Definition next_is (c : ascii) (s : string) : option string :=
  match skip_ws s with
  | String c' r => if Ascii.eqb c c' then Some r else None
  | EmptyString => None
  end.

Fixpoint strip_prefix (p s : string) : option string :=
  match p, s with
  | EmptyString, _ => Some s
  | String a p', String b s' => if Ascii.eqb a b then strip_prefix p' s' else None
  | String _ _, EmptyString => None
  end.

Definition hex_val (c : ascii) : option nat :=
  let n := nat_of_ascii c in
  if (48 <=? n)%nat && (n <=? 57)%nat then Some (n - 48)%nat
  else if (97 <=? n)%nat && (n <=? 102)%nat then Some (n - 87)%nat
  else if (65 <=? n)%nat && (n <=? 70)%nat then Some (n - 55)%nat
  else None.

(** The code unit of [\uXXXX]; one above [255] has no [ascii]. *)
Definition unicode_unit (h1 h2 h3 h4 : ascii) : option ascii :=
  a ← hex_val h1; b ← hex_val h2; c ← hex_val h3; d ← hex_val h4;
  let n := (((a * 16 + b) * 16 + c) * 16 + d)%nat in
  if (n <? 256)%nat then Some (ascii_of_nat n) else None.

(** The one-letter escapes: a backslash followed by a quote, a backslash,
    a slash, or one of [b f n r t]. *)
Definition simple_escape (e : ascii) : option ascii :=
  let n := nat_of_ascii e in
  if (n =? 34)%nat then Some dq
  else if (n =? 92)%nat then Some bs
  else if (n =? 47)%nat then Some "/"%char
  else if (n =? 98)%nat then Some (ascii_of_nat 8)
  else if (n =? 102)%nat then Some (ascii_of_nat 12)
  else if (n =? 110)%nat then Some (ascii_of_nat 10)
  else if (n =? 114)%nat then Some (ascii_of_nat 13)
  else if (n =? 116)%nat then Some (ascii_of_nat 9)
  else None.

(** The characters of a string literal after its opening quote, and the
    text after its closing quote.  A raw control character is a syntax
    error. *)
Fixpoint parse_str (s : string) : option (string * string) :=
  match s with
  | EmptyString => None
  | String c r =>
      if Ascii.eqb c dq then Some (EmptyString, r)
      else if Ascii.eqb c bs then
        match r with
        | EmptyString => None
        | String e r' =>
            if Ascii.eqb e "u"%char then
              match r' with
              | String h1 (String h2 (String h3 (String h4 r''))) =>
                  u ← unicode_unit h1 h2 h3 h4; '(t, r3) ← parse_str r''; Some (String u t, r3)
              | _ => None
              end
            else u ← simple_escape e; '(t, r3) ← parse_str r'; Some (String u t, r3)
        end
      else if (nat_of_ascii c <? 32)%nat then None
      else '(t, r') ← parse_str r; Some (String c t, r')
  end.

Fixpoint digits_go (s : string) (acc : Z) : Z * string :=
  match s with
  | EmptyString => (acc, EmptyString)
  | String c r =>
      match digit_val c with
      | Some d => digits_go r (acc * 10 + d)
      | None => (acc, s)
      end
  end.

(** An integer: an optional [-], then [0] alone or a digit from [1] to [9]
    and the digits that follow. *)
Definition parse_nat (s : string) : option (Z * string) :=
  match s with
  | EmptyString => None
  | String c r => d ← digit_val c; if d =? 0 then Some (0, r) else Some (digits_go r d)
  end.

Definition parse_int (s : string) : option (Z * string) :=
  match s with
  | String c r =>
      if Ascii.eqb c "-"%char then '(n, r') ← parse_nat r; Some (- n, r') else parse_nat s
  | EmptyString => None
  end.

Fixpoint parse_value (fuel : nat) (s : string) : option (json * string) :=
  match fuel with
  | O => None
  | S f =>
      match skip_ws s with
      | EmptyString => None
      | String c r as s' =>
          if Ascii.eqb c dq then '(t, r') ← parse_str r; Some (JStr t, r')
          else if Ascii.eqb c "["%char then
            match next_is "]"%char r with
            | Some r' => Some (JArr [], r')
            | None => '(vs, r') ← parse_elems f r; Some (JArr vs, r')
            end
          else if Ascii.eqb c "{"%char then
            match next_is "}"%char r with
            | Some r' => Some (JObj [], r')
            | None => '(fs, r') ← parse_fields f r; Some (JObj (obj_spread [] fs), r')
            end
          else
            match strip_prefix "null" s' with
            | Some r' => Some (JNull, r')
            | None =>
                match strip_prefix "true" s' with
                | Some r' => Some (JBool true, r')
                | None =>
                    match strip_prefix "false" s' with
                    | Some r' => Some (JBool false, r')
                    | None => '(n, r') ← parse_int s'; Some (JNum n, r')
                    end
                end
            end
      end
  end
with parse_elems (fuel : nat) (s : string) : option (list json * string) :=
  match fuel with
  | O => None
  | S f =>
      '(v, r) ← parse_value f s;
      match next_is ","%char r with
      | Some r' => '(vs, r'') ← parse_elems f r'; Some (v :: vs, r'')
      | None => r' ← next_is "]"%char r; Some ([v], r')
      end
  end
with parse_fields (fuel : nat) (s : string) : option (list (string * json) * string) :=
  match fuel with
  | O => None
  | S f =>
      r0 ← next_is dq s;
      '(k, r1) ← parse_str r0;
      r2 ← next_is ":"%char r1;
      '(v, r3) ← parse_value f r2;
      match next_is ","%char r3 with
      | Some r4 => '(fs, r5) ← parse_fields f r4; Some ((k, v) :: fs, r5)
      | None => r4 ← next_is "}"%char r3; Some ([(k, v)], r4)
      end
  end.

(** [JSON.parse(text)]: one value, then only white space. *)
Definition JSON_parse (s : string) : option json :=
  '(v, r) ← parse_value (S (String.length s)) s;
  if decide (skip_ws r = EmptyString) then Some v else None.

(** ** The rows of the loader *)

(** [JSON.stringify] of a Firestore [Timestamp]: its [seconds] and
    [nanoseconds]; [Timestamp.fromDate] takes the floor of the time value
    in seconds and keeps the milliseconds as nanoseconds. *)
Definition timestamp_json (t : Z) : json :=
  JObj [("seconds", JNum (t / 1000)); ("nanoseconds", JNum (t mod 1000 * 1000000))].

(** [doc.data()]: the four fields [addDoc] wrote (lines 84-89). *)
Definition doc_data (d : Doc.t) : list (string * json) :=
  [("created", timestamp_json (Doc.created d)); ("task", JStr (Doc.task d));
   ("userId", JStr (Doc.userId d)); ("name", JStr (Doc.name d))].

(** [{ id: doc.id, createdFormatted: format(doc.data().created.toDate(),
    'dd MMMM yyyy'), ...doc.data() }] (lines 229-233). *)
Definition row_json (fmt : Z -> string) (kd : string * Doc.t) : json :=
  JObj (obj_spread [("id", JStr kd.1); ("createdFormatted", JStr (fmt (Doc.created kd.2)))]
                   (doc_data kd.2)).

(** [const data = JSON.stringify(querySnapshot.docs.map(...))] (line 228). *)
Definition loader_data (fmt : Z -> string) (docs : list (string * Doc.t)) : string :=
  stringify (JArr (row_json fmt <$> docs)).

(** How [Board] reads a parsed row as a [TaskList.t].  The component
    never reads [created] (only [createdFormatted] is shown, line 172), so
    the model takes the time value the [Timestamp] fields denote. *)
Definition str_field (k : string) (o : list (string * json)) : option string :=
  match obj_get k o with Some (JStr s) => Some s | _ => None end.

Definition num_field (k : string) (o : list (string * json)) : option Z :=
  match obj_get k o with Some (JNum n) => Some n | _ => None end.

Definition created_of (v : json) : option Z :=
  match v with
  | JObj o => s ← num_field "seconds" o; ns ← num_field "nanoseconds" o;
              Some (s * 1000 + ns / 1000000)
  | _ => None
  end.

Definition row_of_json (v : json) : option TaskList.t :=
  match v with
  | JObj o =>
      i ← str_field "id" o; c ← obj_get "created" o ≫= created_of;
      cf ← str_field "createdFormatted" o; t ← str_field "task" o;
      u ← str_field "userId" o; n ← str_field "name" o;
      Some (TaskList.mk i c (Some cf) t u n)
  | _ => None
  end.

(** [useState<TaskList[]>(JSON.parse(data))] (line 50). *)
Definition rows_of_json (v : json) : option (list TaskList.t) :=
  match v with JArr vs => mapM row_of_json vs | _ => None end.

(** Every object of the value has distinct keys. *)
Fixpoint json_wf (v : json) : bool :=
  match v with
  | JArr vs => forallb json_wf vs
  | JObj fs => bool_decide (NoDup fs.*1) && forallb (fun kv => json_wf kv.2) fs
  | _ => true
  end.

(** The fuel [parse_value] needs for a value. *)
Fixpoint jsize (v : json) : nat :=
  match v with
  | JArr vs => S (sum_list_with (fun w => S (jsize w)) vs)
  | JObj fs => S (sum_list_with (fun kv => S (jsize kv.2)) fs)
  | _ => 1
  end.

(** ** Reading back what [JSON.stringify] writes *)

(** A text a number may be followed by: it does not go on with a digit. *)
Definition num_stop (r : string) : Prop :=
  match r with String c _ => digit_val c = None | EmptyString => True end.

Lemma skip_ws_cons c s : is_ws c = false -> skip_ws (String c s) = String c s.
Proof. intros H. simpl. by rewrite H. Qed.

(** A white-space character is not a digit. *)
Lemma digit_val_ws c : is_ws c = true -> digit_val c = None.
Proof.
  unfold is_ws, digit_val. intros H.
  repeat apply orb_prop in H as [H|H]; apply Nat.eqb_eq in H; by rewrite H.
Qed.

Lemma digit_val_not_ws c d : digit_val c = Some d -> is_ws c = false.
Proof.
  intros Hd. destruct (is_ws c) eqn:E; [|done]. by rewrite digit_val_ws in Hd.
Qed.

(** Each character reads back from its escape. *)
Lemma parse_str_escape c r :
  parse_str (String.append (escape c) r) = '(t, r') ← parse_str r; Some (String c t, r').
Proof. destruct c as [[] [] [] [] [] [] [] []]; reflexivity. Qed.

Lemma parse_str_quote s r : parse_str (String.append (quote_go s) r) = Some (s, r).
Proof.
  induction s as [|c s IH]; [done|].
  cbn [quote_go]. by rewrite <- str_app_assoc, parse_str_escape, IH.
Qed.

Lemma digits_go_app ds r acc :
  Forall is_digit ds -> num_stop r ->
  digits_go (String.append (string_of_digits ds) r) acc = (digits_value ds acc, r).
Proof.
  intros Hall Hr. revert acc. induction Hall as [|d ds Hd _ IH]; intros acc.
  - destruct r as [|c r]; [done|]. simpl in Hr. simpl. by rewrite Hr.
  - change (string_of_digits (d :: ds)) with (String (digit_char d) (string_of_digits ds)).
    rewrite str_app_cons. cbn [digits_go]. rewrite digit_val_char by done. apply IH.
Qed.

(** The numeral of a positive number reads back. *)
Lemma parse_nat_decimal n r :
  1 <= n -> num_stop r -> parse_nat (String.append (decimal n) r) = Some (n, r).
Proof.
  intros Hn Hr. destruct (decimal_spec n) as (ds & -> & (d & ds' & -> & Hd) & Hall & Hv); [lia|].
  apply Forall_cons in Hall as [Hd9 Hall].
  change (string_of_digits (d :: ds')) with (String (digit_char d) (string_of_digits ds')).
  rewrite str_app_cons. cbn [parse_nat]. rewrite digit_val_char by done. cbn [mbind option_bind].
  rewrite (proj2 (Z.eqb_neq d 0)) by lia. rewrite digits_go_app by done.
  rewrite <- Hv. done.
Qed.

Lemma parse_int_num n r : num_stop r -> parse_int (String.append (num_str n) r) = Some (n, r).
Proof.
  intros Hr. unfold num_str. destruct (Z.ltb_spec n 0) as [Hlt|Hge].
  - rewrite str_app_cons. cbn [parse_int]. rewrite parse_nat_decimal by (done || lia).
    cbn. by rewrite Z.opp_involutive.
  - destruct (Z.eq_dec n 0) as [->|Hn0]; [done|].
    destruct (decimal_spec n) as (ds & Hds & (d & ds' & Hds' & Hd) & Hall & _); [lia|].
    subst ds. apply Forall_cons in Hall as [Hd9 _].
    assert (Hc : Ascii.eqb (digit_char d) "-"%char = false).
    { destruct (Ascii.eqb_spec (digit_char d) "-"%char) as [E|]; [|done].
      pose proof (digit_val_char d Hd9) as Hv. by rewrite E in Hv. }
    rewrite Hds. change (string_of_digits (d :: ds')) with (String (digit_char d) (string_of_digits ds')).
    rewrite str_app_cons. cbn [parse_int]. rewrite Hc, <- str_app_cons.
    change (String (digit_char d) (string_of_digits ds')) with (string_of_digits (d :: ds')).
    rewrite <- Hds. apply parse_nat_decimal; [lia|done].
Qed.

(** A numeral starts with [-] or a digit. *)
Lemma num_str_shape n r :
  exists c s, String.append (num_str n) r = String c s /\ (c = "-"%char \/ digit_val c <> None).
Proof.
  unfold num_str. destruct (Z.ltb_spec n 0).
  - eexists _, _. split; [apply str_app_cons|by left].
  - destruct (decimal_spec n) as (ds & -> & (d & ds' & -> & _) & Hall & _); [lia|].
    apply Forall_cons in Hall as [Hd _].
    eexists _, _. split; [apply str_app_cons|right]. by rewrite digit_val_char.
Qed.

(** A text that starts with [-] or a digit is read as a number. *)
Lemma parse_value_int f c s :
  c = "-"%char \/ digit_val c <> None ->
  parse_value (S f) (String c s) = '(n, r') ← parse_int (String c s); Some (JNum n, r').
Proof.
  intros [->|Hc]; [done|].
  destruct (digit_val c) as [d|] eqn:Hd; [|done]. clear Hc.
  cbn [parse_value]. rewrite skip_ws_cons by (eapply digit_val_not_ws; eauto).
  assert (Hne : forall x, digit_val x = None -> Ascii.eqb c x = false).
  { intros x Hx. destruct (Ascii.eqb_spec c x) as [->|]; [congruence|done]. }
  rewrite !Hne by done. cbn [strip_prefix]. rewrite !(Ascii.eqb_sym _ c), !Hne by done. done.
Qed.

Lemma next_is_hit c s : is_ws c = false -> next_is c (String c s) = Some s.
Proof. intros H. unfold next_is. rewrite skip_ws_cons by done. by rewrite Ascii.eqb_refl. Qed.

Lemma next_is_miss c c' s :
  is_ws c' = false -> Ascii.eqb c c' = false -> next_is c (String c' s) = None.
Proof. intros H1 H2. unfold next_is. by rewrite skip_ws_cons, H2. Qed.

Lemma concat_cons2 (s1 s2 : string) ss :
  String.concat "," (s1 :: s2 :: ss) =
  String.append s1 (String ","%char (String.concat "," (s2 :: ss))).
Proof. done. Qed.

Lemma concat_head (s : string) ss : exists t, String.concat "," (s :: ss) = String.append s t.
Proof. destruct ss as [|s' ss]; [exists EmptyString; by rewrite str_app_nil_r|by eexists]. Qed.

(** What [stringify] writes starts with a character that is neither
    white space nor a closing bracket. *)
Lemma stringify_shape v r :
  exists c s, String.append (stringify v) r = String c s /\ is_ws c = false /\
    Ascii.eqb "]"%char c = false.
Proof.
  destruct v as [| [] | n | s | vs | fs]; try by (eexists _, _; split; [apply str_app_cons|]).
  cbn [stringify]. destruct (num_str_shape n r) as (c & s & -> & [->|Hc]); [by eexists _, _|].
  destruct (digit_val c) as [d|] eqn:Hd; [|done].
  exists c, s. split; [done|]. split; [by eapply digit_val_not_ws|].
  destruct (Ascii.eqb_spec "]"%char c) as [<-|]; [done|done].
Qed.

Lemma obj_set_notin {A} k (v : A) o : k ∉ o.*1 -> obj_set k v o = o ++ [(k, v)].
Proof.
  induction o as [|[k' v'] o IH]; [done|]. rewrite fmap_cons, not_elem_of_cons. intros [Hk Ho].
  cbn [obj_set]. rewrite (proj2 (String.eqb_neq k k')) by done. simpl. by rewrite IH.
Qed.

(** A spread of fields with new keys appends them. *)
Lemma obj_spread_nodup {A} (o fs : list (string * A)) :
  NoDup (o.*1 ++ fs.*1) -> obj_spread o fs = o ++ fs.
Proof.
  revert o. induction fs as [|[k v] fs IH]; intros o Hnd; [by rewrite app_nil_r|].
  rewrite fmap_cons in Hnd.
  assert (Hk : k ∉ o.*1).
  { intros Hk. apply NoDup_app in Hnd as (_ & Hdis & _). apply (Hdis k Hk). left. }
  unfold obj_spread. cbn [fold_left fst snd]. rewrite obj_set_notin by done.
  fold (obj_spread (o ++ [(k, v)]) fs). rewrite IH, <- app_assoc; [done|].
  rewrite fmap_app, <- app_assoc. exact Hnd.
Qed.

(** [parse_value] reads [v] back from its text followed by [r]. *)
Definition reads_back (v : json) : Prop :=
  forall f r, (jsize v <= f)%nat -> num_stop r ->
  parse_value f (String.append (stringify v) r) = Some (v, r).

Lemma parse_elems_stringify vs :
  Forall reads_back vs -> vs <> [] ->
  forall f r, (sum_list_with (fun w => S (jsize w)) vs <= f)%nat ->
  parse_elems f (String.append (String.concat "," (map stringify vs)) (String "]"%char r)) =
  Some (vs, r).
Proof.
  induction 1 as [|v vs Hv Hvs IH]; [done|]. intros _ f r Hf.
  destruct f as [|f]; [simpl in Hf; lia|]. cbn [sum_list_with] in Hf.
  destruct vs as [|w ws].
  - cbn [map String.concat parse_elems]. rewrite Hv by (done || lia). done.
  - cbn [map]. rewrite concat_cons2, <- str_app_assoc, str_app_cons.
    cbn [parse_elems]. rewrite Hv by (done || lia). simpl.
    cbn [map] in IH. rewrite IH by (done || lia). done.
Qed.

Lemma parse_fields_stringify fs :
  Forall (fun kv => reads_back kv.2) fs -> fs <> [] ->
  forall f r, (sum_list_with (fun kv => S (jsize kv.2)) fs <= f)%nat ->
  parse_fields f (String.append (String.concat "," (map (fun kv => String.append (quote kv.1)
                    (String ":"%char (stringify kv.2))) fs)) (String "}"%char r)) =
  Some (fs, r).
Proof.
  induction 1 as [|[k v] fs Hv Hfs IH]; [done|]. intros _ f r Hf. simpl in Hv.
  destruct f as [|f]; [simpl in Hf; lia|]. cbn [sum_list_with fst snd] in Hf.
  destruct fs as [|kv fs'].
  - cbn [map String.concat parse_fields fst snd]. unfold quote.
    rewrite <- !str_app_assoc, !str_app_cons, next_is_hit by done. simpl.
    rewrite parse_str_quote. simpl. rewrite Hv by (done || lia). done.
  - cbn [map]. rewrite concat_cons2. cbn [parse_fields fst snd]. unfold quote at 1.
    rewrite <- !str_app_assoc, !str_app_cons, next_is_hit by done. simpl.
    rewrite parse_str_quote. simpl. rewrite Hv by (done || lia). simpl.
    cbn [map] in IH. rewrite IH by (done || lia). done.
Qed.

Lemma forallb_Forall {A} (P : A -> Prop) (p : A -> bool) l :
  Forall (fun x => p x = true -> P x) l -> forallb p l = true -> Forall P l.
Proof.
  induction 1 as [|x l Hx _ IH]; [done|]. simpl. intros [Hp Hl]%andb_prop.
  constructor; [by apply Hx|by apply IH].
Qed.

Lemma concat_map_head {A} (F : A -> string) x xs :
  exists t, String.concat "," (map F (x :: xs)) = String.append (F x) t.
Proof. apply concat_head. Qed.

Lemma close_app x c r :
  String.append (String.append x (String c EmptyString)) r = String.append x (String c r).
Proof. by rewrite <- str_app_assoc. Qed.

Lemma parse_value_arr f s :
  parse_value (S f) (String "["%char s) =
  match next_is "]"%char s with
  | Some r' => Some (JArr [], r')
  | None => '(vs, r') ← parse_elems f s; Some (JArr vs, r')
  end.
Proof. done. Qed.

Lemma parse_value_obj f s :
  parse_value (S f) (String "{"%char s) =
  match next_is "}"%char s with
  | Some r' => Some (JObj [], r')
  | None => '(fs, r') ← parse_fields f s; Some (JObj (obj_spread [] fs), r')
  end.
Proof. done. Qed.

Lemma parse_value_stringify v : json_wf v = true -> reads_back v.
Proof.
  induction v as [|b|n|s|vs IH|fs IH] using json_ind; intros Hwf f r Hf Hr;
    (destruct f as [|f]; [simpl in Hf; lia|]).
  - done.
  - by destruct b.
  - destruct (num_str_shape n r) as (c & s & E & Hc). cbn [stringify].
    rewrite E, parse_value_int by done. rewrite <- E, parse_int_num by done. done.
  - cbn [stringify]. unfold quote. rewrite str_app_cons. cbn [parse_value].
    rewrite skip_ws_cons by done. simpl. by rewrite parse_str_quote.
  - destruct vs as [|v vs]; [done|]. cbn [json_wf] in Hwf.
    cbn [stringify]. rewrite str_app_cons, close_app, parse_value_arr.
    destruct (concat_map_head stringify v vs) as [t Ht].
    destruct (stringify_shape v (String.append t (String "]"%char r))) as (c & s & Hc & Hws & Hb).
    rewrite Ht, <- str_app_assoc, Hc, next_is_miss by done.
    rewrite <- Hc, str_app_assoc, <- Ht.
    rewrite parse_elems_stringify; [done|eapply forallb_Forall; eauto|done|cbn [jsize] in Hf; lia].
  - destruct fs as [|[k v] fs]; [done|]. cbn [json_wf] in Hwf.
    apply andb_prop in Hwf as [Hnd Hwf]. apply bool_decide_eq_true in Hnd.
    cbn [stringify]. rewrite str_app_cons, close_app, parse_value_obj.
    destruct (concat_map_head (fun kv => String.append (quote kv.1)
      (String ":"%char (stringify kv.2))) (k, v) fs) as [t Ht]. cbn [fst snd] in Ht.
    rewrite Ht. cbn [fst snd]. unfold quote at 1.
    rewrite <- !str_app_assoc, str_app_cons, next_is_miss by done.
    fold (quote k). rewrite (str_app_assoc (quote k)), str_app_assoc, <- Ht.
    rewrite parse_fields_stringify; [|eapply forallb_Forall; [exact IH|exact Hwf]|done|
      cbn [jsize] in Hf; lia].
    change (Some (JObj (obj_spread [] ((k, v) :: fs)), r) = Some (JObj ((k, v) :: fs), r)).
    by rewrite obj_spread_nodup.
Qed.

(** ** The fuel of [JSON_parse] is enough *)

Lemma length_app (a b : string) : String.length (String.append a b) = (String.length a + String.length b)%nat.
Proof. induction a as [|c a IH]; [done|]. rewrite str_app_cons. simpl. by rewrite IH. Qed.

(** Joining with [","] writes one character between two pieces. *)
Lemma length_concat ss :
  (sum_list_with (fun s => S (String.length s)) ss <= S (String.length (String.concat "," ss)))%nat.
Proof.
  induction ss as [|s ss IH]; [simpl; lia|].
  destruct ss as [|s' ss]; [simpl; lia|].
  rewrite concat_cons2, length_app. cbn [sum_list_with String.length] in *. lia.
Qed.

Lemma sum_list_with_le {A} (f g : A -> nat) l :
  Forall (fun x => f x <= g x)%nat l -> (sum_list_with f l <= sum_list_with g l)%nat.
Proof. induction 1; simpl; lia. Qed.

Lemma sum_list_with_map {A B} (f : B -> nat) (g : A -> B) l :
  sum_list_with f (map g l) = sum_list_with (fun x => f (g x)) l.
Proof. induction l; simpl; lia. Qed.

Lemma jsize_le_length v : (jsize v <= String.length (stringify v))%nat.
Proof.
  induction v as [|[]|n|s|vs IH|fs IH] using json_ind; cbn [jsize stringify]; try (simpl; lia).
  - destruct (num_str_shape n EmptyString) as (c & s & E & _).
    rewrite str_app_nil_r in E. rewrite E. simpl. lia.
  - cbn [String.length]. rewrite length_app. cbn [String.length].
    pose proof (length_concat (map stringify vs)) as Hc. rewrite sum_list_with_map in Hc.
    enough (sum_list_with (fun w => S (jsize w)) vs <=
            sum_list_with (fun w => S (String.length (stringify w))) vs)%nat by lia.
    apply sum_list_with_le. eapply Forall_impl; [exact IH|]. simpl. lia.
  - cbn [String.length]. rewrite length_app. cbn [String.length].
    pose proof (length_concat (map (fun kv => String.append (quote kv.1)
                  (String ":"%char (stringify kv.2))) fs)) as Hc.
    rewrite sum_list_with_map in Hc.
    enough (sum_list_with (fun kv => S (jsize kv.2)) fs <=
            sum_list_with (fun kv => S (String.length (String.append (quote kv.1)
                             (String ":"%char (stringify kv.2))))) fs)%nat by lia.
    apply sum_list_with_le. eapply Forall_impl; [exact IH|]. intros [k w] Hw. simpl in *.
    rewrite length_app. simpl. lia.
Qed.

(** ** What the component reads *)

(** The object of a row, once the spread of [doc.data()] is done: none of
    the document's keys is [id] or [createdFormatted]. *)
Lemma row_json_eq fmt k d :
  row_json fmt (k, d) =
  JObj [("id", JStr k); ("createdFormatted", JStr (fmt (Doc.created d)));
        ("created", timestamp_json (Doc.created d)); ("task", JStr (Doc.task d));
        ("userId", JStr (Doc.userId d)); ("name", JStr (Doc.name d))].
Proof. done. Qed.

Lemma row_json_wf fmt kd : json_wf (row_json fmt kd) = true.
Proof. destruct kd as [k d]. by rewrite row_json_eq. Qed.

(** The [Timestamp] fields give back the time value. *)
Lemma created_of_timestamp t : created_of (timestamp_json t) = Some t.
Proof.
  change (Some (t / 1000 * 1000 + t mod 1000 * 1000000 / 1000000) = Some t). f_equal.
  rewrite Z.div_mul by lia. pose proof (Z.div_mod t 1000). lia.
Qed.

Lemma row_of_json_row fmt kd : row_of_json (row_json fmt kd) = Some (row_of fmt kd).
Proof.
  destruct kd as [k d]. rewrite row_json_eq.
  change (created_of (timestamp_json (Doc.created d)) ≫= (fun c =>
    Some (TaskList.mk k c (Some (fmt (Doc.created d))) (Doc.task d) (Doc.userId d)
            (Doc.name d))) = Some (row_of fmt (k, d))).
  by rewrite created_of_timestamp.
Qed.

Lemma mapM_map_Some {A B C} (f : B -> option C) (g : A -> B) (h : A -> C) l :
  (forall x, f (g x) = Some (h x)) -> mapM f (map g l) = Some (map h l).
Proof. intros Hfg. induction l as [|x l IH]; [done|]. simpl. by rewrite Hfg, IH. Qed.

(** The rows of any list of documents survive the JSON transfer. *)
(** [JSON.parse] undoes [JSON.stringify] on every value whose objects
    have distinct keys; the fuel [1 + length] of [JSON_parse] is enough. *)
Lemma JSON_parse_stringify v : json_wf v = true -> JSON_parse (stringify v) = Some v.
Proof.
  intros Hwf. unfold JSON_parse.
  rewrite <- (str_app_nil_r (stringify v)) at 2.
  rewrite parse_value_stringify; [done|done|pose proof (jsize_le_length v); lia|done].
Qed.

Lemma loader_json_wf fmt docs : json_wf (JArr (row_json fmt <$> docs)) = true.
Proof.
  apply forallb_forall. intros v Hv. apply list_elem_of_In, list_elem_of_fmap in Hv as (kd & -> & _).
  apply row_json_wf.
Qed.

Lemma rows_transfer fmt docs :
  JSON_parse (loader_data fmt docs) ≫= rows_of_json = Some (row_of fmt <$> docs).
Proof.
  unfold loader_data. rewrite JSON_parse_stringify by apply loader_json_wf.
  simpl. apply mapM_map_Some, row_of_json_row.
Qed.

(** ** The contract of the transfer *)

(** The text the loader sends is JSON that [JSON.parse] reads back
    as the array of row objects it was made from: the task texts and
    names through their escapes, the [Timestamp] fields through their
    digits, the keys in the order of the object literal. *)
Theorem loader_data_parses fmt docs :
  JSON_parse (loader_data fmt docs) = Some (JArr (row_json fmt <$> docs)).
Proof. apply JSON_parse_stringify, loader_json_wf. Qed.

Section transfer.
Context `{DocStoreLaws St}.

(** C25: the rows reach the component unchanged.  When the loader
    returns props for a user, the text [JSON.stringify] makes of the rows
    of that user's documents parses back, in [useState(JSON.parse(data))],
    into exactly the rows of the props, in the same order; so modelling the
    transfer as the identity, as [Loader] and [Board] do, loses nothing. *)
Theorem loader_data_transfer fmt session (s : St) u rows :
  getServerSideProps fmt session s = Props u rows ->
  JSON_parse (loader_data fmt (getDocsByUser (User.id u) s)) ≫= rows_of_json = Some rows.
Proof.
  unfold getServerSideProps.
  destruct session as [ss|]; [|done]. destruct (Session.id ss) as [sid|]; [|done].
  case_decide; [done|]. intros [= <- <-]. apply rows_transfer.
Qed.

End transfer.

(** After [JSON.parse], [created] is not a [Date].  The loader
    spreads [doc.data()], whose [created] is a Firestore [Timestamp]; the
    text carries its [seconds] and [nanoseconds], and [JSON.parse] gives a
    plain object where the type [TaskList] (line 32) promises
    [string | Date]. *)
Example created_is_plain_object :
  JSON_parse (loader_data (format_ddMMMMyyyy 0) [("1", Doc.mk 1500 "Buy milk" "u1" "Ana")]) =
  Some (JArr [JObj [("id", JStr "1"); ("createdFormatted", JStr "01 January 1970");
                    ("created", JObj [("seconds", JNum 1); ("nanoseconds", JNum 500000000)]);
                    ("task", JStr "Buy milk"); ("userId", JStr "u1"); ("name", JStr "Ana")]]).
Proof. vm_compute. reflexivity. Qed.
