(* ===== verification/JsonFuel.v ===== *)
(** * The fuel of [JSON_parse] (line 50)

    [parse_value], [parse_elems] and [parse_fields] of [Json] recurse on a
    fuel, as a Rocq fixpoint must; [JSON.parse] has none.  This file shows
    that the fuel [JSON_parse] gives, one more than the length of the
    text, loses nothing: a parse that succeeds with some fuel consumes
    characters, succeeds with every fuel at least the number of characters
    it consumes, and so succeeds with the fuel [JSON_parse] passes.
    [JSON_parse] is therefore the unbounded recursive-descent parser. *)

From S2P Require Import Prelude DateFormat Types Store Loader Json.
From Stdlib Require Import Ascii.

(** The unbounded parser: [s] is a value [v] followed by white space only
    when some fuel, however large, parses it so.  This is [JSON.parse] of
    ECMAScript, with no bound on the recursion. *)
Definition parses_to (s : string) (v : json) : Prop :=
  exists f r, parse_value f s = Some (v, r) /\ skip_ws r = EmptyString.

(** ** The scanners consume *)

Lemma skip_ws_len s : (String.length (skip_ws s) <= String.length s)%nat.
Proof. induction s as [|c s IH]; simpl; [lia|]. destruct (is_ws c); simpl; lia. Qed.

Lemma next_is_len c s r : next_is c s = Some r -> (String.length r < String.length s)%nat.
Proof.
  unfold next_is. pose proof (skip_ws_len s).
  destruct (skip_ws s) as [|c' s']; [done|]. simpl in *.
  destruct (Ascii.eqb c c'); [|done]. intros [= <-]. lia.
Qed.

Lemma strip_prefix_len p s r : strip_prefix p s = Some r -> (String.length r + String.length p = String.length s)%nat.
Proof.
  revert s. induction p as [|a p IH]; intros [|b s] H; simpl in *; simplify_eq; simpl; try lia.
  destruct (Ascii.eqb a b); [|done]. specialize (IH s H). lia.
Qed.

Lemma parse_str_len s t r : parse_str s = Some (t, r) -> (String.length r < String.length s)%nat.
Proof.
  remember (String.length s) as n eqn:Hn. revert s t r Hn.
  induction n as [n IH] using lt_wf_ind. intros [|c s] t r Hn; simpl; [done|].
  simpl in Hn. destruct (Ascii.eqb c dq); [intros [= _ <-]; lia|].
  destruct (Ascii.eqb c bs).
  - destruct s as [|e s']; [done|].
    destruct (Ascii.eqb e "u"%char).
    + destruct s' as [|h1 [|h2 [|h3 [|h4 r'']]]]; try done.
      destruct (unicode_unit h1 h2 h3 h4); [|done]. simpl.
      destruct (parse_str r'') as [[t' r3]|] eqn:E; [|done]. intros [= _ <-].
      simpl in Hn. assert (String.length r3 < String.length r'')%nat by (eapply IH; [|done|]; [|done]; lia). lia.
    + destruct (simple_escape e); [|done]. simpl.
      destruct (parse_str s') as [[t' r3]|] eqn:E; [|done]. intros [= _ <-].
      simpl in Hn. assert (String.length r3 < String.length s')%nat by (eapply IH; [|done|]; [|done]; lia). lia.
  - destruct (nat_of_ascii c <? 32)%nat; [done|].
    destruct (parse_str s) as [[t' r3]|] eqn:E; [|done]. intros [= _ <-].
    assert (String.length r3 < String.length s)%nat by (eapply IH; [|done|]; [|done]; lia). lia.
Qed.

Lemma digits_go_len s a : (String.length (digits_go s a).2 <= String.length s)%nat.
Proof.
  revert a. induction s as [|c s IH]; intros a; simpl; [lia|].
  destruct (digit_val c); simpl; [specialize (IH (a * 10 + z)%Z)|]; lia.
Qed.

Lemma parse_nat_len s n r : parse_nat s = Some (n, r) -> (String.length r < String.length s)%nat.
Proof.
  destruct s as [|c s]; simpl; [done|]. destruct (digit_val c) as [d|]; [|done]. simpl.
  destruct (d =? 0)%Z; [intros [= _ <-]; lia|].
  pose proof (digits_go_len s d). destruct (digits_go s d). intros [= _ <-]. simpl in *. lia.
Qed.

Lemma parse_int_len s n r : parse_int s = Some (n, r) -> (String.length r < String.length s)%nat.
Proof.
  intros H. unfold parse_int in H. destruct s as [|c s]; [done|].
  destruct (Ascii.eqb c "-"%char); [|by apply parse_nat_len in H].
  destruct (parse_nat s) as [[m r']|] eqn:E; [|done]. simpl in H. simplify_eq.
  apply parse_nat_len in E. simpl. lia.
Qed.

(** ** Enough fuel *)

(** A parse that succeeds consumes a character at least, and succeeds
    with the same result on every fuel no smaller than the characters it
    consumes. *)
Definition fuel_ok {A} (p : nat -> string -> option (A * string)) (f : nat) : Prop :=
  forall s x r, p f s = Some (x, r) ->
    (String.length r < String.length s)%nat /\
    forall f', (String.length s <= f' + String.length r)%nat -> p f' s = Some (x, r).

#[local] Arguments strip_prefix : simpl never.
#[local] Arguments next_is : simpl never.
#[local] Arguments skip_ws : simpl never.
#[local] Arguments parse_str : simpl never.
#[local] Arguments parse_int : simpl never.
#[local] Arguments Ascii.eqb : simpl never.

Ltac split_on H :=
  repeat match type of H with
  | context [match ?x with _ => _ end] => let E := fresh "E" in destruct x eqn:E; simpl in H
  | context [mbind _ ?x] => let E := fresh "E" in destruct x eqn:E; simpl in H
  end.

(** One branch of a parser: the length each step consumes, then the same
    steps on the larger fuel. *)
Ltac fuel_branch :=
  repeat match goal with
  | E : skip_ws ?s = String _ _ |- _ =>
      let L := fresh "L" in pose proof (skip_ws_len s) as L; rewrite E in L; simpl in L; revert E
  | E : next_is _ _ = Some _ |- _ => pose proof (next_is_len _ _ _ E); revert E
  | E : parse_str _ = Some _ |- _ => pose proof (parse_str_len _ _ _ E); revert E
  | E : strip_prefix _ _ = Some _ |- _ => pose proof (strip_prefix_len _ _ _ E); simpl in *; revert E
  | E : parse_int _ = Some _ |- _ => pose proof (parse_int_len _ _ _ E); revert E
  | E : ?p ?f _ = Some _, IH : fuel_ok ?p ?f |- _ =>
      let L := fresh "L" in let M := fresh "M" in destruct (IH _ _ _ E) as [L M]; clear E
  end;
  intros; cbn [String.length] in *; split; [lia|];
  let f' := fresh "f" in let Hf := fresh "Hf" in intros f' Hf; destruct f' as [|f']; [lia|]; simpl;
  repeat match goal with
  | E : ?x = _ |- context [?x] => rewrite E; simpl
  | M : forall g, _ -> ?p g ?s = _ |- context [?p ?f' ?s] => rewrite (M f') by lia; simpl
  end; done.

Lemma parse_fuel f :
  fuel_ok parse_value f /\ fuel_ok parse_elems f /\ fuel_ok parse_fields f.
Proof.
  induction f as [|f (IHv & IHe & IHf)]; [split_and!; intros ??? [=]|].
  split_and!; intros s x r H; simpl in H; split_on H; simplify_eq; fuel_branch.
Qed.

(** [JSON_parse] is the unbounded parser: the fuel it passes, one more
    than the length of the text, never runs out. *)
Lemma JSON_parse_unbounded s v : JSON_parse s = Some v <-> parses_to s v.
Proof.
  unfold JSON_parse, parses_to. split.
  - destruct (parse_value _ s) as [[v' r]|] eqn:E; simpl; [|done].
    case_decide; [intros [= <-]; eauto|done].
  - intros (f & r & E & Hr). destruct (proj1 (parse_fuel f) s v r E) as [Hlt Hmono].
    rewrite (Hmono (S (String.length s))) by lia. simpl. by rewrite decide_True.
Qed.
