(* ===== verification/JsonTypes.v ===== *)
(** * The type of what [JSON.parse(data)] gives the component (line 50)

    [ty] is the fragment of the TypeScript types the page declares,
    [has_type] its run-time meaning on a JSON value, and [TaskList_ty]
    the type [TaskList] of lines 30-37.
    [useState<TaskList[]>(JSON.parse(data))] claims [TaskList[]]; the
    value has that type only when there is no row, and it always has the
    type [TaskList] with [created] the plain [Timestamp] object
    ([TaskList_wire_ty]). *)

From S2P Require Import Prelude DateFormat Types Store Loader Json.
From Stdlib Require Import Ascii.

Local Open Scope Z_scope.

(** ** Definitions *)

(** The TypeScript types the page declares: primitives, [Date], unions,
    arrays and object types whose fields may be optional ([?]). *)
Unset Elimination Schemes.
Inductive ty :=
  | TyString
  | TyNumber
  | TyBoolean
  | TyNull
  | TyDate
  | TyUnion (a b : ty)
  | TyArray (a : ty)
  | TyObject (fs : list (string * bool * ty)).
Set Elimination Schemes.

(** A JSON value has a type.  No JSON value is a [Date]; an object type
    lets the object have more keys than it names (structural typing), and
    an optional field may be absent. *)
Fixpoint has_type (t : ty) (v : json) : bool :=
  match t, v with
  | TyString, JStr _ | TyNumber, JNum _ | TyBoolean, JBool _ | TyNull, JNull => true
  | TyUnion a b, _ => has_type a v || has_type b v
  | TyArray a, JArr vs => forallb (has_type a) vs
  | TyObject fs, JObj o =>
      forallb (fun '(k, opt, a) =>
        match obj_get k o with Some w => has_type a w | None => opt end) fs
  | _, _ => false
  end.

(** [type TaskList] (lines 30-37). *)
Definition TaskList_ty : ty :=
  TyObject [("id", false, TyString); ("created", false, TyUnion TyString TyDate);
            ("createdFormatted", true, TyString); ("task", false, TyString);
            ("userId", false, TyString); ("name", false, TyString)].

(** [TaskList] as the text carries it: [created] is the object
    [JSON.stringify] makes of a Firestore [Timestamp]. *)
Definition TaskList_wire_ty : ty :=
  TyObject [("id", false, TyString);
            ("created", false, TyObject [("seconds", false, TyNumber);
                                         ("nanoseconds", false, TyNumber)]);
            ("createdFormatted", true, TyString); ("task", false, TyString);
            ("userId", false, TyString); ("name", false, TyString)].

(** ** The type of [JSON.parse(data)] *)

Lemma row_json_wire fmt kd : has_type TaskList_wire_ty (row_json fmt kd) = true.
Proof. destruct kd as [k d]. rewrite row_json_eq. vm_compute. reflexivity. Qed.

Lemma row_json_not_TaskList fmt kd : has_type TaskList_ty (row_json fmt kd) = false.
Proof. destruct kd as [k d]. rewrite row_json_eq. vm_compute. reflexivity. Qed.

(** C32: the value [useState<TaskList[]>] receives has the type
    [TaskList[]] only when there is no row.  [JSON.parse(data)] always
    gives an array of objects of the wire type, [created] a
    [{ seconds, nanoseconds }] object; no such object is a [string] or a
    [Date], so as soon as the user has a task the value breaks the type
    the code declares for it. *)
Theorem parsed_data_type fmt docs :
  exists v, JSON_parse (loader_data fmt docs) = Some v /\
    has_type (TyArray TaskList_wire_ty) v = true /\
    (has_type (TyArray TaskList_ty) v = true <-> docs = []).
Proof.
  exists (JArr (row_json fmt <$> docs)). split; [apply JSON_parse_stringify, loader_json_wf|].
  split.
  - apply forallb_forall. intros v Hv.
    apply list_elem_of_In, list_elem_of_fmap in Hv as (kd & -> & _). apply row_json_wire.
  - destruct docs as [|kd docs]; [done|]. rewrite fmap_cons. cbn [has_type forallb].
    by rewrite row_json_not_TaskList.
Qed.
