(* ===== verification/LoaderIO.v ===== *)
(** * The loader as the asynchronous function it is (lines 212-246)

    [Loader.getServerSideProps] is the loader's result when every promise
    it awaits resolves.  The code awaits two: [getSession({ req })]
    (line 213) and [getDocs(query(...))] (lines 224-226), and either may
    reject (an unreachable auth endpoint, a Firestore network or
    permission error).  Nothing catches: a rejection ends the loader, and
    Next.js answers the request with its error page (status 500).

    [Async] is a small writer-and-error monad: the calls made so far, in
    order, and the value or the error of the last awaited promise; [abind]
    stops at the first rejection.  [getServerSidePropsIO] is the loader in
    it, with the answers of the two calls as inputs ([Env]), returning the
    props as they leave the server (the [user] object and the text
    [data]).  [respond] is what Next.js sends.

    The theorems: when both calls resolve, the asynchronous loader makes
    exactly the calls the code makes (no query for an anonymous request)
    and returns what [getServerSideProps] returns, the text [data] parsing
    back to its rows; and a rejection of either call yields the error
    page, never partial props, while an anonymous request is redirected
    whether or not the store would fail. *)

From S2P Require Import Prelude Types Store Loader Json.

(** ** Calls and the monad *)

(** The external calls the loader awaits. *)
Inductive Call :=
  | CallGetSession
  | CallGetDocs (uid : string).

#[export] Instance Call_eq_dec : EqDecision Call.
Proof. solve_decision. Defined.

(** The calls made, in order, and the outcome of the computation. *)
Definition Async (A : Type) : Type := list Call * js_result A.

Definition aret {A} (a : A) : Async A := ([], JsOk a).

Definition abind {A B} (m : Async A) (k : A -> Async B) : Async B :=
  match m.2 with
  | JsOk a => let r := k a in (m.1 ++ r.1, r.2)
  | JsThrow e => (m.1, JsThrow e)
  end.

Notation "x <-~ m ;; k" := (abind m (fun x => k))
  (at level 100, m at next level, right associativity) : board_scope.

(** [await c]: call [c], whose promise settles with [answer]. *)
Definition await {A} (c : Call) (answer : js_result A) : Async A := ([c], answer).

(** What a request gets back from [getServerSideProps]. *)
Inductive Response :=
  | RRedirect (destination : string) (permanent : bool)
  | RProps (user : User.t) (data : string).

(** What Next.js sends: the redirect, the page for the props, or its
    error page when the loader rejected. *)
Inductive Http :=
  | Http307 (location : string)
  | Http308 (location : string)
  | Http200 (user : User.t) (data : string)
  | Http500 (e : js_error).

Definition respond (r : js_result Response) : Http :=
  match r with
  | JsOk (RRedirect d false) => Http307 d
  | JsOk (RRedirect d true) => Http308 d
  | JsOk (RProps u data) => Http200 u data
  | JsThrow e => Http500 e
  end.

(** ** The loader *)

(** How the two awaited promises settle: [getSession] with a session or
    [null], or a rejection; [getDocs] with the documents the store holds
    ([None]) or a rejection. *)
Record Env := mkEnv {
  env_session : js_result (option Session.t);
  env_docs : option js_error;
}.

Section loader_io.
Context `{DocStoreLaws St}.
Variable fmt : Z -> string.

Definition query_answer (env : Env) (sid : string) (s : St) : js_result (list (string * Doc.t)) :=
  match env_docs env with
  | None => JsOk (getDocsByUser sid s)
  | Some e => JsThrow e
  end.

Definition getServerSidePropsIO (env : Env) (s : St) : Async Response :=
  session <-~ await CallGetSession (env_session env) ;;
  match session with
  | Some ss =>
      match Session.id ss with
      | Some sid =>
          if decide (sid = "") then aret (RRedirect "/" false)
          else
            docs <-~ await (CallGetDocs sid) (query_answer env sid s) ;;
            aret (RProps (user_of ss sid) (loader_data fmt docs))
      | None => aret (RRedirect "/" false)
      end
  | None => aret (RRedirect "/" false)
  end.

End loader_io.

(** ** Theorems *)

Section loader_io_props.
Context `{DocStoreLaws St}.
Variable fmt : Z -> string.

Lemma abind_ok {A B} (c : Call) (a : A) (k : A -> Async B) :
  abind (await c (JsOk a)) k = (c :: (k a).1, (k a).2).
Proof. done. Qed.

(** C24: the asynchronous loader refines [getServerSideProps].  When
    [getSession] and [getDocs] resolve, the loader calls [getSession],
    then, only for a session with a non-empty id, [getDocs] for that id,
    and answers with the result [getServerSideProps] gives: the same
    redirect, or the same user with a text [data] that [JSON.parse] and
    the component read back as exactly the rows of the props. *)
Theorem loader_io_refines session (s : St) :
  match getServerSideProps fmt session s with
  | Redirect d p =>
      getServerSidePropsIO fmt (mkEnv (JsOk session) None) s = ([CallGetSession], JsOk (RRedirect d p))
  | Props u rows =>
      exists data,
        getServerSidePropsIO fmt (mkEnv (JsOk session) None) s =
          ([CallGetSession; CallGetDocs (User.id u)], JsOk (RProps u data)) /\
        JSON_parse data ≫= rows_of_json = Some rows
  end.
Proof.
  unfold getServerSideProps, getServerSidePropsIO; cbn [env_session]; rewrite abind_ok; cbn beta.
  destruct session as [ss|]; [|done]. destruct (Session.id ss) as [sid|]; [|done].
  case_decide; [done|]. eexists. split; [done|]. apply rows_transfer.
Qed.

(** C18: a rejected call ends in the error page.  When [getSession]
    rejects, the loader makes no other call and Next.js answers with its
    error page; when [getDocs] rejects, an anonymous request is still
    redirected to ["/"] (it never reaches the query), and a signed-in one
    gets the error page after the query, never a page with partial
    props: nothing in the loader catches the rejection. *)
Theorem loader_io_rejections e docs_answer session (s : St) :
  getServerSidePropsIO fmt (mkEnv (JsThrow e) docs_answer) s = ([CallGetSession], JsThrow e) /\
  respond (getServerSidePropsIO fmt (mkEnv (JsThrow e) docs_answer) s).2 = Http500 e /\
  (anonymous session = true ->
     respond (getServerSidePropsIO fmt (mkEnv (JsOk session) (Some e)) s).2 = Http307 "/") /\
  (forall ss sid, session = Some ss -> Session.id ss = Some sid -> sid <> "" ->
     getServerSidePropsIO fmt (mkEnv (JsOk session) (Some e)) s =
       ([CallGetSession; CallGetDocs sid], JsThrow e) /\
     respond (getServerSidePropsIO fmt (mkEnv (JsOk session) (Some e)) s).2 = Http500 e).
Proof.
  split_and!; [done|done| |].
  - unfold anonymous, getServerSidePropsIO; cbn [env_session]; rewrite abind_ok; cbn beta.
    destruct session as [ss|]; [|done]. destruct (Session.id ss) as [sid|]; [|done].
    intros Hsid%bool_decide_eq_true. by rewrite decide_True.
  - intros ss sid -> Hsid Hne. unfold getServerSidePropsIO; cbn [env_session]; rewrite abind_ok; cbn beta. rewrite Hsid.
    by rewrite decide_False.
Qed.

End loader_io_props.
