(* ===== verification/Board.v ===== *)
(** * The component [Board] (lines 48-210)

    The component keeps three React states, [input], [taskList] and
    [taskEdit].  [taskList] is an array of references to objects: the
    handlers read and write the objects through the references, and the
    edit callback writes [data[taskIndex].task = input] into an object that
    other arrays still hold, so the model keeps an object heap ([heap],
    locations [loc]) and [taskList] is a list of locations.

    A handler that writes to Firestore awaits a promise and patches the
    state in its [.then] callback with the [taskList] and [input] its
    closure captured when the event fired.  A promise in flight is a
    [Request] that records what its closure captured; the event [Settle i o]
    lets the [i]-th request settle with outcome [o], in any order.  A
    rejected promise, or an exception thrown in the callback, runs the
    [.catch] handler, which only logs ([console]).

    [handle ev w] is the world after the event [ev], or [None] when the
    page offers no such event (a button that is not rendered, a request
    that is not in flight). *)

From S2P Require Import Prelude Types Store Loader.

Definition loc := nat.

(** What a promise in flight carries: the document or id it sends, and the
    values its callback's closure captured ([taskList], [input], and for an
    edit the [taskEdit] object). *)
Inductive Request :=
  | ReqAdd (d : Doc.t) (snap : list loc) (inp : string)
  | ReqUpdate (docId : string) (target : loc) (snap : list loc) (inp : string)
  | ReqDelete (taskId : string) (snap : list loc).

Inductive Outcome :=
  | Fulfilled
  | Rejected (code : string).

Inductive Output :=
  | Alert (msg : string)
  | ConsoleLog (msg : string) (err : js_error).

Inductive Event :=
  | Change (s : string)
  | Submit
  | ClickEdit (l : loc)
  | ClickCancel
  | ClickDelete (l : loc)
  | Settle (i : nat) (o : Outcome)
  | Tick (dt : Z).

Section board.
Context `{DocStoreLaws St}.
(** [format(date, 'dd MMMM yyyy')] *)
Variable fmt : Z -> string.
(** The [user] prop: constant for the life of the page. *)
Variable user : User.t.

Record World := mkW {
  heap : gmap loc TaskList.t;
  next : loc;
  input : string;
  taskList : list loc;
  taskEdit : option loc;
  pending : list Request;
  db : St;
  now : Z;
  console : list Output;
}.

Definition set_input (s : string) (w : World) : World :=
  mkW (heap w) (next w) s (taskList w) (taskEdit w) (pending w) (db w) (now w) (console w).
Definition set_taskList (ls : list loc) (w : World) : World :=
  mkW (heap w) (next w) (input w) ls (taskEdit w) (pending w) (db w) (now w) (console w).
Definition set_taskEdit (t : option loc) (w : World) : World :=
  mkW (heap w) (next w) (input w) (taskList w) t (pending w) (db w) (now w) (console w).
Definition set_pending (ps : list Request) (w : World) : World :=
  mkW (heap w) (next w) (input w) (taskList w) (taskEdit w) ps (db w) (now w) (console w).
Definition set_db (s : St) (w : World) : World :=
  mkW (heap w) (next w) (input w) (taskList w) (taskEdit w) (pending w) s (now w) (console w).
Definition set_heap (h : gmap loc TaskList.t) (w : World) : World :=
  mkW h (next w) (input w) (taskList w) (taskEdit w) (pending w) (db w) (now w) (console w).
Definition set_now (t : Z) (w : World) : World :=
  mkW (heap w) (next w) (input w) (taskList w) (taskEdit w) (pending w) (db w) t (console w).
Definition out (o : Output) (w : World) : World :=
  mkW (heap w) (next w) (input w) (taskList w) (taskEdit w) (pending w) (db w) (now w)
    (console w ++ [o]).

(** A new object literal: a fresh location. *)
Definition alloc (o : TaskList.t) (w : World) : loc * World :=
  (next w, mkW (<[next w := o]> (heap w)) (S (next w)) (input w) (taskList w)
             (taskEdit w) (pending w) (db w) (now w) (console w)).

(** Reading a property of a reference. *)
Definition read (w : World) (l : loc) : js_result TaskList.t :=
  js_deref (heap w !! l).

(** The rows the page renders, [taskList.map(...)] (line 163). *)
Definition shown (w : World) : list TaskList.t :=
  omap (fun l => heap w !! l) (taskList w).

(** [(item) => item.id === k] *)
Definition has_id (w : World) (k : string) (l : loc) : bool :=
  bool_decide ((TaskList.id <$> heap w !! l) = Some k).

(** ** The handlers, synchronous part *)

(** [handleAddTask] up to its [await] (lines 54-105): an empty input is
    rejected with an alert; with an edit target, an [updateDoc] of the
    target's id is sent; otherwise an [addDoc] of a document created now. *)
Definition handleAddTask (w : World) : js_result World :=
  if decide (input w = "") then JsOk (out (Alert "Preencha alguma tarefa!") w)
  else match taskEdit w with
       | Some t =>
           o <-! read w t ;;
           JsOk (set_pending (pending w ++ [ReqUpdate (TaskList.id o) t (taskList w) (input w)]) w)
       | None =>
           let d := Doc.mk (now w) (input w) (User.id user) (User.name user) in
           JsOk (set_pending (pending w ++ [ReqAdd d (taskList w) (input w)]) w)
       end.

(** [handleDelete(task.id)] up to its [await] (lines 107-108). *)
Definition handleDelete (taskId : string) (w : World) : World :=
  set_pending (pending w ++ [ReqDelete taskId (taskList w)]) w.

(** [handleEditTask(task)] (lines 120-123). *)
Definition handleEditTask (t : loc) (o : TaskList.t) (w : World) : World :=
  set_input (TaskList.task o) (set_taskEdit (Some t) w).

(** [handleCancelEdit] (lines 125-128). *)
Definition handleCancelEdit (w : World) : World :=
  set_input "" (set_taskEdit None w).

(** ** The callbacks of the promises *)

(** The [.then] of [addDoc] (lines 90-101): a new object with the
    generated id and a second [new Date()], appended to the captured
    [taskList]. *)
Definition add_then (k : string) (snap : list loc) (inp : string) (w : World) : World :=
  let o := TaskList.mk k (now w) (Some (fmt (now w))) inp (User.id user) (User.name user) in
  let '(l, w1) := alloc o w in
  set_input "" (set_taskList (snap ++ [l]) w1).

(** The [.then] of [updateDoc] (lines 66-76): [data] is the captured
    array itself; [findIndex] looks for the edit target's id; writing
    through [data[-1]] throws a [TypeError]. *)
Definition edit_then (t : loc) (snap : list loc) (inp : string) (w : World)
    : js_result World :=
  target <-! read w t ;;
  let taskIndex := findIndex (has_id w (TaskList.id target)) snap in
  l <-! js_deref (js_at snap taskIndex) ;;
  o <-! read w l ;;
  let w1 := set_heap (<[l := TaskList.set_task inp o]> (heap w)) w in
  JsOk (set_input "" (set_taskEdit None (set_taskList snap w1))).

(** The [.then] of [deleteDoc] (lines 109-114). *)
Definition delete_then (taskId : string) (snap : list loc) (w : World) : World :=
  set_taskList (filter (fun l => has_id w taskId l = false) snap) w.

(** A request settles: the store applies it when it is fulfilled (an
    [updateDoc] of a missing document is rejected by the store itself),
    then the [.then] callback runs, or the [.catch] one logs. *)
Definition settle (r : Request) (o : Outcome) (w : World) : World :=
  match r with
  | ReqAdd d snap inp =>
      match o with
      | Rejected c => out (ConsoleLog "ERRO AO CADASTRAR: " (FirebaseError c)) w
      | Fulfilled =>
          let '(k, s') := addDoc d (db w) in
          add_then k snap inp (set_db s' w)
      end
  | ReqUpdate k t snap inp =>
      match o with
      | Rejected c => out (ConsoleLog "" (FirebaseError c)) w
      | Fulfilled =>
          match updateDoc k inp (db w) with
          | None => out (ConsoleLog "" (FirebaseError "not-found")) w
          | Some s' =>
              let w1 := set_db s' w in
              match edit_then t snap inp w1 with
              | JsOk w2 => w2
              | JsThrow e => out (ConsoleLog "" e) w1
              end
          end
      end
  | ReqDelete k snap =>
      match o with
      | Rejected c => out (ConsoleLog "ERRO AO DELETAR: " (FirebaseError c)) w
      | Fulfilled => delete_then k snap (set_db (deleteDoc k (db w)) w)
      end
  end.

(** ** Events

    The edit button is rendered only when [user.vip] (line 174), the
    cancel button only when [taskEdit] is set (line 136), and both row
    buttons only for the rows of the current [taskList].  An exception in
    the synchronous part of an async handler rejects its promise, which
    nothing awaits: the state is unchanged. *)
Definition handle (ev : Event) (w : World) : option World :=
  match ev with
  | Change s => Some (set_input s w)
  | Submit =>
      match handleAddTask w with
      | JsOk w' => Some w'
      | JsThrow e => Some (out (ConsoleLog "Uncaught (in promise)" e) w)
      end
  | ClickEdit l =>
      if User.vip user && bool_decide (l ∈ taskList w) then
        o ← heap w !! l; Some (handleEditTask l o w)
      else None
  | ClickCancel =>
      if decide (taskEdit w = None) then None else Some (handleCancelEdit w)
  | ClickDelete l =>
      if bool_decide (l ∈ taskList w) then
        o ← heap w !! l; Some (handleDelete (TaskList.id o) w)
      else None
  | Settle i o =>
      r ← pending w !! i;
      Some (settle r o (set_pending (delete i (pending w)) w))
  | Tick dt =>
      if decide (0 <= dt)%Z then Some (set_now (now w + dt)%Z w) else None
  end.

Fixpoint run (evs : list Event) (w : World) : option World :=
  match evs with
  | [] => Some w
  | ev :: evs' => w' ← handle ev w; run evs' w'
  end.

(** [useState(JSON.parse(data))]: the rows become fresh objects at
    locations [0 .. n-1]; nothing is edited or in flight. *)
Definition init (rows : list TaskList.t) (s : St) (t : Z) : World :=
  mkW (map_seq 0 rows) (length rows) ""
    (seq 0 (length rows)) None [] s t [].

End board.

Arguments World St : clear implicits.

(** ** Well-formed worlds

    Every reference the page holds ([taskList], [taskEdit], and the
    arrays and targets captured by the promises in flight) points to an
    object of the heap, and every object lies below [next]. *)
Section wf.
Context `{DocStoreLaws St}.
Implicit Types w : World St.

Definition req_locs (r : Request) : list loc :=
  match r with
  | ReqAdd _ snap _ => snap
  | ReqUpdate _ t snap _ => t :: snap
  | ReqDelete _ snap => snap
  end.

Definition roots (w : World St) : list loc :=
  taskList w ++ option_list (taskEdit w) ++ mjoin (req_locs <$> pending w).

Definition world_wf (w : World St) : Prop :=
  (forall l, is_Some (heap w !! l) <-> (l < next w)%nat) /\
  (forall l, l ∈ roots w -> (l < next w)%nat) /\
  store_wf (db w).

Lemma wf_next_free w : world_wf w -> heap w !! next w = None.
Proof.
  intros [Hd _]. destruct (heap w !! next w) eqn:E; [|done].
  specialize (proj1 (Hd (next w)) ltac:(by eexists)). lia.
Qed.

Lemma wf_roots w l : world_wf w -> l ∈ roots w -> is_Some (heap w !! l).
Proof. intros (Hd & Hr & _) Hl. apply Hd, Hr, Hl. Qed.

Lemma wf_taskList w l : world_wf w -> l ∈ taskList w -> is_Some (heap w !! l).
Proof. intros Hwf Hl. apply (wf_roots w l Hwf). unfold roots. set_solver. Qed.

Lemma wf_taskEdit w l : world_wf w -> taskEdit w = Some l -> is_Some (heap w !! l).
Proof.
  intros Hwf Hl. apply (wf_roots w l Hwf). unfold roots. rewrite Hl. simpl. set_solver.
Qed.

Lemma req_locs_roots w r i l :
  pending w !! i = Some r -> l ∈ req_locs r -> l ∈ roots w.
Proof.
  intros Hr Hl. unfold roots. rewrite !elem_of_app. right; right.
  apply list_elem_of_join. exists (req_locs r). split; [done|].
  apply list_elem_of_fmap_2. by eapply list_elem_of_lookup_2.
Qed.

End wf.

#[export] Hint Resolve wf_next_free wf_roots wf_taskList wf_taskEdit : board.

(** ** The rendered rows under the heap operations *)
Section shown.
Context `{DocStoreLaws St}.
Implicit Types w : World St.

Lemma omap_insert_notin (h : gmap loc TaskList.t) l o (ls : list loc) :
  l ∉ ls ->
  omap (fun x => <[l := o]> h !! x) ls = omap (fun x => h !! x) ls.
Proof.
  intros Hn. apply omap_ext_elem. intros x Hx.
  rewrite lookup_insert_ne; [done|]. set_solver.
Qed.

(** A location outside the heap is in none of the lists the page holds. *)
Lemma free_notin w l (ls : list loc) :
  heap w !! l = None -> (forall x, x ∈ ls -> is_Some (heap w !! x)) -> l ∉ ls.
Proof. intros Hl Hall Hin. destruct (Hall l Hin) as [? ?]. congruence. Qed.

(** The rows of [snap ++ [l]] once [l] holds the new object [o]. *)
Lemma shown_alloc_snoc (w : World St) o (snap : list loc) :
  world_wf w -> (forall x, x ∈ snap -> is_Some (heap w !! x)) ->
  omap (fun x => <[next w := o]> (heap w) !! x) (snap ++ [next w]) =
    omap (fun x => heap w !! x) snap ++ [o].
Proof.
  intros Hwf Hsnap. rewrite omap_app. simpl. rewrite lookup_insert_eq.
  rewrite omap_insert_notin; [done|].
  apply (free_notin w); [by apply wf_next_free|done].
Qed.
End shown.

Section rows.
Context `{DocStoreLaws St}.
Implicit Types w : World St.

(** [filter] on the references and on the rows they show agree. *)
Lemma omap_filter_has_id (h : gmap loc TaskList.t) k (ls : list loc) :
  omap (fun x => h !! x)
    (filter (fun l => bool_decide ((TaskList.id <$> h !! l) = Some k) = false) ls) =
  filter (fun r => TaskList.id r <> k) (omap (fun x => h !! x) ls).
Proof.
  induction ls as [|x ls IH]; [done|].
  rewrite filter_cons, (omap_cons_eq _ x). destruct (h !! x) as [o|] eqn:Hx.
  - rewrite filter_cons, <- IH. simpl.
    repeat case_decide; rewrite ?omap_cons_eq, ?Hx; naive_solver.
  - rewrite <- IH. case_decide; [|done]. by rewrite omap_cons_eq, Hx.
Qed.

(** Distinct ids in the rendered rows: two references of the list that
    show objects with the same id are the same reference. *)
Definition ids_unique (h : gmap loc TaskList.t) (ls : list loc) : Prop :=
  forall x y ox oy, x ∈ ls -> y ∈ ls -> h !! x = Some ox -> h !! y = Some oy ->
    TaskList.id ox = TaskList.id oy -> x = y.

Lemma NoDup_ids_unique (h : gmap loc TaskList.t) (ls : list loc) :
  NoDup (TaskList.id <$> omap (fun x => h !! x) ls) -> ids_unique h ls.
Proof.
  induction ls as [|z ls IH]; intros Hnd x y ox oy Hx Hy Hox Hoy Hid;
    [set_solver|].
  simpl in Hnd. destruct (h !! z) as [oz|] eqn:Hz.
  - simpl in Hnd. apply NoDup_cons in Hnd as [Hnin Hnd].
    assert (forall u ou, u ∈ ls -> h !! u = Some ou -> TaskList.id ou <> TaskList.id oz)
      as Hfresh.
    { intros u ou Hu Hou Heq. apply Hnin. rewrite <- Heq.
      apply list_elem_of_fmap_2. apply list_elem_of_omap. eauto. }
    apply elem_of_cons in Hx as [->|Hx], Hy as [->|Hy]; [done|..].
    + simplify_eq. exfalso. by apply (Hfresh y oy).
    + simplify_eq. exfalso. by apply (Hfresh x ox).
    + by apply (IH Hnd x y ox oy).
  - apply elem_of_cons in Hx as [->|Hx]; [congruence|].
    apply elem_of_cons in Hy as [->|Hy]; [congruence|].
    by apply (IH Hnd x y ox oy).
Qed.

(** Writing [task] into the object at [l]: the rows showing [l] change,
    no other row does. *)
Lemma omap_set_task (h : gmap loc TaskList.t) l o s (ls : list loc) :
  h !! l = Some o -> l ∈ ls -> ids_unique h ls ->
  omap (fun x => <[l := TaskList.set_task s o]> h !! x) ls =
  (fun r => if decide (TaskList.id r = TaskList.id o) then TaskList.set_task s r else r)
    <$> omap (fun x => h !! x) ls.
Proof.
  intros Hl Hin Huniq. rewrite list_fmap_omap. apply omap_ext_elem.
  intros x Hx. rewrite lookup_insert. case_decide as Hxl.
  - subst. rewrite Hl. simpl. by rewrite decide_True.
  - destruct (h !! x) as [ox|] eqn:Hox; [|done]. simpl.
    rewrite decide_False; [done|]. intros Heq.
    apply Hxl. apply (Huniq l x o ox); auto.
Qed.
End rows.

(** ** The edit callback, when it returns *)
Section edit_then.
Context `{DocStoreLaws St}.

(** When the [.then] of [updateDoc] does not throw, it wrote the new
    text into an object [l] of the captured array, installed that array
    and left edit mode. *)
Lemma edit_then_ok (t : loc) (snap : list loc) (inp : string) (w w' : World St) :
  edit_then t snap inp w = JsOk w' ->
  exists l o, l ∈ snap /\ heap w !! l = Some o /\
    w' = set_input "" (set_taskEdit None (set_taskList snap
           (set_heap (<[l := TaskList.set_task inp o]> (heap w)) w))).
Proof.
  unfold edit_then, read. destruct (heap w !! t) as [target|]; [|done]. simpl.
  destruct (js_at snap _) as [l|] eqn:Hat; [|done]. simpl.
  destruct (heap w !! l) as [o|] eqn:Hl; [|done]. simpl. intros [= <-].
  exists l, o. split; [|done]. unfold js_at in Hat.
  destruct (_ <? 0)%Z; [done|]. by eapply list_elem_of_lookup_2.
Qed.
End edit_then.

(** ** The handlers, one event and its request at a time *)
Section handlers.
Context `{DocStoreLaws St}.
Variable fmt : Z -> string.
Variable user : User.t.
Implicit Types w : World St.

(** The document [handleAddTask] sends for the input [s]. *)
Definition new_doc w : Doc.t :=
  Doc.mk (now w) (input w) (User.id user) (User.name user).

(** C2: adding a task.  In a quiet world with a non-empty input and no
    edit target, a submit whose [addDoc] succeeds stores the new document
    under a fresh id and appends one row with that id, the submitted
    text and the session's user, then clears the input. *)
Theorem add_task_appends w :
  world_wf w -> input w <> "" -> taskEdit w = None -> pending w = [] ->
  let k := (addDoc (new_doc w) (db w)).1 in
  exists w', run fmt user [Submit; Settle 0 Fulfilled] w = Some w' /\
    shown w' = shown w ++ [TaskList.mk k (now w) (Some (fmt (now w))) (input w)
                             (User.id user) (User.name user)] /\
    doc_at (db w') k = Some (new_doc w) /\ (k ∉ issued (db w)) /\
    input w' = "" /\ pending w' = [].
Proof.
  intros Hwf Hin Hedit Hpend k. simpl. unfold handleAddTask.
  rewrite decide_False, Hedit, Hpend by done. simpl.
  unfold k, new_doc in *. destruct (addDoc _ (db w)) as [k' s'] eqn:Hadd. simpl.
  eexists. split; [done|]. destruct Hwf as (Hb & Hr & Hdb).
  split; [|split; [|split]]; [..|done].
  - unfold shown. simpl. apply shown_alloc_snoc; [by split|].
    intros x Hx. apply (wf_taskList w x); [by split|done].
  - simpl. pose proof (addDoc_doc_at (new_doc w) (db w) k' Hdb) as E.
    unfold new_doc in E. rewrite Hadd in E. simpl in E. by rewrite decide_True in E.
  - pose proof (addDoc_fresh (new_doc w) (db w) Hdb) as E.
    unfold new_doc in E. by rewrite Hadd in E.
Qed.
(** C3: a submit with an empty input only raises the alert: no request
    is sent and nothing else of the page or the store changes. *)
Theorem submit_empty_rejected w :
  input w = "" ->
  handle fmt user Submit w = Some (out (Alert "Preencha alguma tarefa!") w).
Proof. intros Hin. simpl. unfold handleAddTask. by rewrite decide_True. Qed.

(** [findIndex] on the captured array finds the reference [l] itself
    when the ids shown are distinct. *)
Lemma findIndex_target w l o (snap : list loc) :
  heap w !! l = Some o -> l ∈ snap -> ids_unique (heap w) snap ->
  js_at snap (findIndex (has_id w (TaskList.id o)) snap) = Some l.
Proof.
  intros Hl Hin Huniq.
  destruct (findIndex_at (has_id w (TaskList.id o)) snap l Hin) as (x & Hx & Hhas).
  { unfold has_id. rewrite Hl. by apply bool_decide_eq_true. }
  rewrite Hx. f_equal. unfold has_id in Hhas. apply bool_decide_eq_true in Hhas.
  destruct (heap w !! x) as [ox|] eqn:Hox; [|done]. simpl in Hhas. injection Hhas as Hid.
  unfold js_at in Hx. destruct (_ <? 0)%Z; [done|].
  apply (Huniq x l ox o); auto. by eapply list_elem_of_lookup_2.
Qed.

(** C4: editing a task.  A supporter who clicks the edit button of the
    row [l], types [s] and submits, with the [updateDoc] succeeding,
    changes the text of that task and of nothing else, in the rows shown
    and in the store, and leaves edit mode with the input cleared. *)
Theorem edit_changes_only_target w l o s :
  world_wf w -> pending w = [] -> taskEdit w = None -> User.vip user = true ->
  l ∈ taskList w -> heap w !! l = Some o -> NoDup (TaskList.id <$> shown w) ->
  doc_at (db w) (TaskList.id o) <> None -> s <> "" ->
  exists w', run fmt user [ClickEdit l; Change s; Submit; Settle 0 Fulfilled] w = Some w' /\
    shown w' = (fun r => if decide (TaskList.id r = TaskList.id o)
                         then TaskList.set_task s r else r) <$> shown w /\
    (forall k, doc_at (db w') k =
       if decide (k = TaskList.id o) then Doc.set_task s <$> doc_at (db w) k
       else doc_at (db w) k) /\
    taskEdit w' = None /\ input w' = "" /\ pending w' = [].
Proof.
  intros Hwf Hpend Hedit Hvip Hin Hl Hnd Hdoc Hs.
  assert (Huniq : ids_unique (heap w) (taskList w)) by by apply NoDup_ids_unique.
  destruct (updateDoc (TaskList.id o) s (db w)) as [s'|] eqn:Hupd;
    [|by apply updateDoc_None in Hupd].
  simpl. rewrite Hvip, bool_decide_true, Hl by done. simpl.
  unfold handleAddTask. simpl. rewrite decide_False by done. simpl.
  unfold read. simpl. rewrite Hl. simpl. rewrite Hpend. simpl.
  rewrite Hupd. unfold edit_then, read. simpl. rewrite Hl. simpl.
  rewrite (findIndex_target (set_db s' (set_pending [] (set_pending [ReqUpdate (TaskList.id o) l (taskList w) s]
    (set_input s (set_input (TaskList.task o) (set_taskEdit (Some l) w)))))) l o);
    [|done..]. simpl. rewrite Hl. simpl.
  eexists. split; [done|]. split; [|split; [|done]].
  - unfold shown. simpl. by apply omap_set_task.
  - intros k. simpl. rewrite (updateDoc_doc_at _ _ _ _ k Hupd).
    case_decide; by subst.
Qed.
(** C5: cancelling an edit.  Clicking edit and then cancel leaves the
    page as it was with the input cleared: no request, no change to the
    list, the store or the edit target. *)
Theorem edit_then_cancel w l o :
  taskEdit w = None -> User.vip user = true -> l ∈ taskList w -> heap w !! l = Some o ->
  run fmt user [ClickEdit l; ClickCancel] w = Some (set_input "" w).
Proof.
  intros Hedit Hvip Hin Hl. simpl. rewrite Hvip, bool_decide_true, Hl by done.
  simpl. destruct w; simpl in *; by subst.
Qed.

Lemma filter_length_unique (k : string) (rs : list TaskList.t) :
  NoDup (TaskList.id <$> rs) -> k ∈ TaskList.id <$> rs ->
  length (filter (fun r => TaskList.id r <> k) rs) = pred (length rs).
Proof.
  induction rs as [|r rs IH]; intros Hnd Hk; [set_solver|].
  rewrite fmap_cons in Hnd, Hk. apply NoDup_cons in Hnd as [Hnin Hnd].
  rewrite filter_cons. case_decide as Hr.
  - apply elem_of_cons in Hk as [Hk|Hk]; [done|].
    simpl. rewrite IH by done. destruct rs; [set_solver|done].
  - assert (TaskList.id r = k) as <-
      by (destruct (decide (TaskList.id r = k)); tauto).
    simpl. f_equal.
    rewrite filter_all; [done|]. apply Forall_forall.
    intros r' Hr' Heq. apply Hnin. rewrite <- Heq. by apply list_elem_of_fmap_2.
Qed.

(** C6: deleting a task.  Clicking the delete button of the row [l],
    with the [deleteDoc] succeeding, removes the document from the store
    and removes from the list exactly the rows with that id: one row when
    the ids shown are distinct. *)
Theorem delete_removes w l o :
  pending w = [] -> l ∈ taskList w -> heap w !! l = Some o ->
  exists w', run fmt user [ClickDelete l; Settle 0 Fulfilled] w = Some w' /\
    shown w' = filter (fun r => TaskList.id r <> TaskList.id o) (shown w) /\
    (NoDup (TaskList.id <$> shown w) -> length (shown w') = pred (length (shown w))) /\
    (forall k, doc_at (db w') k =
       if decide (k = TaskList.id o) then None else doc_at (db w) k) /\
    pending w' = [].
Proof.
  intros Hpend Hin Hl. simpl. rewrite bool_decide_true, Hl by done. simpl.
  unfold handleDelete. rewrite Hpend. simpl.
  eexists. split; [done|].
  assert (Hshown : shown (delete_then (TaskList.id o) (taskList w)
     (set_db (deleteDoc (TaskList.id o) (db w)) (set_pending [] (set_pending
        [ReqDelete (TaskList.id o) (taskList w)] w)))) =
     filter (fun r => TaskList.id r <> TaskList.id o) (shown w)).
  { apply omap_filter_has_id. }
  split; [done|]. split; [|split; [|done]].
  - intros Hnd. rewrite Hshown. apply filter_length_unique; [done|].
    apply list_elem_of_fmap_2. apply list_elem_of_omap. eauto.
  - intros k. apply deleteDoc_doc_at.
Qed.

(** C7: the failure policy.  A request that settles rejected only logs:
    the heap, the list, the edit target, the input and the store stay as
    they were, and the request leaves the set in flight. *)
Theorem rejected_changes_nothing w i r c :
  pending w !! i = Some r ->
  exists msg, handle fmt user (Settle i (Rejected c)) w =
    Some (out (ConsoleLog msg (FirebaseError c)) (set_pending (delete i (pending w)) w)).
Proof. intros Hr. simpl. rewrite Hr. simpl. destruct r; eexists; done. Qed.
End handlers.

(** ** Every request in flight settles *)

Section callbacks.
Context `{DocStoreLaws St}.
Variable fmt : Z -> string.
Variable user : User.t.
Implicit Types w : World St.

Lemma edit_then_pending t snap inp w w' :
  edit_then t snap inp w = JsOk w' -> pending w' = pending w.
Proof.
  unfold edit_then, js_bind, read, js_deref. repeat case_match; intros; simplify_eq; done.
Qed.

(** No callback sends a new request. *)
Lemma settle_pending r o w : pending (settle fmt user r o w) = pending w.
Proof.
  destruct r as [d snap inp|k t snap inp|k snap], o as [|c]; simpl; try done.
  - by destruct (addDoc d (db w)).
  - destruct (updateDoc k inp (db w)) as [s'|]; [|done].
    destruct (edit_then t snap inp (set_db s' w)) eqn:E; [|done].
    by apply edit_then_pending in E.
Qed.

End callbacks.
