(* ===== verification/BoardInv.v ===== *)
(** * Invariants of the reachable worlds of [Board]

    [Inv] gathers what holds of every world the page reaches from a load,
    whatever the order in which the requests settle and whatever their
    outcome: the heap is exactly the locations below [next] and every
    reference the page holds points into it; every object is owned by the
    session's user; the id of every object was issued by the store, and the
    document under it, if any, belongs to the user; two objects never share
    an id, even after one was deleted; every [addDoc] in flight writes the
    user's id.  [reachable_Inv] proves it by induction on [reachable]; the
    step lemmas ([Inv_handle]) go event by event and request by request. *)

From S2P Require Import Prelude Types Store Loader Board.

(** ** Reachability *)
Section reach.
Context `{DocStoreLaws St}.
Variable fmt : Z -> string.
Variable user : User.t.

Definition step (w w' : World St) : Prop := exists ev, handle fmt user ev w = Some w'.

(** The worlds the page can reach from a load of [user]'s rows. *)
Inductive reachable : World St -> Prop :=
  | reachable_init session (s : St) rows t :
      store_wf s ->
      getServerSideProps fmt session s = Props user rows ->
      reachable (init rows s t)
  | reachable_step w w' :
      reachable w -> step w w' -> reachable w'.
End reach.

Section inv.
Context `{DocStoreLaws St}.
Variable fmt : Z -> string.
Variable user : User.t.
Implicit Types w : World St.

Definition heap_owned w : Prop :=
  map_Forall (fun _ o => TaskList.userId o = User.id user) (heap w).

Definition heap_issued w : Prop :=
  map_Forall (fun _ o => TaskList.id o ∈ issued (db w) /\
    forall d, doc_at (db w) (TaskList.id o) = Some d -> Doc.userId d = User.id user)
    (heap w).

Definition heap_ids_inj w : Prop :=
  forall l1 l2 o1 o2, heap w !! l1 = Some o1 -> heap w !! l2 = Some o2 ->
    TaskList.id o1 = TaskList.id o2 -> l1 = l2.

Definition req_owned (r : Request) : Prop :=
  match r with
  | ReqAdd d _ _ => Doc.userId d = User.id user
  | _ => True
  end.

Record Inv w : Prop := {
  inv_wf : world_wf w;
  inv_owned : heap_owned w;
  inv_issued : heap_issued w;
  inv_ids : heap_ids_inj w;
  inv_reqs : Forall req_owned (pending w);
}.

(** ** The initial world *)

Lemma init_Inv session (s : St) rows t :
  store_wf s -> getServerSideProps fmt session s = Props user rows ->
  Inv (init rows s t).
Proof.
  intros Hwf Hload. destruct (loader_props_spec fmt session s user rows Hload)
    as [Hnd Hrows].
  assert (Hin : forall l o, (map_seq 0 rows : gmap loc TaskList.t) !! l = Some o -> o ∈ rows).
  { intros l o. rewrite lookup_map_seq_0. apply list_elem_of_lookup_2. }
  split; simpl.
  - split; [|split]; simpl; [|..|done].
    + intros l. rewrite lookup_map_seq_0. apply lookup_lt_is_Some.
    + intros l. unfold roots. simpl. rewrite app_nil_r, elem_of_seq. lia.
  - intros l o Hl. destruct (Hrows o (Hin l o Hl)) as (d & Hd & ->).
    apply owned_by_Some in Hd as [_ Hu]. done.
  - intros l o Hl. destruct (Hrows o (Hin l o Hl)) as (d & Hd & _).
    apply owned_by_Some in Hd as [Hd Hu]. split; [by eapply doc_at_issued|].
    intros d' Hd'. simpl in Hd'. rewrite Hd in Hd'. injection Hd' as <-. exact Hu.
  - intros l1 l2 o1 o2 H1 H2 Hid. simpl in H1, H2.
    rewrite lookup_map_seq_0 in H1, H2.
    eapply NoDup_lookup; [exact Hnd|rewrite list_lookup_fmap, H1; reflexivity|].
    rewrite list_lookup_fmap, H2. simpl. by rewrite Hid.
  - constructor.
Qed.
(** ** Steps that keep the heap and the store *)

Lemma Inv_same_heap w w' :
  heap w' = heap w -> next w' = next w -> db w' = db w ->
  (forall l, l ∈ roots w' -> l ∈ roots w) -> Forall req_owned (pending w') ->
  Inv w -> Inv w'.
Proof.
  intros Hh Hn Hdb Hroots Hreq [(Hd & Hr & Hs) Ho Hi Hids _].
  split; unfold world_wf, heap_owned, heap_issued, heap_ids_inj in *;
    rewrite ?Hh, ?Hn, ?Hdb; auto.
Qed.

Lemma Inv_ext w w' :
  heap w' = heap w -> next w' = next w -> db w' = db w ->
  taskList w' = taskList w -> taskEdit w' = taskEdit w -> pending w' = pending w ->
  Inv w -> Inv w'.
Proof.
  intros Hh Hn Hdb Hl He Hp HI. apply (Inv_same_heap w); auto.
  - intros l. unfold roots. by rewrite Hl, He, Hp.
  - rewrite Hp. apply HI.
Qed.

Lemma Inv_out o w : Inv w -> Inv (out o w).
Proof. by apply Inv_ext. Qed.

Lemma Inv_set_input s w : Inv w -> Inv (set_input s w).
Proof. by apply Inv_ext. Qed.

Lemma roots_pending_app w ps :
  (forall r l, r ∈ ps -> l ∈ req_locs r -> l ∈ roots w) ->
  forall l, l ∈ roots (set_pending (pending w ++ ps) w) -> l ∈ roots w.
Proof.
  intros Hps l Hl. unfold roots in Hl. simpl in Hl. rewrite fmap_app, join_app in Hl.
  rewrite !elem_of_app in Hl. destruct Hl as [Hl|[Hl|[Hl|Hl]]];
    [unfold roots; set_solver..|].
  apply list_elem_of_join in Hl as (ls & Hl & Hls).
  apply list_elem_of_fmap in Hls as (r & -> & Hr). by apply (Hps r).
Qed.

Lemma roots_taskList w l : l ∈ taskList w -> l ∈ roots w.
Proof. unfold roots. set_solver. Qed.

Lemma Inv_submit w : Inv w -> Inv (match handleAddTask user w with
                                   | JsOk w' => w'
                                   | JsThrow e => out (ConsoleLog "Uncaught (in promise)" e) w
                                   end).
Proof.
  intros HI. unfold handleAddTask.
  case_decide; [by apply Inv_out|].
  destruct (taskEdit w) as [t|] eqn:Ht.
  - unfold read. destruct (heap w !! t) as [o|]; simpl; [|by apply Inv_out].
    apply (Inv_same_heap w); auto.
    + apply roots_pending_app. intros r l ->%list_elem_of_singleton Hl.
      apply elem_of_cons in Hl as [->|Hl]; [|by apply roots_taskList].
      unfold roots. rewrite Ht. set_solver.
    + simpl. apply Forall_app. split; [apply HI|by repeat constructor].
  - simpl. apply (Inv_same_heap w); auto.
    + apply roots_pending_app. intros r l ->%list_elem_of_singleton Hl.
      by apply roots_taskList.
    + simpl. apply Forall_app. split; [apply HI|by repeat constructor].
Qed.
(** ** Settling a request *)

Lemma Inv_add_then w d snap inp k s' :
  Inv w -> Doc.userId d = User.id user -> (forall l, l ∈ snap -> (l < next w)%nat) ->
  addDoc d (db w) = (k, s') ->
  Inv (add_then fmt user k snap inp (set_db s' w)).
Proof.
  intros [(Hd & Hr & Hs) Ho Hi Hids Hreq] Hdu Hsnap Hadd.
  destruct (addDoc_spec d (db w) k s' Hs Hadd) as (Hfresh & Hiss & Hwf' & Hdoc).
  assert (Hold : forall l o, heap w !! l = Some o -> TaskList.id o <> k).
  { intros l o Hl Heq. apply Hfresh. rewrite <- Heq. by apply (Hi l o Hl). }
  split; simpl.
  - split; [|split]; simpl; [|..|done].
    + intros l. rewrite lookup_insert. case_decide; [subst; split; [lia|done]|].
      rewrite Hd. lia.
    + intros l. unfold roots. simpl. rewrite !elem_of_app.
      intros [[Hl|Hl%list_elem_of_singleton]|Hl]; [apply Hsnap in Hl; lia|lia|].
      assert (l ∈ roots w) as Hl' by (unfold roots; set_solver). apply Hr in Hl'. lia.
  - apply map_Forall_insert_2; [done|]. apply Ho.
  - apply map_Forall_insert_2; simpl.
    + rewrite Hiss, Hdoc, decide_True by done. split; [set_solver|]. congruence.
    + intros l o Hl. destruct (Hi l o Hl) as [Hin Hown]. rewrite Hiss, Hdoc.
      rewrite decide_False by (eapply Hold; eauto). set_solver.
  - unfold heap_ids_inj. simpl. intros l1 l2 o1 o2. rewrite !lookup_insert.
    repeat case_decide; intros Hl1 Hl2 Hid; simplify_eq; [done| | |by eapply Hids].
    + exfalso. by apply (Hold l2 o2).
    + exfalso. by apply (Hold l1 o1).
  - done.
Qed.
Lemma Inv_update_db w k inp s' :
  Inv w -> updateDoc k inp (db w) = Some s' -> Inv (set_db s' w).
Proof.
  intros [(Hd & Hr & Hs) Ho Hi Hids Hreq] Hupd. split; try done.
  - split; [done|split; [done|]]. simpl. by eapply updateDoc_wf.
  - intros l o Hl. destruct (Hi l o Hl) as [Hin Hown]. simpl.
    rewrite (updateDoc_issued _ _ _ _ Hupd). split; [done|].
    intros d. rewrite (updateDoc_doc_at _ _ _ _ _ Hupd). case_decide as Hk; [|apply Hown].
    destruct (doc_at (db w) k) as [d0|] eqn:E; [|done]. intros [= <-].
    change (Doc.userId d0 = User.id user). apply Hown. by rewrite Hk.
Qed.

Lemma Inv_delete_db w k : Inv w -> Inv (set_db (deleteDoc k (db w)) w).
Proof.
  intros [(Hd & Hr & Hs) Ho Hi Hids Hreq]. split; try done.
  - split; [done|split; [done|]]. simpl. by apply deleteDoc_wf.
  - intros l o Hl. destruct (Hi l o Hl) as [Hin Hown]. simpl.
    rewrite deleteDoc_issued. split; [done|].
    intros d. rewrite deleteDoc_doc_at. case_decide; [done|apply Hown].
Qed.

(** A list the page installs from a captured array keeps the invariant. *)
Lemma Inv_install w ls :
  Inv w -> (forall l, l ∈ ls -> (l < next w)%nat) -> Inv (set_taskList ls w).
Proof.
  intros [(Hd & Hr & Hs) Ho Hi Hids Hreq] Hls. split; try done.
  split; [done|split; [|done]]. intros l. unfold roots. simpl.
  rewrite elem_of_app. intros [Hl|Hl]; [auto|]. apply Hr. unfold roots. set_solver.
Qed.

Lemma Inv_edit_then w t snap inp w' :
  Inv w -> (forall l, l ∈ snap -> (l < next w)%nat) ->
  edit_then t snap inp w = JsOk w' -> Inv w'.
Proof.
  intros HI Hsnap. unfold edit_then, read.
  destruct (heap w !! t) as [target|]; [|done]. simpl.
  destruct (js_at snap _) as [l|] eqn:Hat; [|done]. simpl.
  destruct (heap w !! l) as [o|] eqn:Hl; [|done]. simpl. intros [= <-].
  apply Inv_set_input.
  destruct HI as [(Hd & Hr & Hs) Ho Hi Hids Hreq].
  split; unfold heap_owned, heap_issued, heap_ids_inj; simpl.
  - split; [|split]; simpl; [|..|done].
    + intros l'. rewrite lookup_insert. case_decide; [subst|apply Hd].
      split; [intros _; apply Hd; by eexists|done].
    + intros l'. unfold roots. simpl. rewrite elem_of_app.
      intros [Hl'|Hl']; [auto|]. apply Hr. unfold roots. set_solver.
  - apply map_Forall_insert_2; [apply (Ho l o Hl)|done].
  - apply map_Forall_insert_2; [apply (Hi l o Hl)|done].
  - intros l1 l2 o1 o2. rewrite !lookup_insert.
    repeat case_decide; intros Hl1 Hl2 Hid; simplify_eq; [done|..|by eapply Hids];
      simpl in Hid; by eapply Hids.
  - done.
Qed.

Lemma Inv_settle_req w r o :
  Inv w -> req_owned r -> (forall l, l ∈ req_locs r -> (l < next w)%nat) ->
  Inv (settle fmt user r o w).
Proof.
  intros HI Hown Hlocs.
  destruct r as [d snap inp|k t snap inp|k snap]; simpl in Hlocs, Hown;
    destruct o as [|c]; simpl; try by apply Inv_out.
  - destruct (addDoc d (db w)) as [k s'] eqn:Hadd. by eapply Inv_add_then.
  - destruct (updateDoc k inp (db w)) as [s'|] eqn:Hupd; [|by apply Inv_out].
    pose proof (Inv_update_db w k inp s' HI Hupd) as HI1.
    destruct (edit_then t snap inp (set_db s' w)) as [w2|e] eqn:He; [|by apply Inv_out].
    eapply Inv_edit_then; [exact HI1| |exact He]. intros l Hl. apply Hlocs. set_solver.
  - apply Inv_install; [by apply Inv_delete_db|].
    intros l [_ Hl]%list_elem_of_filter. by apply Hlocs.
Qed.

Lemma Inv_settle w i r o :
  Inv w -> pending w !! i = Some r ->
  Inv (settle fmt user r o (set_pending (delete i (pending w)) w)).
Proof.
  intros HI Hr. apply Inv_settle_req.
  - apply (Inv_same_heap w); auto.
    + intros l. unfold roots. simpl. rewrite !elem_of_app.
      intros [Hl|[Hl|Hl]]; [tauto|tauto|]. right; right.
      apply list_elem_of_join in Hl as (ls & Hl & Hls).
      apply list_elem_of_join. exists ls. split; [done|].
      apply list_elem_of_fmap in Hls as (r' & -> & Hr').
      apply list_elem_of_fmap_2. by eapply list_elem_of_delete_inv.
    + simpl. apply Forall_delete, HI.
  - eapply Forall_lookup_1; [apply HI|done].
  - intros l Hl. apply (inv_wf _ HI). by eapply req_locs_roots.
Qed.

(** Every event the page offers keeps the invariant. *)
Lemma Inv_handle ev w w' : Inv w -> handle fmt user ev w = Some w' -> Inv w'.
Proof.
  intros HI. destruct ev as [s| |l| |l|i o|dt]; simpl.
  - intros [= <-]. by apply Inv_set_input.
  - intros Hs. pose proof (Inv_submit w HI) as Hw.
    destruct (handleAddTask user w); by simplify_eq.
  - destruct (User.vip user && _) eqn:Hb; [|done].
    apply andb_true_iff in Hb as [_ Hl%bool_decide_eq_true].
    destruct (heap w !! l) as [o|]; [|done]. intros [= <-].
    apply Inv_set_input. apply (Inv_same_heap w); auto; [|apply HI].
    intros l'. unfold roots. simpl. set_solver.
  - case_decide; [done|]. intros [= <-]. apply Inv_set_input.
    apply (Inv_same_heap w); auto; [|apply HI]. intros l'. unfold roots. simpl. set_solver.
  - case_bool_decide as Hl; [|done]. destruct (heap w !! l) as [o|]; [|done].
    intros [= <-]. unfold handleDelete. apply (Inv_same_heap w); auto.
    + apply roots_pending_app. intros r l' ->%list_elem_of_singleton Hl'.
      by apply roots_taskList.
    + simpl. apply Forall_app. split; [apply HI|by repeat constructor].
  - destruct (pending w !! i) as [r|] eqn:Hr; [|done]. intros [= <-].
    by apply Inv_settle.
  - case_decide; [|done]. intros [= <-]. by apply (Inv_ext w).
Qed.

(** Every reachable world satisfies the invariant. *)
Lemma reachable_Inv w : reachable fmt user w -> Inv w.
Proof.
  induction 1 as [session s rows t Hs Hload|w w' _ IH [ev Hev]].
  - by eapply init_Inv.
  - by eapply Inv_handle.
Qed.
End inv.

(** ** Distinct references in every array the page holds *)
Section nodup.
Context `{DocStoreLaws St}.
Variable fmt : Z -> string.
Variable user : User.t.
Implicit Types w : World St.

Definition req_snap (r : Request) : list loc :=
  match r with
  | ReqAdd _ snap _ | ReqUpdate _ _ snap _ | ReqDelete _ snap => snap
  end.

Definition lists_nodup w : Prop :=
  NoDup (taskList w) /\ Forall (fun r => NoDup (req_snap r)) (pending w).

Lemma lists_nodup_settle w r o :
  lists_nodup w -> NoDup (req_snap r) -> (forall l, l ∈ req_snap r -> (l < next w)%nat) ->
  lists_nodup (settle fmt user r o w).
Proof.
  intros [Hl Hp] Hr Hlt.
  destruct r as [d snap inp|k t snap inp|k snap]; destruct o as [|c]; simpl in *;
    try done.
  - destruct (addDoc d (db w)) as [k s']. split; [|done]. simpl.
    apply NoDup_app. split; [done|]. split; [|apply NoDup_singleton].
    intros x Hx ->%list_elem_of_singleton. specialize (Hlt _ Hx). simpl in Hlt. lia.
  - destruct (updateDoc k inp (db w)) as [s'|]; [|done].
    destruct (edit_then t snap inp (set_db s' w)) as [w2|e] eqn:He; [|done].
    apply edit_then_ok in He as (l & o & _ & _ & ->). by split.
  - split; [|done]. simpl. by apply NoDup_filter.
Qed.

Lemma lists_nodup_handle ev w w' :
  Inv user w -> lists_nodup w -> handle fmt user ev w = Some w' -> lists_nodup w'.
Proof.
  intros HI [Hl Hp]. destruct ev as [s| |l| |l|i o|dt]; simpl.
  - by intros [= <-].
  - unfold handleAddTask. case_decide; [by intros [= <-]|].
    destruct (taskEdit w); [unfold read; destruct (heap w !! _)|]; simpl;
      intros [= <-]; split; try done; simpl; apply Forall_app; by repeat constructor.
  - destruct (_ && _); [|done]. destruct (heap w !! l); [|done]. by intros [= <-].
  - case_decide; [done|]. by intros [= <-].
  - case_bool_decide; [|done]. destruct (heap w !! l); [|done]. intros [= <-].
    split; [done|]. simpl. apply Forall_app. by repeat constructor.
  - destruct (pending w !! i) as [r|] eqn:Hr; [|done]. intros [= <-].
    apply lists_nodup_settle.
    + split; [done|]. by apply Forall_delete.
    + exact (Forall_lookup_1 _ _ _ _ Hp Hr).
    + intros l Hl'. apply (inv_wf _ _ HI). eapply req_locs_roots; [done|].
      destruct r; simpl in *; set_solver.
  - case_decide; [|done]. by intros [= <-].
Qed.
End nodup.

(** ** What every reachable world satisfies *)
Section claims.
Context `{DocStoreLaws St}.
Variable fmt : Z -> string.
Variable user : User.t.
Implicit Types w : World St.

Lemma reachable_nodup w : reachable fmt user w -> lists_nodup w.
Proof.
  induction 1 as [session s rows t Hs Hload|w w' Hreach IH [ev Hev]].
  - split; [apply NoDup_seq|constructor].
  - eapply lists_nodup_handle; [|done|done]. by apply (reachable_Inv fmt).
Qed.

Lemma NoDup_ids_omap (h : gmap loc TaskList.t) (ls : list loc) :
  NoDup ls ->
  (forall l1 l2 o1 o2, h !! l1 = Some o1 -> h !! l2 = Some o2 ->
     TaskList.id o1 = TaskList.id o2 -> l1 = l2) ->
  NoDup (TaskList.id <$> omap (fun x => h !! x) ls).
Proof.
  intros Hnd Hinj. induction Hnd as [|x ls Hx Hnd IH]; [constructor|].
  rewrite omap_cons_eq. destruct (h !! x) as [o|] eqn:Ho; [|done].
  rewrite fmap_cons. constructor; [|done].
  intros (o' & Hid & Hin)%list_elem_of_fmap.
  apply list_elem_of_omap in Hin as (y & Hy & Hoy).
  assert (x = y) as <- by (eapply Hinj; eauto). done.
Qed.

(** C8: ownership.  In every world the page reaches, whatever the order
    and outcome of its requests, each row shown belongs to the session's
    user, and so does the document stored under the row's id, if any. *)
Theorem reachable_rows_owned w :
  reachable fmt user w ->
  forall r, r ∈ shown w ->
    TaskList.userId r = User.id user /\
    forall d, doc_at (db w) (TaskList.id r) = Some d -> Doc.userId d = User.id user.
Proof.
  intros Hreach r Hr. destruct (reachable_Inv fmt user w Hreach) as [_ Ho Hi _ _].
  apply list_elem_of_omap in Hr as (l & _ & Hl).
  split; [by apply (Ho l r Hl)|apply (Hi l r Hl)].
Qed.

(** C12: ids are never reused.  Two objects the page ever created carry
    different ids, even when one of them was deleted long ago; every id was
    issued by the store; and the rows shown have distinct ids, under any
    interleaving of the requests. *)
Theorem reachable_ids_never_reused w :
  reachable fmt user w ->
  (forall l1 l2 o1 o2, heap w !! l1 = Some o1 -> heap w !! l2 = Some o2 ->
     TaskList.id o1 = TaskList.id o2 -> l1 = l2) /\
  (forall l o, heap w !! l = Some o -> TaskList.id o ∈ issued (db w)) /\
  NoDup (TaskList.id <$> shown w).
Proof.
  intros Hreach. destruct (reachable_Inv fmt user w Hreach) as [_ _ Hi Hids _].
  split; [done|split].
  - intros l o Hl. apply (Hi l o Hl).
  - apply NoDup_ids_omap; [apply (reachable_nodup w Hreach)|done].
Qed.
Lemma settle_taskEdit w r o :
  taskEdit (settle fmt user r o w) = taskEdit w \/ taskEdit (settle fmt user r o w) = None.
Proof.
  destruct r as [d snap inp|k t snap inp|k snap]; destruct o as [|c]; simpl; auto.
  - destruct (addDoc d (db w)); auto.
  - destruct (updateDoc k inp (db w)) as [s'|]; [|auto].
    destruct (edit_then t snap inp (set_db s' w)) as [w2|e] eqn:He; [|auto].
    apply edit_then_ok in He as (l & o & _ & _ & ->). auto.
Qed.

(** C13: the supporter guard.  When the session's user is not a
    supporter, the edit button is never rendered and no reachable world
    is in edit mode. *)
Theorem non_vip_never_edits w :
  reachable fmt user w -> User.vip user = false -> taskEdit w = None.
Proof.
  intros Hreach Hvip. induction Hreach as [session s rows t Hs Hload|w w' _ IH [ev Hev]];
    [done|].
  destruct ev as [s| |l| |l|i o|dt]; simpl in Hev.
  - by injection Hev as <-.
  - unfold handleAddTask in Hev. case_decide; [by injection Hev as <-|].
    rewrite IH in Hev. by injection Hev as <-.
  - by rewrite Hvip in Hev.
  - by rewrite decide_True in Hev.
  - case_bool_decide; [|done]. destruct (heap w !! l); [|done]. by injection Hev as <-.
  - destruct (pending w !! i) as [r|]; [|done]. injection Hev as <-.
    by destruct (settle_taskEdit (set_pending (delete i (pending w)) w) r o) as [->| ->].
  - case_decide; [|done]. by injection Hev as <-.
Qed.

(** The heap [h'] keeps every object of [h], with at most its text changed. *)
Definition heap_extends (h h' : gmap loc TaskList.t) : Prop :=
  forall l o, h !! l = Some o -> exists s, h' !! l = Some (TaskList.set_task s o).

Lemma heap_extends_refl h : heap_extends h h.
Proof. intros l o Hl. exists (TaskList.task o). by rewrite TaskList.set_task_same. Qed.

Lemma settle_heap_extends w r o :
  heap w !! next w = None -> heap_extends (heap w) (heap (settle fmt user r o w)).
Proof.
  intros Hfree.
  destruct r as [d snap inp|k t snap inp|k snap]; destruct o as [|c]; simpl;
    try apply heap_extends_refl.
  - destruct (addDoc d (db w)). intros l o Hl. exists (TaskList.task o). simpl.
    rewrite lookup_insert_ne, TaskList.set_task_same; [done|].
    intros Heq. simpl in Heq. subst l. rewrite Hfree in Hl. done.
  - destruct (updateDoc k inp (db w)) as [s'|]; [|apply heap_extends_refl].
    destruct (edit_then t snap inp (set_db s' w)) as [w2|e] eqn:He;
      [|apply heap_extends_refl].
    apply edit_then_ok in He as (l' & o' & _ & Hl' & ->). simpl in *.
    intros l o Hl. rewrite lookup_insert. case_decide; [subst|].
    + rewrite Hl in Hl'. injection Hl' as <-. by exists inp.
    + exists (TaskList.task o). by rewrite TaskList.set_task_same.
Qed.

(** C11: immutable fields.  In every step of a reachable world, each
    object of the heap survives with its id, creation date, formatted
    date, owner and name unchanged: only [task] is ever written. *)
Theorem step_keeps_fields w w' :
  reachable fmt user w -> step fmt user w w' ->
  forall l o, heap w !! l = Some o ->
    exists s, heap w' !! l = Some (TaskList.set_task s o).
Proof.
  intros Hreach [ev Hev]. pose proof (inv_wf _ _ (reachable_Inv fmt user w Hreach)) as Hwf.
  destruct ev as [s| |l| |l|i o|dt]; simpl in Hev.
  - injection Hev as <-. apply heap_extends_refl.
  - unfold handleAddTask in Hev. case_decide; [injection Hev as <-; apply heap_extends_refl|].
    destruct (taskEdit w); [unfold read in Hev; destruct (heap w !! _)|]; simpl in Hev;
      injection Hev as <-; apply heap_extends_refl.
  - destruct (_ && _); [|done]. destruct (heap w !! l); [|done].
    injection Hev as <-. apply heap_extends_refl.
  - case_decide; [done|]. injection Hev as <-. apply heap_extends_refl.
  - case_bool_decide; [|done]. destruct (heap w !! l); [|done].
    injection Hev as <-. apply heap_extends_refl.
  - destruct (pending w !! i) as [r|]; [|done]. injection Hev as <-.
    exact (settle_heap_extends (set_pending (delete i (pending w)) w) r o
             (wf_next_free w Hwf)).
  - case_decide; [|done]. injection Hev as <-. apply heap_extends_refl.
Qed.
End claims.
