(* ===== verification/BoardRefine.v ===== *)
(** * Refinement: the page shows the user's collection

    The abstract state of the board is a partial map from an id to a text:
    the documents of the collection that belong to the user
    ([abs_store]).  The page refines it when, for every id, the first row
    shown with that id carries the text the store holds ([consistent]).

    The refinement holds for the sequential executions ([sstep]): each event
    that sends a request is followed by the settling of that request, with
    either outcome, before the next event.  [Races] shows that it fails
    when the requests interleave. *)

From S2P Require Import Prelude Types Store Loader Board BoardInv.

(** The text of the first row with id [k]: what the page shows for [k]. *)
Fixpoint row_text (rs : list TaskList.t) (k : string) : option string :=
  match rs with
  | [] => None
  | r :: rs' => if decide (TaskList.id r = k) then Some (TaskList.task r) else row_text rs' k
  end.

Section row_text.
Implicit Types rs : list TaskList.t.

Lemma row_text_None rs k : k ∉ TaskList.id <$> rs -> row_text rs k = None.
Proof.
  induction rs as [|r rs IH]; intros Hk; [done|]. simpl.
  rewrite fmap_cons in Hk. rewrite decide_False by set_solver. apply IH. set_solver.
Qed.

Lemma row_text_snoc rs o k :
  row_text (rs ++ [o]) k =
    match row_text rs k with
    | Some x => Some x
    | None => if decide (TaskList.id o = k) then Some (TaskList.task o) else None
    end.
Proof. induction rs as [|r rs IH]; simpl; [done|]. destruct (decide (TaskList.id r = k)); [done|exact IH]. Qed.

Lemma row_text_filter rs k0 k :
  row_text (filter (fun r => TaskList.id r <> k0) rs) k =
    if decide (k = k0) then None else row_text rs k.
Proof.
  induction rs as [|r rs IH]; simpl; [by case_decide|].
  rewrite filter_cons. repeat case_decide; simpl; subst; try congruence;
    rewrite ?decide_True, ?decide_False by congruence; congruence.
Qed.

Lemma row_text_set_task rs k0 s k :
  row_text ((fun r => if decide (TaskList.id r = k0) then TaskList.set_task s r else r)
            <$> rs) k =
    if decide (k = k0) then (fun _ => s) <$> row_text rs k else row_text rs k.
Proof.
  induction rs as [|r rs IH]; [simpl; by case_decide|].
  rewrite fmap_cons. cbn [row_text]. rewrite IH. destruct (decide (TaskList.id r = k0)) as [Hr|Hr]; simpl;
    repeat case_decide; subst; simpl in *; congruence.
Qed.

Lemma row_text_None_inv rs k :
  row_text rs k = None -> forall r, r ∈ rs -> TaskList.id r <> k.
Proof.
  induction rs as [|r rs IH]; simpl; [set_solver|]. case_decide; [done|].
  intros Hn r' [->|Hr']%elem_of_cons; [done|]. by apply IH.
Qed.

Lemma row_text_Some rs k x :
  row_text rs k = Some x -> exists r, r ∈ rs /\ TaskList.id r = k /\ TaskList.task r = x.
Proof.
  induction rs as [|r rs IH]; simpl; [done|]. case_decide.
  - intros [= <-]. exists r. split; [set_solver|done].
  - intros (r' & ? & ? & ?)%IH. exists r'. split; [set_solver|done].
Qed.
End row_text.

Section refine.
Context `{DocStoreLaws St}.
Variable fmt : Z -> string.
Variable user : User.t.
Implicit Types w : World St.

(** The abstract board: the text of each of the user's documents. *)
Definition abs_store (s : St) (k : string) : option string :=
  Doc.task <$> owned_by (User.id user) s k.

Definition consistent w : Prop :=
  forall k, row_text (shown w) k = abs_store (db w) k.

(** One sequential step: an event that sends no request, or an event
    that sends one request followed by its settling. *)
Inductive sstep : World St -> World St -> Prop :=
  | sstep_local ev w w' :
      pending w = [] -> handle fmt user ev w = Some w' -> pending w' = [] ->
      sstep w w'
  | sstep_remote ev o r w w1 w' :
      pending w = [] -> handle fmt user ev w = Some w1 -> pending w1 = [r] ->
      handle fmt user (Settle 0 o) w1 = Some w' -> sstep w w'.

Lemma shown_init rows (s : St) t : shown (init rows s t) = rows.
Proof.
  unfold shown, init. simpl.
  erewrite omap_ext_elem; [|intros i _; apply lookup_map_seq_0].
  rewrite omap_lookup_seq by lia. by rewrite drop_0, firstn_all.
Qed.

Lemma init_consistent session (s : St) rows t :
  getServerSideProps fmt session s = Props user rows ->
  consistent (init rows s t).
Proof.
  intros Hload k. rewrite shown_init. unfold abs_store. simpl.
  destruct (loader_props_spec fmt session s user rows Hload) as [Hnd Hrows].
  destruct (owned_by (User.id user) s k) as [d|] eqn:Hd; simpl.
  - pose proof (loader_props_complete fmt session s user rows k d Hload Hd) as Hin.
    destruct (row_text rows k) as [x|] eqn:Hx.
    + apply row_text_Some in Hx as (r & Hr & Hid & <-).
      destruct (Hrows r Hr) as (d' & Hd' & ->). simpl in *. subst k.
      rewrite Hd in Hd'. by injection Hd' as ->.
    + exfalso. by apply (row_text_None_inv rows k Hx _ Hin).
  - destruct (row_text rows k) as [x|] eqn:Hx; [|done].
    apply row_text_Some in Hx as (r & Hr & Hid & _).
    destruct (Hrows r Hr) as (d' & Hd' & _). congruence.
Qed.
Lemma reachable_shown_NoDup w :
  reachable fmt user w -> NoDup (TaskList.id <$> shown w).
Proof.
  intros Hreach. apply NoDup_ids_omap; [apply (reachable_nodup fmt user w Hreach)|].
  apply (inv_ids _ _ (reachable_Inv fmt user w Hreach)).
Qed.

(** An id no object of the heap carries is shown in no row. *)
Lemma row_text_fresh w k :
  Inv user w -> k ∉ issued (db w) -> row_text (shown w) k = None.
Proof.
  intros HI Hk. apply row_text_None.
  intros (r & Hid & (l & _ & Hl)%list_elem_of_omap)%list_elem_of_fmap.
  apply Hk. rewrite Hid. apply (inv_issued _ _ HI l r Hl).
Qed.

(** The add request, settled on the array [taskList w] it captured: the
    document [d] sent for the text [inp]. *)
Lemma consistent_add w d inp o :
  Inv user w -> consistent w -> Doc.task d = inp -> Doc.userId d = User.id user ->
  consistent (settle fmt user (ReqAdd d (taskList w) inp) o w).
Proof.
  intros HI Hc Htask Huid. destruct o as [|c]; simpl; [|done].
  destruct (addDoc d (db w)) as [k s'] eqn:Hadd. simpl.
  pose proof (inv_wf _ _ HI) as Hwf. destruct Hwf as (Hd & Hr & Hs).
  destruct (addDoc_spec _ _ _ _ Hs Hadd) as (Hfresh & _ & _ & Hdoc).
  intros k'. unfold shown. simpl.
  rewrite shown_alloc_snoc; [|exact (inv_wf _ _ HI)|].
  2: { intros x Hx. by apply (wf_taskList w x (inv_wf _ _ HI)). }
  rewrite row_text_snoc. unfold abs_store, owned_by. simpl. rewrite Hdoc.
  destruct (decide (k' = k)) as [->|Hne].
  - fold (shown w). rewrite (row_text_fresh w k HI Hfresh). simpl.
    rewrite !decide_True by done. simpl. by rewrite Htask.
  - fold (shown w). rewrite (Hc k').
    unfold abs_store, owned_by.
    destruct (doc_at (db w) k'); simpl; repeat case_decide; simpl; congruence.
Qed.

(** The delete request, settled on the array it captured. *)
Lemma consistent_delete w k r :
  consistent w -> consistent (settle fmt user (ReqDelete k (taskList w)) r w).
Proof.
  intros Hc. destruct r as [|c]; simpl; [|done].
  intros k'. unfold shown, delete_then, has_id. simpl.
  rewrite omap_filter_has_id. fold (shown w). rewrite row_text_filter.
  unfold abs_store. simpl. rewrite deleteDoc_owned.
  case_decide; [done|]. apply Hc.
Qed.

(** The update request, settled on the array it captured.  In a
    consistent world the document under edit is shown, so [findIndex]
    finds its row. *)
Lemma consistent_update w t ot inp o :
  Inv user w -> consistent w -> NoDup (TaskList.id <$> shown w) -> heap w !! t = Some ot ->
  consistent (settle fmt user (ReqUpdate (TaskList.id ot) t (taskList w) inp) o w).
Proof.
  intros HI Hc Hnd Ht. destruct o as [|c]; simpl; [|done].
  destruct (updateDoc (TaskList.id ot) inp (db w)) as [s'|] eqn:Hupd; [|done].
  destruct (doc_at (db w) (TaskList.id ot)) as [dd|] eqn:Hdd;
    [|apply (updateDoc_None _ inp) in Hdd; congruence].
  assert (Hown : owned_by (User.id user) (db w) (TaskList.id ot) = Some dd).
  { apply owned_by_Some. split; [done|]. by apply (inv_issued _ _ HI t ot Ht). }
  assert (Hshow := Hc (TaskList.id ot)). unfold abs_store in Hshow.
  rewrite Hown in Hshow. simpl in Hshow.
  apply row_text_Some in Hshow as (r0 & Hr0 & Hid0 & _).
  apply list_elem_of_omap in Hr0 as (l0 & Hl0 & Hh0).
  pose proof (NoDup_ids_unique (heap w) (taskList w) Hnd) as Huniq.
  unfold edit_then, read. simpl. rewrite Ht. simpl.
  rewrite <- Hid0.
  rewrite (findIndex_target (set_db s' w) l0 r0); [|done..].
  simpl. rewrite Hh0. simpl. intros k.
  unfold shown. simpl. rewrite (omap_set_task (heap w) l0 r0 inp); [|done..].
  fold (shown w). rewrite row_text_set_task.
  unfold abs_store. simpl. rewrite (updateDoc_owned _ _ _ _ _ k Hupd).
  rewrite Hid0. case_decide; [subst k|apply Hc].
  rewrite Hc. unfold abs_store. rewrite Hown. done.
Qed.

(** An event that sends no request changes neither the rows nor the store. *)
Lemma local_event_same ev w w' :
  pending w = [] -> handle fmt user ev w = Some w' -> pending w' = [] ->
  shown w' = shown w /\ db w' = db w.
Proof.
  intros Hp. destruct ev as [s| |l| |l|i o|dt]; simpl.
  - by intros [= <-].
  - unfold handleAddTask. case_decide; [by intros [= <-]|].
    destruct (taskEdit w); [unfold read; destruct (heap w !! _)|]; simpl;
      intros [= <-]; simpl; rewrite ?Hp; done.
  - destruct (_ && _); [|done]. destruct (heap w !! l); [|done]. by intros [= <-].
  - case_decide; [done|]. by intros [= <-].
  - case_bool_decide; [|done]. destruct (heap w !! l); [|done].
    intros [= <-]. simpl. by rewrite Hp.
  - by rewrite Hp.
  - case_decide; [|done]. by intros [= <-].
Qed.

(** An event that sends one request: a submit without edit target (an
    [addDoc]), a submit with one (an [updateDoc]), or a delete. *)
Lemma remote_event_cases ev w w1 r :
  pending w = [] -> handle fmt user ev w = Some w1 -> pending w1 = [r] ->
  w1 = set_pending [r] w /\
  ((taskEdit w = None /\ r = ReqAdd (new_doc user w) (taskList w) (input w)) \/
   (exists t ot, heap w !! t = Some ot /\
      r = ReqUpdate (TaskList.id ot) t (taskList w) (input w)) \/
   (exists l o, heap w !! l = Some o /\ r = ReqDelete (TaskList.id o) (taskList w))).
Proof.
  intros Hp. destruct ev as [s| |l| |l|i o|dt]; simpl.
  - intros [= <-]. simpl. congruence.
  - unfold handleAddTask. case_decide; [intros [= <-]; simpl; congruence|].
    destruct (taskEdit w) as [t|] eqn:Ht.
    + unfold read. destruct (heap w !! t) as [ot|] eqn:Hot; simpl; intros [= <-]; simpl;
        [|rewrite Hp; discriminate].
      rewrite Hp. simpl. intros [= <-]. split; [done|]. right; left.
      by exists t, ot.
    + simpl. intros [= <-]. simpl. rewrite Hp. simpl. intros [= <-].
      split; [done|]. by left.
  - destruct (_ && _); [|done]. destruct (heap w !! l); [|done].
    intros [= <-]. simpl. congruence.
  - case_decide; [done|]. intros [= <-]. simpl. congruence.
  - case_bool_decide; [|done]. destruct (heap w !! l) as [o|] eqn:Hl; [|done].
    intros [= <-]. simpl. rewrite Hp. simpl. intros [= <-].
    split; [unfold handleDelete; by rewrite Hp|]. right; right. by exists l, o.
  - by rewrite Hp.
  - case_decide; [|done]. intros [= <-]. simpl. congruence.
Qed.

Lemma sstep_preserves w w' :
  reachable fmt user w -> consistent w -> sstep w w' ->
  consistent w' /\ reachable fmt user w'.
Proof.
  intros Hreach Hc Hs. destruct Hs as [ev w w' Hp Hev Hp'|ev o r w w1 w' Hp Hev Hp1 Hset].
  - destruct (local_event_same ev w w' Hp Hev Hp') as [Hsh Hdb].
    split; [|by econstructor; [|exists ev]].
    intros k. rewrite Hsh, Hdb. apply Hc.
  - split; [|econstructor; [econstructor; [done|by exists ev]|by exists (Settle 0 o)]].
    pose proof (reachable_Inv fmt user w Hreach) as HI.
    pose proof (reachable_shown_NoDup w Hreach) as Hnd.
    destruct (remote_event_cases ev w w1 r Hp Hev Hp1) as [-> Hcases].
    simpl in Hset. injection Hset as <-. simpl.
    assert (HI0 : Inv user (set_pending [] w)).
    { apply (Inv_ext user w); try done. }
    destruct Hcases as [[Hedit ->]|[(t & ot & Ht & ->)|(l & o' & Hl & ->)]].
    + by apply (consistent_add (set_pending [] w)).
    + by apply (consistent_update (set_pending [] w)).
    + by apply (consistent_delete (set_pending [] w)).
Qed.

(** C1: the page refines the collection.  From a load of the user's page,
    along any sequential execution (every request settles, fulfilled or
    rejected, before the next event), the page shows for every id exactly
    the text of the user's document with that id, and nothing for an id
    the user has no document under. *)
Theorem sequential_refines session (s : St) rows t w :
  store_wf s -> getServerSideProps fmt session s = Props user rows ->
  rtc sstep (init rows s t) w ->
  forall k, row_text (shown w) k = Doc.task <$> owned_by (User.id user) (db w) k.
Proof.
  intros Hs Hload Hrtc.
  cut (consistent w /\ reachable fmt user w); [intros [Hc _]; exact Hc|].
  revert w Hrtc. apply (rtc_ind_r (fun w => consistent w /\ reachable fmt user w)).
  - split; [by eapply init_consistent|by econstructor].
  - intros w2 w3 _ Hstep [Hc Hr]. by apply (sstep_preserves w2).
Qed.
End refine.

(** ** One request in flight

    The user may type, enter or leave edit mode and let time pass while a
    request is in flight; only a second request waits until the first one
    has settled. *)
Section one_in_flight.
Context `{DocStoreLaws St}.
Variable fmt : Z -> string.
Variable user : User.t.
Implicit Types w : World St.

(** The request in flight captured the current array, and what it sends
    is what the page will show. *)
Definition req_ok w (r : Request) : Prop :=
  match r with
  | ReqAdd d snap inp => snap = taskList w /\ Doc.task d = inp /\ Doc.userId d = User.id user
  | ReqUpdate k t snap _ =>
      snap = taskList w /\ exists ot, heap w !! t = Some ot /\ TaskList.id ot = k
  | ReqDelete _ snap => snap = taskList w
  end.

Definition one_in_flight w : Prop :=
  match pending w with [] => True | [r] => req_ok w r | _ => False end.

Inductive ostep : World St -> World St -> Prop :=
  | ostep_event ev w w' :
      (forall i o, ev <> Settle i o) -> (pending w = [] \/ pending w' = pending w) ->
      handle fmt user ev w = Some w' -> ostep w w'
  | ostep_settle o w w' : handle fmt user (Settle 0 o) w = Some w' -> ostep w w'.

Lemma app_singleton_neq {A} (l : list A) x : l ++ [x] <> l.
Proof. intros E. apply (f_equal length) in E. rewrite length_app in E. simpl in E. lia. Qed.

(** An event that sends nothing leaves the heap, the list and the store
    as they were. *)
Lemma nosend_event_same ev w w' :
  (forall i o, ev <> Settle i o) -> handle fmt user ev w = Some w' -> pending w' = pending w ->
  heap w' = heap w /\ taskList w' = taskList w /\ db w' = db w.
Proof.
  intros Hns. destruct ev as [s| |l| |l|i o|dt]; simpl.
  - by intros [= <-].
  - unfold handleAddTask. case_decide; [by intros [= <-]|].
    destruct (taskEdit w) as [t|]; [unfold read; destruct (heap w !! t)|]; simpl;
      intros [= <-]; simpl; try done; intros E; by apply app_singleton_neq in E.
  - destruct (_ && _); [|done]. destruct (heap w !! l); [|done]. by intros [= <-].
  - case_decide; [done|]. by intros [= <-].
  - case_bool_decide; [|done]. destruct (heap w !! l); [|done].
    intros [= <-]. simpl. intros E. by apply app_singleton_neq in E.
  - by destruct (Hns i o).
  - case_decide; [|done]. by intros [= <-].
Qed.

(** From an empty set, an event sends at most one request. *)
Lemma send_from_empty ev w w' :
  (forall i o, ev <> Settle i o) -> pending w = [] -> handle fmt user ev w = Some w' ->
  pending w' = [] \/ exists r, pending w' = [r].
Proof.
  intros Hns Hp. destruct ev as [s| |l| |l|i o|dt]; simpl.
  - intros [= <-]. by left.
  - unfold handleAddTask. case_decide; [intros [= <-]; by left|].
    destruct (taskEdit w) as [t|]; [unfold read; destruct (heap w !! t)|]; simpl;
      intros [= <-]; simpl; rewrite ?Hp; eauto.
  - destruct (_ && _); [|done]. destruct (heap w !! l); [|done]. intros [= <-]. by left.
  - case_decide; [done|]. intros [= <-]. by left.
  - case_bool_decide; [|done]. destruct (heap w !! l); [|done].
    intros [= <-]. simpl. rewrite Hp. eauto.
  - by destruct (Hns i o).
  - case_decide; [|done]. intros [= <-]. by left.
Qed.

Lemma consistent_same_heap w w' :
  heap w' = heap w -> taskList w' = taskList w -> db w' = db w ->
  consistent user w -> consistent user w'.
Proof. intros Hh Hl Hdb Hc k. unfold shown. rewrite Hh, Hl, Hdb. apply Hc. Qed.

Lemma ostep_preserves w w' :
  reachable fmt user w -> consistent user w -> one_in_flight w -> ostep w w' ->
  consistent user w' /\ one_in_flight w' /\ reachable fmt user w'.
Proof.
  intros Hreach Hc Hof Hs.
  assert (Hr' : forall ev, handle fmt user ev w = Some w' -> reachable fmt user w').
  { intros ev Hev. econstructor; [done|by exists ev]. }
  pose proof (reachable_Inv fmt user w Hreach) as HI.
  destruct Hs as [ev w w' Hns [Hp|Hsame] Hev|o w w' Hset].
  - destruct (send_from_empty ev w w' Hns Hp Hev) as [Hp'|[r Hp']].
    + destruct (local_event_same fmt user ev w w' Hp Hev Hp') as [Hsh Hdb].
      split; [intros k; rewrite Hsh, Hdb; apply Hc|]. split; [|by eapply Hr'].
      unfold one_in_flight. by rewrite Hp'.
    + destruct (remote_event_cases fmt user ev w w' r Hp Hev Hp') as [Hw Hcases].
      split; [|split; [|by eapply Hr']].
      { rewrite Hw. exact Hc. }
      unfold one_in_flight. rewrite Hp'. rewrite Hw.
      destruct Hcases as [[_ ->]|[(t & ot & Ht & ->)|(l & o & Hl & ->)]]; simpl; eauto.
  - destruct (nosend_event_same ev w w' Hns Hev Hsame) as (Hh & Hl & Hdb).
    split; [by apply (consistent_same_heap w)|]. split; [|by eapply Hr'].
    unfold one_in_flight in *. rewrite Hsame.
    destruct (pending w) as [|r [|]]; [done| |done].
    destruct r; simpl in *; rewrite ?Hl, ?Hh; done.
  - split; [|split; [|by eapply Hr']].
    + simpl in Hset. unfold one_in_flight in Hof.
      destruct (pending w) as [|r [|]] eqn:Hp; [done| |done].
      simpl in Hset. injection Hset as <-.
      assert (HI0 : Inv user (set_pending [] w)).
      { apply (Inv_same_heap user w); try done. intros l. unfold roots. simpl. set_solver. }
      destruct r as [d snap inp|k t snap inp|k snap]; simpl in Hof.
      * destruct Hof as (-> & Htask & Huid). by apply (consistent_add fmt user (set_pending [] w)).
      * destruct Hof as (-> & ot & Ht & <-).
        apply (consistent_update fmt user (set_pending [] w)); [done|exact Hc| |done].
        exact (reachable_shown_NoDup fmt user w Hreach).
      * subst snap. by apply (consistent_delete fmt user (set_pending [] w)).
    + simpl in Hset. destruct (pending w !! 0) as [r|] eqn:Hr; [|done].
      injection Hset as <-. unfold one_in_flight. rewrite settle_pending. simpl.
      unfold one_in_flight in Hof. destruct (pending w) as [|r' [|]]; try done.
Qed.

(** C30: the page refines the collection with one request in flight.
    From a load of the user's page, along any execution where the user
    may type, enter or leave edit mode and let time pass while a request
    is in flight, and sends a new request only when none is in flight,
    the page shows for every id exactly the text of the user's document
    with that id, at every step, while requests are in flight included. *)
Theorem one_in_flight_refines session (s : St) rows t w :
  store_wf s -> getServerSideProps fmt session s = Props user rows ->
  rtc ostep (init rows s t) w ->
  forall k, row_text (shown w) k = Doc.task <$> owned_by (User.id user) (db w) k.
Proof.
  intros Hs Hload Hrtc.
  cut (consistent user w /\ one_in_flight w /\ reachable fmt user w);
    [intros [Hc _]; exact Hc|].
  revert w Hrtc.
  apply (rtc_ind_r (fun w => consistent user w /\ one_in_flight w /\ reachable fmt user w)).
  - split; [by eapply init_consistent|]. split; [done|by econstructor].
  - intros w2 w3 _ Hstep (Hc & Hof & Hr). by apply (ostep_preserves w2).
Qed.

End one_in_flight.
