(* ===== verification/View.v ===== *)
(** * What the component renders (lines 130-209)

    [render] maps a world of [Board] to the page React shows: the banner
    of edit mode with its cancel button (lines 136-143), the input with
    its value (line 149), the heading that counts the tasks (lines
    157-160), one [article] per row of [taskList] (lines 162-189: its
    [key], the link to [/board/id], the text, the formatted date, the edit
    button of a supporter and the delete button) and the supporter panel
    (lines 192-205).  Strings are UTF-8 bytes, as the page's Portuguese
    text is.  The relative time of the panel is [formatDistance] of
    date-fns, a parameter [dist] here ([Distance.formatDistance] in
    [Scenarios]).

    [Markup] prints this page as the JSX of the code and proves what it
    shows; [Scenarios] renders the worlds of its runs. *)

From S2P Require Import Prelude DateFormat Types Store Loader Board BoardInv BoardRefine.

Record Article := mkArticle {
  a_key : string;
  a_href : string;
  a_text : string;
  a_time : option string;
  a_edit : bool;
}.

Record Page := mkPage {
  p_warn : bool;
  p_input : string;
  p_heading : string;
  p_articles : list Article;
  p_panel : option string;
}.

(** [Você tem {taskList.length}{' '}{taskList.length === 1 ? 'tarefa' : 'tarefas'}!] *)
Definition heading (n : nat) : string :=
  "Você tem " +:+ decimal (Z.of_nat n) +:+ " " +:+
  (if decide (n = 1) then "tarefa" else "tarefas") +:+ "!".

Section view.
Context `{DocStoreLaws St}.
Variable user : User.t.
(** [formatDistance(new Date(user.lastDonate), new Date(), { locale: ptBR })] *)
Variable dist : Z -> Z -> string.

(** One [article] of [taskList.map((task) => ...)] (lines 163-188). *)
Definition article (t : TaskList.t) : Article :=
  mkArticle (TaskList.id t) ("/board/" +:+ TaskList.id t) (TaskList.task t)
    (TaskList.createdFormatted t) (User.vip user).

Definition render (w : World St) : Page :=
  mkPage (bool_decide (taskEdit w <> None)) (input w) (heading (length (taskList w)))
    (article <$> shown w)
    (if User.vip user then Some ("Última doação foi a " +:+ dist (User.lastDonate user) (now w))
     else None).

End view.
