(* ===== verification/Markup.v ===== *)
(** * The JSX of [Board] (lines 130-209)

    The element tree the component returns, node for node: the fragment
    with [Head] and its [title], the [main] container with the edit
    banner ([taskEdit && ...]), the form with its input and submit
    button, the heading, the [section] with one [article] per object of
    [taskList] and the supporter panel ([user.vip && ...]), and
    [SupportButton].  A [className={styles.x}] is the CSS-module class
    [x], an icon of [react-icons] an element with its [size] and [color],
    a [Link] or [SupportButton] an element of that component (their own
    markup is not under [src/]).  Event props carry the [Board] event they
    fire: [onClick], [onSubmit], and [onChange], which fires [Change] of
    the text typed.  Children follow React: [cond && x] contributes [x]
    or nothing, a number renders as its decimal string, [undefined]
    renders nothing, and JSX text is split where expressions interrupt
    it, with the line breaks and indentation trimmed.

    The queries [elems_by_tag], [text_content] and [prop] read the tree
    as the browser's DOM would be read.  The theorems tie the tree to the
    rest: its articles and heading are those of [View.render], every
    click and submit it offers ([events]) is an event [handle] accepts,
    and, with [Loader] and [Json], the page the server renders for a
    signed-in user lists exactly that user's documents. *)

From S2P Require Import Prelude DateFormat Types Store Loader Json Board BoardInv BoardRefine View.

(** ** Elements *)

Inductive pval :=
  | AStr (s : string)
  | ANum (n : Z)
  | AClass (name : string)
  | AEvent (ev : Event)
  | AInput (f : string -> Event).

Unset Elimination Schemes.
Inductive node :=
  | Elem (tag : string) (attrs : list (string * pval)) (kids : list node)
  | Text (s : string).
Set Elimination Schemes.

(** Induction with a hypothesis for every child. *)
Definition node_ind (P : node -> Prop)
    (felem : forall tag attrs kids, Forall P kids -> P (Elem tag attrs kids))
    (ftext : forall s, P (Text s)) : forall n, P n :=
  fix F n :=
    match n with
    | Elem tag attrs kids => felem tag attrs kids ((fix G ks : Forall P ks :=
        match ks with [] => List.Forall_nil _ | k :: ks' => List.Forall_cons _ k ks' (F k) (G ks') end) kids)
    | Text s => ftext s
    end.

(** An icon of [react-icons/fi]. *)
Definition icon (name : string) (size : Z) (color : string) : node :=
  Elem name [("size", ANum size); ("color", AStr color)] [].

(** [{x && y}] and [{x}] for an [undefined]-or-string [x]. *)
Definition when (b : bool) (n : node) : list node := if b then [n] else [].
Definition opt_text (s : option string) : list node :=
  match s with Some t => [Text t] | None => [] end.

Section jsx.
Context `{DocStoreLaws St}.
Variable user : User.t.
(** [formatDistance(new Date(user.lastDonate), new Date(), { locale: ptBR })] *)
Variable dist : Z -> Z -> string.

(** Lines 163-188, for the object [task] at location [l]. *)
Definition article_node (l : loc) (task : TaskList.t) : node :=
  Elem "article" [("key", AStr (TaskList.id task)); ("className", AClass "taskList")]
    [Elem "Link" [("href", AStr ("/board/" +:+ TaskList.id task))]
       [Elem "a" [] [Text (TaskList.task task)]];
     Elem "div" [("className", AClass "actions")]
       [Elem "div" []
          ([Elem "div" [] [icon "FiCalendar" 20 "#ffb800";
                           Elem "time" [] (opt_text (TaskList.createdFormatted task))]] ++
           when (User.vip user)
             (Elem "button" [("onClick", AEvent (ClickEdit l))]
                [icon "FiEdit" 20 "#fff"; Elem "span" [] [Text "Editar"]]));
        Elem "button" [("onClick", AEvent (ClickDelete l))]
          [icon "FiTrash" 20 "#ff3636"; Elem "span" [] [Text "Excluir"]]]].

(** [taskList.map((task) => ...)], through the objects the array holds. *)
Definition articles (w : World St) : list node :=
  omap (fun l => article_node l <$> heap w !! l) (taskList w).

Definition jsx (w : World St) : node :=
  let n := length (taskList w) in
  Elem "Fragment" []
    ([Elem "Head" [] [Elem "title" [] [Text "Minhas Tarefas - Board"]];
      Elem "main" [("className", AClass "container")]
        (when (bool_decide (taskEdit w <> None))
           (Elem "span" [("className", AClass "warnText")]
              [Elem "button" [("onClick", AEvent ClickCancel)] [icon "FiX" 30 "#ff3636"];
               Text "Você está editando uma tarefa!"]) ++
         [Elem "form" [("onSubmit", AEvent Submit)]
            [Elem "input" [("type", AStr "text"); ("placeholder", AStr "Digite sua tarefa...");
                           ("value", AStr (input w)); ("onChange", AInput Change)] [];
             Elem "button" [("type", AStr "submit")] [icon "FiPlus" 25 "#17181f"]];
          Elem "h1" [] [Text "Você tem "; Text (decimal (Z.of_nat n)); Text " ";
                        Text (if decide (n = 1) then "tarefa" else "tarefas"); Text "!"];
          Elem "section" [] (articles w)])] ++
     when (User.vip user)
       (Elem "div" [("className", AClass "vipContainer")]
          [Elem "h3" [] [Text "Obrigado por apoiar esse projeto."];
           Elem "div" [] [icon "FiClock" 28 "#fff";
                          Elem "time" [] [Text "Última doação foi a"; Text " ";
                                          Text (dist (User.lastDonate user) (now w))]]]) ++
     [Elem "SupportButton" [] []]).

End jsx.

(** ** Reading the tree *)

(** The elements with tag [t], in document order. *)
Fixpoint elems_by_tag (t : string) (n : node) : list node :=
  match n with
  | Elem tag attrs kids =>
      (if String.eqb tag t then [n] else []) ++ mjoin (elems_by_tag t <$> kids)
  | Text _ => []
  end.

(** [textContent]: the text of the node and its descendants. *)
Fixpoint text_content (n : node) : string :=
  match n with
  | Elem _ _ kids => String.concat "" (text_content <$> kids)
  | Text s => s
  end.

Definition attrs_of (n : node) : list (string * pval) :=
  match n with Elem _ attrs _ => attrs | Text _ => [] end.

(** The value of the prop [k], the first one given. *)
Definition prop (k : string) (n : node) : option pval :=
  (fun ia => ia.2.2) <$> list_find (fun ka => ka.1 = k) (attrs_of n).

(** The text of the first element [t] below [n], or [""]. *)
Definition first_text (t : string) (n : node) : string :=
  match elems_by_tag t n with m :: _ => text_content m | [] => "" end.

(** What a reader of the DOM sees of an article: its key, the target of
    its link, the text of the link and the text of its [time]. *)
Definition article_view (n : node) : option string * option string * string * string :=
  (match prop "key" n with Some (AStr k) => Some k | _ => None end,
   match elems_by_tag "Link" n with
   | m :: _ => match prop "href" m with Some (AStr h) => Some h | _ => None end
   | [] => None
   end,
   first_text "a" n, first_text "time" n).

(** The events the event props of the tree fire on a click or a submit. *)
Fixpoint events (n : node) : list Event :=
  match n with
  | Elem _ attrs kids =>
      omap (fun ka => match ka.2 with AEvent ev => Some ev | _ => None end) attrs ++
      mjoin (events <$> kids)
  | Text _ => []
  end.

(** What the DOM shows of a row: [article_view] of its article. *)
Definition row_view (t : TaskList.t) : option string * option string * string * string :=
  (Some (TaskList.id t), Some ("/board/" +:+ TaskList.id t), TaskList.task t,
   default "" (TaskList.createdFormatted t)).

(** What the page should show of the document [d] stored under [k]. *)
Definition doc_view (fmt : Z -> string) (k : string) (d : Doc.t) :
    option string * option string * string * string :=
  (Some k, Some ("/board/" +:+ k), Doc.task d, fmt (Doc.created d)).

(** ** The tree and the view *)

Section tree_props.
Context `{DocStoreLaws St}.
Variable user : User.t.
Variable dist : Z -> Z -> string.
Implicit Types w : World St.

Lemma article_view_node l t : article_view (article_node user l t) = row_view t.
Proof.
  destruct t as [i c cf tk u nm]. unfold article_view, row_view, first_text. simpl.
  destruct cf, (User.vip user); reflexivity.
Qed.

(** An article holds no other article. *)
Lemma elems_article_node l t : elems_by_tag "article" (article_node user l t) = [article_node user l t].
Proof. unfold article_node, when. destruct t as [i c [cf|] tk u nm], (User.vip user); reflexivity. Qed.

Lemma elems_articles w : mjoin (elems_by_tag "article" <$> articles user w) = articles user w.
Proof.
  unfold articles. induction (taskList w) as [|l ls IH]; [done|].
  rewrite omap_cons_eq. destruct (heap w !! l) as [t|]; [|done].
  change (article_node user l <$> Some t) with (Some (article_node user l t)). cbv iota beta.
  rewrite fmap_cons, elems_article_node. simpl. by f_equal.
Qed.

Lemma articles_view w : article_view <$> articles user w = row_view <$> shown w.
Proof.
  unfold articles, shown. induction (taskList w) as [|l ls IH]; [done|].
  rewrite !omap_cons_eq. destruct (heap w !! l) as [t|]; simpl; [|done].
  rewrite article_view_node. by f_equal.
Qed.

(** The articles of the page are the rows of [shown], in order. *)
Lemma jsx_articles w : elems_by_tag "article" (jsx user dist w) = articles user w.
Proof.
  unfold jsx. cbn [elems_by_tag String.eqb].
  destruct (bool_decide _), (User.vip user); simpl; rewrite ?app_nil_r, elems_articles; simpl;
    by rewrite ?app_nil_r.
Qed.

Lemma events_article_node l t :
  events (article_node user l t) = (if User.vip user then [ClickEdit l] else []) ++ [ClickDelete l].
Proof. unfold article_node, when. destruct t as [i c [cf|] tk u nm], (User.vip user); reflexivity. Qed.

Lemma events_articles w ev :
  ev ∈ mjoin (events <$> articles user w) ->
  exists l t, l ∈ taskList w /\ heap w !! l = Some t /\
    (ev = ClickDelete l \/ (User.vip user = true /\ ev = ClickEdit l)).
Proof.
  unfold articles. induction (taskList w) as [|l ls IH]; [by intros ?%elem_of_nil|].
  rewrite omap_cons_eq. destruct (heap w !! l) as [t|] eqn:Ht.
  - change (article_node user l <$> Some t) with (Some (article_node user l t)). cbv iota beta.
    rewrite fmap_cons, events_article_node. simpl. rewrite elem_of_app.
    intros [Hev|Hev].
    + exists l, t. split; [left|split; [done|]].
      destruct (User.vip user); set_solver.
    + destruct (IH Hev) as (l' & t' & Hl & ?). exists l', t'. split; [by right|done].
  - intros Hev. destruct (IH Hev) as (l' & t' & Hl & ?). exists l', t'. split; [by right|done].
Qed.

Lemma events_jsx w :
  events (jsx user dist w) =
  (if bool_decide (taskEdit w <> None) then [ClickCancel] else []) ++ [Submit] ++
  mjoin (events <$> articles user w).
Proof.
  unfold jsx, when. destruct (bool_decide _), (User.vip user); simpl;
    by rewrite ?app_nil_r.
Qed.

(** The heading of the page is the heading of [render]. *)
Lemma jsx_heading w : first_text "h1" (jsx user dist w) = p_heading (render user dist w).
Proof. unfold first_text, jsx. destruct (bool_decide _), (User.vip user); reflexivity. Qed.

(** No dead control: every click and submit the tree offers is an event
    [handle] accepts, in every world. *)
Lemma jsx_events_accepted fmt w ev :
  ev ∈ events (jsx user dist w) -> is_Some (handle fmt user ev w).
Proof.
  rewrite events_jsx, !elem_of_app. intros [Hc|[Hs|Ha]].
  - case_bool_decide as Hn; [|by apply elem_of_nil in Hc].
    apply list_elem_of_singleton in Hc as ->. simpl. by rewrite decide_False.
  - apply list_elem_of_singleton in Hs as ->. simpl. by destruct (handleAddTask _ _).
  - destruct (events_articles w ev Ha) as (l & t & Hl & Ht & [->|[Hv ->]]); simpl;
      rewrite ?Hv, bool_decide_true, Ht by done; by eexists.
Qed.

End tree_props.

(** ** The page the server renders *)

Section ssr.
Context `{DocStoreLaws St}.

(** C26: the first render of a signed-in user's page shows exactly that
    user's documents.  For a session with a non-empty id, the loader
    returns props, the text it sends parses back ([useState(JSON.parse(data))])
    into its rows, and in the tree [jsx] renders from them the articles
    read, key, link target, link text and date, as the documents the
    store holds under the session's id, each once, with distinct keys;
    the heading counts them. *)
Theorem ssr_page_lists_docs fmt ss sid (s : St) dist t :
  Session.id ss = Some sid -> sid <> "" ->
  exists (u : User.t) (rows : list TaskList.t),
    getServerSideProps fmt (Some ss) s = Props u rows /\
    JSON_parse (loader_data fmt (getDocsByUser (User.id u) s)) ≫= rows_of_json = Some rows /\
    (forall v, v ∈ (article_view <$> elems_by_tag "article" (jsx u dist (init rows s t))) <->
       exists k d, owned_by sid s k = Some d /\ v = doc_view fmt k d) /\
    NoDup ((fun v => v.1.1.1) <$> (article_view <$> elems_by_tag "article" (jsx u dist (init rows s t)))) /\
    first_text "h1" (jsx u dist (init rows s t)) = heading (length rows).
Proof.
  intros Hsid Hne. set (u := user_of ss sid).
  exists u, (row_of fmt <$> getDocsByUser sid s).
  assert (Hload : getServerSideProps fmt (Some ss) s = Props u (row_of fmt <$> getDocsByUser sid s))
    by (unfold getServerSideProps; by rewrite Hsid, decide_False).
  destruct (loader_props_spec fmt _ _ _ _ Hload) as [Hnd Hspec].
  split; [done|]. split; [apply rows_transfer|].
  rewrite jsx_articles, articles_view, shown_init. split; [|split].
  - intros v. rewrite list_elem_of_fmap. split.
    + intros (r & -> & Hr). destruct (Hspec r Hr) as (d & Hd & Hrd).
      exists (TaskList.id r), d. split; [done|]. by rewrite Hrd.
    + intros (k & d & Hd & ->). exists (row_of fmt (k, d)). split; [done|].
      by apply (loader_props_complete fmt (Some ss) s u).
  - assert (Hk : forall rs, (fun v => v.1.1.1) <$> (row_view <$> rs) = Some <$> (TaskList.id <$> rs))
      by (intros; rewrite <- !list_fmap_compose; done).
    rewrite Hk. by apply NoDup_fmap_2; [apply _|].
  - rewrite jsx_heading. simpl. by rewrite length_seq.
Qed.

End ssr.
