(* ===== verification/Scenarios.v ===== *)
(** * Concrete runs of the page

    The store [FireStore] with one document of the user ["u1"] (Ana, a
    supporter), the load of her page with the formatter of a server on
    UTC, the runs of §8 of the specification evaluated by [vm_compute],
    and the page React renders for it; then a witness for each theorem
    with hypotheses of [Board], [Loader], [Json], [BoardInv],
    [BoardRefine], [View], [Markup], [LoaderIO] and [Distance], applying it on these concrete
    worlds ([DateFormat] and [Races] hold the witnesses of their own
    theorems). *)

From S2P Require Import Prelude DateFormat Distance Types Store Loader Json LoaderIO Board BoardInv BoardRefine View Markup.

Definition ana : User.t := User.mk "u1" "Ana" true 0.
Definition ana_session : Session.t := Session.mk (Some "u1") "Ana" true 0.

(** The formatter of a server on UTC; the theorems hold for every [fmt]. *)
Definition fmt0 : Z -> string := format_ddMMMMyyyy 0.

Definition db0 : FireStore.t :=
  FireStore.mk {[ "1" := Doc.mk 0 "Buy milk" "u1" "Ana" ]} {[ "1" ]}.

Definition rows0 : list TaskList.t :=
  match getServerSideProps fmt0 (Some ana_session) db0 with
  | Props _ rows => rows
  | Redirect _ _ => []
  end.

Definition w0 : World FireStore.t := init rows0 db0 1000.

Lemma db0_wf : store_wf db0.
Proof. unfold store_wf, db0. simpl. unfold FireStore.wf. simpl. set_solver. Qed.

Lemma load0 : getServerSideProps fmt0 (Some ana_session) db0 = Props ana rows0.
Proof. vm_compute. reflexivity. Qed.

Lemma reachable_w0 : reachable fmt0 ana w0.
Proof. apply (reachable_init fmt0 ana (Some ana_session)); [apply db0_wf|apply load0]. Qed.

Lemma Inv_w0 : Inv ana w0.
Proof. exact (reachable_Inv fmt0 ana w0 reachable_w0). Qed.

Lemma wf_w0 (s : string) : world_wf (set_input s w0).
Proof. apply (inv_wf ana). apply Inv_set_input, Inv_w0. Qed.

(** ** The scenario of §8 *)

Definition add_walk_dog : list Event := [Change "Walk dog"; Submit; Settle 0 Fulfilled].
Definition edit_milk : list Event :=
  [ClickEdit 0; Change "Buy oat milk"; Submit; Settle 0 Fulfilled].
Definition delete_milk : list Event := [ClickDelete 0; Settle 0 Fulfilled].

(** The scenario of the specification.  From the list
    [Buy milk] of Ana, adding [Walk dog] gives two rows, the second one
    [Walk dog]; editing the row with id ["1"] to [Buy oat milk] keeps its
    id; deleting it leaves the [Walk dog] row alone, in the page and in the
    store. *)
Example spec_scenario :
  option_map shown (run fmt0 ana add_walk_dog w0) =
    Some [TaskList.mk "1" 0 (Some "01 January 1970") "Buy milk" "u1" "Ana";
          TaskList.mk "0" 1000 (Some "01 January 1970") "Walk dog" "u1" "Ana"] /\
  option_map shown (run fmt0 ana (add_walk_dog ++ edit_milk) w0) =
    Some [TaskList.mk "1" 0 (Some "01 January 1970") "Buy oat milk" "u1" "Ana";
          TaskList.mk "0" 1000 (Some "01 January 1970") "Walk dog" "u1" "Ana"] /\
  option_map (fun w => (shown w, map_to_list (FireStore.docs (db w))))
    (run fmt0 ana (add_walk_dog ++ edit_milk ++ delete_milk) w0) =
    Some ([TaskList.mk "0" 1000 (Some "01 January 1970") "Walk dog" "u1" "Ana"],
          [("0", Doc.mk 1000 "Walk dog" "u1" "Ana")]).
Proof. vm_compute. repeat split. Qed.

(** ** Witnesses: the theorems applied to Ana's page *)

Definition w_typed : World FireStore.t := set_input "Walk dog" w0.

Lemma add_task_appends_witness :
  let k := (addDoc (new_doc ana w_typed) (db w_typed)).1 in
  exists w', run fmt0 ana [Submit; Settle 0 Fulfilled] w_typed = Some w' /\
    shown w' = shown w_typed ++ [TaskList.mk k (now w_typed) (Some (fmt0 (now w_typed)))
                (input w_typed) (User.id ana) (User.name ana)] /\
    doc_at (db w') k = Some (new_doc ana w_typed) /\ (k ∉ issued (db w_typed)) /\
    input w' = "" /\ pending w' = [].
Proof.
  apply (add_task_appends fmt0 ana w_typed (wf_w0 "Walk dog")); vm_compute; congruence.
Defined.

Lemma submit_empty_rejected_witness :
  handle fmt0 ana Submit w0 = Some (out (Alert "Preencha alguma tarefa!") w0).
Proof. apply submit_empty_rejected. vm_compute. reflexivity. Defined.

Definition milk : TaskList.t := TaskList.mk "1" 0 (Some "01 January 1970") "Buy milk" "u1" "Ana".

Lemma edit_changes_only_target_witness :
  exists w', run fmt0 ana [ClickEdit 0; Change "Buy oat milk"; Submit; Settle 0 Fulfilled] w0 = Some w' /\
    shown w' = (fun r => if decide (TaskList.id r = TaskList.id milk)
                         then TaskList.set_task "Buy oat milk" r else r) <$> shown w0 /\
    (forall k, doc_at (db w') k =
       if decide (k = TaskList.id milk) then Doc.set_task "Buy oat milk" <$> doc_at (db w0) k
       else doc_at (db w0) k) /\
    taskEdit w' = None /\ input w' = "" /\ pending w' = [].
Proof.
  apply (edit_changes_only_target fmt0 ana w0 0 milk "Buy oat milk");
    [exact (inv_wf ana w0 Inv_w0)|vm_compute; try reflexivity; try congruence ..].
  - by apply list_elem_of_singleton.
  - apply NoDup_singleton.
Defined.

Lemma edit_then_cancel_witness :
  run fmt0 ana [ClickEdit 0; ClickCancel] w0 = Some (set_input "" w0).
Proof.
  apply (edit_then_cancel fmt0 ana w0 0 milk); vm_compute; try reflexivity.
  by apply list_elem_of_singleton.
Defined.

Lemma delete_removes_witness :
  exists w', run fmt0 ana [ClickDelete 0; Settle 0 Fulfilled] w0 = Some w' /\
    shown w' = filter (fun r => TaskList.id r <> TaskList.id milk) (shown w0) /\
    (NoDup (TaskList.id <$> shown w0) -> length (shown w') = pred (length (shown w0))) /\
    (forall k, doc_at (db w') k =
       if decide (k = TaskList.id milk) then None else doc_at (db w0) k) /\
    pending w' = [].
Proof.
  apply (delete_removes fmt0 ana w0 0 milk); vm_compute; try reflexivity.
  by apply list_elem_of_singleton.
Defined.

Definition w_sent : World FireStore.t :=
  match handle fmt0 ana Submit w_typed with Some w => w | None => w_typed end.

Lemma rejected_changes_nothing_witness :
  exists msg, handle fmt0 ana (Settle 0 (Rejected "unavailable")) w_sent =
    Some (out (ConsoleLog msg (FirebaseError "unavailable"))
            (set_pending (delete 0 (pending w_sent)) w_sent)).
Proof.
  apply (rejected_changes_nothing fmt0 ana w_sent 0
           (ReqAdd (Doc.mk 1000 "Walk dog" "u1" "Ana") [0] "Walk dog")).
  vm_compute. reflexivity.
Defined.

Lemma reachable_rows_owned_witness :
  TaskList.userId milk = User.id ana /\
  forall d, doc_at (db w0) (TaskList.id milk) = Some d -> Doc.userId d = User.id ana.
Proof.
  apply (reachable_rows_owned fmt0 ana w0 reachable_w0 milk).
  replace (shown w0) with [milk] by (vm_compute; reflexivity).
  by apply list_elem_of_singleton.
Defined.

Lemma loader_redirects_anonymous_witness :
  getServerSideProps fmt0 None db0 = Redirect "/" false.
Proof. apply loader_redirects_anonymous. vm_compute. reflexivity. Defined.

Lemma loader_rows_exact_witness :
  exists rows,
    getServerSideProps fmt0 (Some ana_session) db0 = Props (user_of ana_session "u1") rows /\
    (forall k d, row_of fmt0 (k, d) ∈ rows <-> owned_by "u1" db0 k = Some d) /\
    (forall r, r ∈ rows -> exists k d, r = row_of fmt0 (k, d)) /\
    NoDup (TaskList.id <$> rows).
Proof. apply loader_rows_exact; vm_compute; congruence. Defined.

Lemma step_keeps_fields_witness :
  exists s, heap (set_input "x" w0) !! 0 = Some (TaskList.set_task s milk).
Proof.
  apply (step_keeps_fields fmt0 ana w0); [exact reachable_w0| |vm_compute; reflexivity].
  exists (Change "x"). reflexivity.
Defined.

Lemma reachable_ids_never_reused_witness :
  (forall l1 l2 o1 o2, heap w0 !! l1 = Some o1 -> heap w0 !! l2 = Some o2 ->
     TaskList.id o1 = TaskList.id o2 -> l1 = l2) /\
  (forall l o, heap w0 !! l = Some o -> TaskList.id o ∈ issued (db w0)) /\
  NoDup (TaskList.id <$> shown w0).
Proof. apply (reachable_ids_never_reused fmt0 ana w0). exact reachable_w0. Defined.

Definition bob : User.t := User.mk "u1" "Ana" false 0.

Lemma non_vip_never_edits_witness : taskEdit (init rows0 db0 1000) = None.
Proof.
  apply (non_vip_never_edits fmt0 bob).
  - apply (reachable_init fmt0 bob (Some (Session.mk (Some "u1") "Ana" false 0)));
      [apply db0_wf|vm_compute; reflexivity].
  - reflexivity.
Defined.

Definition w_added : World FireStore.t :=
  match handle fmt0 ana (Settle 0 Fulfilled) w_sent with Some w => w | None => w_sent end.

Lemma sequential_refines_witness :
  row_text (shown w_added) "0" = Doc.task <$> owned_by (User.id ana) (db w_added) "0".
Proof.
  apply (sequential_refines fmt0 ana (Some ana_session) db0 rows0 1000 w_added db0_wf load0).
  apply (rtc_l _ _ w_typed).
  { apply (sstep_local fmt0 ana (Change "Walk dog")); vm_compute; reflexivity. }
  apply (rtc_l _ _ w_added); [|apply rtc_refl].
  apply (sstep_remote fmt0 ana Submit Fulfilled
           (ReqAdd (Doc.mk 1000 "Walk dog" "u1" "Ana") [0] "Walk dog") w_typed w_sent);
    vm_compute; reflexivity.
Defined.

Lemma loader_data_transfer_witness :
  JSON_parse (loader_data fmt0 (getDocsByUser (User.id ana) db0)) ≫= rows_of_json = Some rows0.
Proof. apply (loader_data_transfer fmt0 (Some ana_session) db0 ana rows0). exact load0. Defined.

(** The relative time of the panel: [formatDistance] with whole months
    of 30 days standing for date-fns' calendar months, which only count
    from two months on. *)
Definition months0 (r l : Z) : Z := (r - l) / 2592000000.
Definition dist0 : Z -> Z -> string := formatDistance months0.

(** Ana's page as React renders it. *)
Example render_w0 :
  render ana dist0 w0 =
  mkPage false "" "Você tem 1 tarefa!"
    [mkArticle "1" "/board/1" "Buy milk" (Some "01 January 1970") true]
    (Some "Última doação foi a menos de um minuto").
Proof. vm_compute. reflexivity. Qed.

Lemma distance_monotone_witness :
  dist_le (distance_of months0 0 3600000) (distance_of months0 0 7200000).
Proof. apply distance_monotone; vm_compute; try split; discriminate. Defined.

(** Ana types the next task while the add of [Walk dog] is in flight. *)
Definition w_typing : World FireStore.t := set_input "Call mom" w_sent.
Definition w_settled : World FireStore.t :=
  match handle fmt0 ana (Settle 0 Fulfilled) w_typing with Some w => w | None => w_typing end.

Lemma one_in_flight_refines_witness :
  row_text (shown w_settled) "0" = Doc.task <$> owned_by (User.id ana) (db w_settled) "0".
Proof.
  apply (one_in_flight_refines fmt0 ana (Some ana_session) db0 rows0 1000 w_settled db0_wf load0).
  apply (rtc_l _ _ w_typed).
  { apply (ostep_event fmt0 ana (Change "Walk dog")); [discriminate|by left|vm_compute; reflexivity]. }
  apply (rtc_l _ _ w_sent).
  { apply (ostep_event fmt0 ana Submit); [discriminate|by left|vm_compute; reflexivity]. }
  apply (rtc_l _ _ w_typing).
  { apply (ostep_event fmt0 ana (Change "Call mom")); [discriminate|by right|reflexivity]. }
  apply (rtc_l _ _ w_settled); [|apply rtc_refl].
  apply (ostep_settle fmt0 ana Fulfilled). vm_compute. reflexivity.
Defined.

(** Ana's session, her store [db0] and the panel of [dist0]. *)
Lemma ssr_page_lists_docs_witness :
  Session.id ana_session = Some "u1" /\ "u1" <> "" /\
  exists (u : User.t) (rows : list TaskList.t),
    getServerSideProps fmt0 (Some ana_session) db0 = Props u rows /\
    JSON_parse (loader_data fmt0 (getDocsByUser (User.id u) db0)) ≫= rows_of_json = Some rows /\
    (forall v, v ∈ (article_view <$> elems_by_tag "article" (jsx u dist0 (init rows db0 1000))) <->
       exists k d, owned_by "u1" db0 k = Some d /\ v = doc_view fmt0 k d) /\
    NoDup ((fun v => v.1.1.1) <$> (article_view <$> elems_by_tag "article" (jsx u dist0 (init rows db0 1000)))) /\
    first_text "h1" (jsx u dist0 (init rows db0 1000)) = heading (length rows).
Proof.
  split; [reflexivity|]. split; [discriminate|].
  apply (ssr_page_lists_docs fmt0 ana_session "u1" db0 dist0 1000); [reflexivity|discriminate].
Defined.

(** Ana's request while Firestore is unavailable. *)
Lemma loader_io_rejections_witness :
  respond (getServerSidePropsIO fmt0 (mkEnv (JsOk (Some ana_session)) (Some (FirebaseError "unavailable")))
             db0).2 = Http500 (FirebaseError "unavailable").
Proof.
  destruct (loader_io_rejections fmt0 (FirebaseError "unavailable") None (Some ana_session) db0)
    as (_ & _ & _ & H).
  apply (H ana_session "u1"); [reflexivity|reflexivity|discriminate].
Defined.
