(* ===== verification/Races.v ===== *)
(** * Interleavings: where the captured closures make the page and the store diverge

    Every handler of [Board] patches the state with the [taskList] its
    closure captured when the event fired, after an [await].  When a second
    event fires before the first request settles, the two callbacks work
    from the same stale array.  The section [races] states, for every
    world where the race can happen, what the page and the store hold
    afterwards: a double submit loses a row, an edit of a row the captured
    array lacks throws after the store changed, deleting the task under
    edit leaves edit mode on, a stale delete shows the current objects of
    the array it captured, two deletes from one render resurrect a row,
    and the add callback wipes what was typed while it was in flight.
    The interleavings are named sequences of events ([double_submit],
    [delete_then_submit_edit], [double_delete], [resolve i]).  The runs
    after the section replay each race on Ana's page [w0] of [Scenarios],
    letting the requests settle in the order written. *)

From S2P Require Import Prelude Types Store Loader Board BoardInv Scenarios.

(** ** The interleavings

    Each race is a sequence of events of [Board]: clicks and submits that
    fire before the requests of earlier ones settle, and [resolve i], the
    resolution of the [i]-th promise in flight, which runs its [.then]. *)

Definition resolve (i : nat) : Event := Settle i Fulfilled.

(** Two submits of the same input, then both [addDoc] resolve. *)
Definition double_submit : list Event := [Submit; Submit; resolve 0; resolve 0].

(** Delete the row under edit, then type [s] and submit the edit. *)
Definition delete_then_submit_edit (l : loc) (s : string) : list Event :=
  [ClickDelete l; resolve 0; Change s; Submit; resolve 0].

(** Two deletes from the same render, then both [deleteDoc] resolve. *)
Definition double_delete (l1 l2 : loc) : list Event :=
  [ClickDelete l1; ClickDelete l2; resolve 0; resolve 0].

Section races.
Context `{DocStoreLaws St}.
Variable fmt : Z -> string.
Variable user : User.t.
Implicit Types w : World St.

Lemma shown_ids_issued w k : Inv user w -> k ∉ issued (db w) -> k ∉ TaskList.id <$> shown w.
Proof.
  intros HI Hk (o & -> & Ho)%list_elem_of_fmap. apply list_elem_of_omap in Ho as (l & _ & Hl).
  apply Hk. exact (proj1 (inv_issued user w HI l o Hl)).
Qed.

(** C14: a double submit loses a row.  Two submits of the same input
    before the first [addDoc] settles store two documents under two ids,
    but both callbacks append to the array the two closures captured, so
    the page shows only the second: the first document is stored and
    never shown. *)
Theorem double_submit_loses_row w :
  Inv user w -> input w <> "" -> taskEdit w = None -> pending w = [] ->
  exists w' k1 k2,
    run fmt user double_submit w = Some w' /\
    k1 <> k2 /\ doc_at (db w') k1 = Some (new_doc user w) /\
    doc_at (db w') k2 = Some (new_doc user w) /\
    shown w' = shown w ++ [TaskList.mk k2 (now w) (Some (fmt (now w))) (input w)
                             (User.id user) (User.name user)] /\
    k1 ∉ TaskList.id <$> shown w'.
Proof.
  intros HI Hin Hedit Hpend. pose proof (inv_wf user w HI) as Hwf.
  unfold double_submit, resolve. simpl. unfold handleAddTask. rewrite decide_False, Hedit, Hpend by done. simpl.
  rewrite decide_False, Hedit by done. simpl. fold (new_doc user w).
  destruct Hwf as (Hdom & Hroots & Hdb).
  assert (Hfree : forall l, (next w <= l)%nat -> l ∉ taskList w).
  { intros l Hl Hin'. destruct (wf_taskList w l (conj Hdom (conj Hroots Hdb)) Hin') as [o Ho].
    assert (is_Some (heap w !! l)) as Hs%Hdom by eauto. lia. }
  destruct (addDoc (new_doc user w) (db w)) as [k1 s1] eqn:E1. simpl.
  destruct (addDoc (new_doc user w) s1) as [k2 s2] eqn:E2. simpl.
  pose proof (addDoc_fresh (new_doc user w) (db w) Hdb) as F1. rewrite E1 in F1.
  pose proof (addDoc_issued (new_doc user w) (db w) Hdb) as I1. rewrite E1 in I1.
  pose proof (addDoc_wf (new_doc user w) (db w) Hdb) as W1. rewrite E1 in W1.
  pose proof (addDoc_fresh (new_doc user w) s1 W1) as F2. rewrite E2 in F2.
  pose proof (addDoc_doc_at (new_doc user w) (db w) k1 Hdb) as D1. rewrite E1 in D1.
  pose proof (addDoc_doc_at (new_doc user w) s1) as D2. rewrite E2 in D2. simpl in *.
  assert (Hk : k1 <> k2) by (intros ->; apply F2; rewrite I1; set_solver).
  eexists _, k1, k2. split; [done|]. split; [done|].
  rewrite !D2 by done. rewrite decide_False, D1, decide_True by done.
  split; [done|]. rewrite decide_True by done. split; [done|].
  assert (Hshown : omap (fun x => <[S (next w) := TaskList.mk k2 (now w) (Some (fmt (now w)))
      (input w) (User.id user) (User.name user)]> (<[next w := TaskList.mk k1 (now w)
      (Some (fmt (now w))) (input w) (User.id user) (User.name user)]> (heap w)) !! x)
      (taskList w ++ [S (next w)]) =
    shown w ++ [TaskList.mk k2 (now w) (Some (fmt (now w))) (input w) (User.id user) (User.name user)]).
  { rewrite omap_app. simpl. rewrite lookup_insert_eq.
    rewrite !omap_insert_notin by (apply Hfree; lia). done. }
  match goal with |- shown ?W = _ /\ _ => assert (HW : shown W = _) by exact Hshown end.
  rewrite HW. split; [done|].
  rewrite fmap_app. intros [Hin'|Heq]%elem_of_app.
  - revert Hin'. by apply shown_ids_issued.
  - simpl in Heq. apply list_elem_of_singleton in Heq. congruence.
Qed.

(** C15: the [findIndex] of the edit callback returns [-1].  When the
    array the update callback captured holds no row with the id of the
    task under edit, [updateDoc] has already changed the store, and
    [data[-1].task = input] throws a [TypeError]: the store holds the new
    text, the page keeps its heap, list, edit target and input, and the
    error is only logged. *)
Theorem edit_of_vanished_row_throws w i t snap inp o s' :
  pending w !! i = Some (ReqUpdate (TaskList.id o) t snap inp) -> heap w !! t = Some o ->
  Forall (fun l => has_id w (TaskList.id o) l = false) snap ->
  updateDoc (TaskList.id o) inp (db w) = Some s' ->
  handle fmt user (resolve i) w =
    Some (out (ConsoleLog "" (TypeError "Cannot set properties of undefined"))
            (set_db s' (set_pending (delete i (pending w)) w))).
Proof.
  intros Hi Ht Hsnap Hup. unfold resolve. simpl. rewrite Hi. simpl. rewrite Hup.
  unfold edit_then, read, js_bind, js_deref. simpl. rewrite Ht.
  rewrite findIndex_None by exact Hsnap. done.
Qed.

(** C16: deleting the task under edit does not leave edit mode.  The
    delete succeeds, the page stays in edit mode, and the next submit
    sends an [updateDoc] of the deleted document, which the store rejects
    with [not-found]: the page keeps the edit target and the input, and
    only the console records the failure. *)
Theorem delete_under_edit_stays_editing w l o s :
  pending w = [] -> taskEdit w = Some l -> l ∈ taskList w -> heap w !! l = Some o -> s <> "" ->
  exists w', run fmt user (delete_then_submit_edit l s) w = Some w' /\
    taskEdit w' = Some l /\ input w' = s /\ pending w' = [] /\
    console w' = console w ++ [ConsoleLog "" (FirebaseError "not-found")] /\
    doc_at (db w') (TaskList.id o) = None.
Proof.
  intros Hpend Hedit Hl Ho Hs. unfold delete_then_submit_edit, resolve. simpl.
  rewrite bool_decide_true, Ho by done. simpl. unfold handleDelete. rewrite Hpend. simpl.
  unfold handleAddTask. simpl. rewrite decide_False, Hedit by done.
  unfold read, js_deref. simpl. rewrite Ho. simpl.
  rewrite (proj2 (updateDoc_None _ _ _)) by (rewrite deleteDoc_doc_at; by rewrite decide_True).
  eexists. split; [done|]. simpl. repeat split; try done.
  rewrite deleteDoc_doc_at. by rewrite decide_True.
Qed.

(** C19: two deletes from the same render resurrect a row.  Both
    callbacks filter the array their closures captured; the second one
    installs that array without its own row only, so the row the first
    delete removed is shown again although both documents are gone from
    the store. *)
Theorem double_delete_resurrects_row w l1 l2 o1 o2 :
  pending w = [] -> l1 ∈ taskList w -> l2 ∈ taskList w ->
  heap w !! l1 = Some o1 -> heap w !! l2 = Some o2 -> TaskList.id o1 <> TaskList.id o2 ->
  exists w', run fmt user (double_delete l1 l2) w = Some w' /\
    shown w' = filter (fun r => TaskList.id r <> TaskList.id o2) (shown w) /\
    o1 ∈ shown w' /\ doc_at (db w') (TaskList.id o1) = None /\
    doc_at (db w') (TaskList.id o2) = None.
Proof.
  intros Hpend Hl1 Hl2 Ho1 Ho2 Hne. unfold double_delete, resolve. simpl.
  rewrite bool_decide_true, Ho1 by done. simpl. unfold handleDelete. rewrite Hpend. simpl.
  rewrite bool_decide_true, Ho2 by done. simpl.
  eexists. split; [done|].
  match goal with |- shown ?W = _ /\ _ =>
    assert (Hs : shown W = filter (fun r => TaskList.id r <> TaskList.id o2) (shown w))
      by apply omap_filter_has_id end.
  split; [exact Hs|]. split.
  - rewrite Hs. apply list_elem_of_filter. split; [done|].
    apply list_elem_of_omap. eauto.
  - simpl. rewrite !deleteDoc_doc_at. rewrite decide_False, decide_True by done.
    split; [done|]. by rewrite decide_True.
Qed.

(** C17: the delete callback installs the current objects of the array
    it captured.  [taskList.filter] copies the references, not the
    objects: the rows shown after the delete are the objects the captured
    locations hold when it settles, so an edit made since the capture
    (which writes into the shared object) survives, while a row added
    since is dropped. *)
Theorem stale_delete_keeps_edit w i k snap :
  pending w !! i = Some (ReqDelete k snap) ->
  exists w', handle fmt user (resolve i) w = Some w' /\
    shown w' = filter (fun r => TaskList.id r <> k) (omap (fun l => heap w !! l) snap) /\
    doc_at (db w') k = None.
Proof.
  intros Hi. unfold resolve. simpl. rewrite Hi. simpl. eexists. split; [done|]. split.
  - apply omap_filter_has_id.
  - simpl. rewrite deleteDoc_doc_at. by rewrite decide_True.
Qed.

(** C31: text typed while an add is in flight is lost.  The [.then] of
    [addDoc] calls [setInput('')] whatever the input holds when it runs:
    a task the user started typing, or the text of a task the user
    entered edit mode for, is wiped, and edit mode stays on with an empty
    input. *)
Theorem add_callback_clears_input w i d snap inp :
  pending w !! i = Some (ReqAdd d snap inp) ->
  exists w', handle fmt user (resolve i) w = Some w' /\
    input w' = "" /\ taskEdit w' = taskEdit w.
Proof.
  intros Hi. unfold resolve. simpl. rewrite Hi. simpl.
  destruct (addDoc d (db w)) as [k s']. by eexists.
Qed.

End races.


(** The rows shown, the user's documents and the edit state of a run. *)
Definition observe (o : option (World FireStore.t)) :
    option (list string * list string * string * option loc * list Output) :=
  option_map (fun w => (TaskList.task <$> shown w,
                        Doc.task <$> (getDocsByUser "u1" (db w)).*2,
                        input w, taskEdit w, console w)) o.

(** The run of [double_submit_loses_row] on Ana's page: the store holds
    three tasks and the page two. *)
Example double_submit_run :
  observe (run fmt0 ana [Change "Walk dog"; Submit; Submit;
                         Settle 0 Fulfilled; Settle 0 Fulfilled] w0) =
  Some (["Buy milk"; "Walk dog"], ["Buy milk"; "Walk dog"; "Walk dog"], "", None, []).
Proof. vm_compute. reflexivity. Qed.

Lemma double_submit_loses_row_witness :
  exists w' k1 k2,
    run fmt0 ana [Submit; Submit; Settle 0 Fulfilled; Settle 0 Fulfilled] w_typed = Some w' /\
    k1 <> k2 /\ doc_at (db w') k1 = Some (new_doc ana w_typed) /\
    doc_at (db w') k2 = Some (new_doc ana w_typed) /\
    shown w' = shown w_typed ++ [TaskList.mk k2 (now w_typed) (Some (fmt0 (now w_typed)))
                                  (input w_typed) (User.id ana) (User.name ana)] /\
    k1 ∉ TaskList.id <$> shown w'.
Proof.
  apply (double_submit_loses_row fmt0 ana w_typed);
    [apply Inv_set_input, Inv_w0|vm_compute; congruence|reflexivity|reflexivity].
Defined.

(** The race of [edit_of_vanished_row_throws] on Ana's page: two adds
    race; the user edits the first one after it appears; the second
    callback installs its stale array, which lacks the row under edit. *)
Example edit_of_vanished_row_run :
  observe (run fmt0 ana [Change "X"; Submit; Change "Y"; Submit; Settle 0 Fulfilled;
                         ClickEdit 1; Settle 0 Fulfilled; Change "X2"; Submit;
                         Settle 0 Fulfilled] w0) =
  Some (["Buy milk"; "Y"], ["Buy milk"; "Y"; "X2"], "X2", Some 1,
        [ConsoleLog "" (TypeError "Cannot set properties of undefined")]).
Proof. vm_compute. reflexivity. Qed.

Definition w_race : World FireStore.t :=
  match run fmt0 ana [Change "X"; Submit; Change "Y"; Submit; Settle 0 Fulfilled;
                      ClickEdit 1; Settle 0 Fulfilled; Change "X2"; Submit] w0 with
  | Some w => w | None => w0
  end.
Definition row_x : TaskList.t := TaskList.mk "0" 1000 (Some "01 January 1970") "X" "u1" "Ana".
Definition db_race : FireStore.t :=
  match updateDoc "0" "X2" (db w_race) with Some s => s | None => db w_race end.

Lemma edit_of_vanished_row_throws_witness :
  handle fmt0 ana (Settle 0 Fulfilled) w_race =
    Some (out (ConsoleLog "" (TypeError "Cannot set properties of undefined"))
            (set_db db_race (set_pending (delete 0 (pending w_race)) w_race))).
Proof.
  apply (edit_of_vanished_row_throws fmt0 ana w_race 0 1 [0; 2]%nat "X2" row_x db_race);
    [vm_compute; reflexivity|vm_compute; reflexivity|repeat constructor|vm_compute; reflexivity].
Defined.


(** The run of [delete_under_edit_stays_editing] on Ana's page. *)
Example delete_under_edit_run :
  observe (run fmt0 ana [ClickEdit 0; ClickDelete 0; Settle 0 Fulfilled;
                         Change "z"; Submit; Settle 0 Fulfilled] w0) =
  Some ([], [], "z", Some 0, [ConsoleLog "" (FirebaseError "not-found")]).
Proof. vm_compute. reflexivity. Qed.

Definition w_editing : World FireStore.t :=
  match handle fmt0 ana (ClickEdit 0) w0 with Some w => w | None => w0 end.

Lemma delete_under_edit_stays_editing_witness :
  exists w', run fmt0 ana [ClickDelete 0; Settle 0 Fulfilled; Change "z"; Submit;
                           Settle 0 Fulfilled] w_editing = Some w' /\
    taskEdit w' = Some 0%nat /\ input w' = "z" /\ pending w' = [] /\
    console w' = console w_editing ++ [ConsoleLog "" (FirebaseError "not-found")] /\
    doc_at (db w') (TaskList.id milk) = None.
Proof.
  apply (delete_under_edit_stays_editing fmt0 ana w_editing 0 milk "z");
    [vm_compute; reflexivity|vm_compute; reflexivity|
     replace (taskList w_editing) with [0%nat] by (vm_compute; reflexivity); set_solver|
     vm_compute; reflexivity|discriminate].
Defined.


(** The run of [stale_delete_keeps_edit] on Ana's page: a delete of the
    second row captures the array; the first row is then edited and its
    [updateDoc] settles first; the stale delete callback still shows the
    edited text. *)
Example stale_delete_run :
  observe (run fmt0 ana (add_walk_dog ++ [ClickDelete 1; ClickEdit 0; Change "oat"; Submit;
                         Settle 1 Fulfilled; Settle 0 Fulfilled]) w0) =
  Some (["oat"], ["oat"], "", None, []).
Proof. vm_compute. reflexivity. Qed.

Definition w_stale : World FireStore.t :=
  match run fmt0 ana (add_walk_dog ++ [ClickDelete 1; ClickEdit 0; Change "oat"; Submit;
                      Settle 1 Fulfilled]) w0 with Some w => w | None => w0 end.

Lemma stale_delete_keeps_edit_witness :
  exists w', handle fmt0 ana (Settle 0 Fulfilled) w_stale = Some w' /\
    shown w' = filter (fun r => TaskList.id r <> "0") (omap (fun l => heap w_stale !! l) [0; 1]%nat) /\
    doc_at (db w') "0" = None.
Proof. apply (stale_delete_keeps_edit fmt0 ana w_stale 0 "0" [0; 1]%nat). vm_compute. reflexivity. Defined.


(** The run of [double_delete_resurrects_row] on Ana's page. *)
Example double_delete_run :
  observe (run fmt0 ana (add_walk_dog ++ [ClickDelete 0; ClickDelete 1;
                         Settle 0 Fulfilled; Settle 0 Fulfilled]) w0) =
  Some (["Buy milk"], [], "", None, []).
Proof. vm_compute. reflexivity. Qed.

Definition w_two : World FireStore.t :=
  match run fmt0 ana add_walk_dog w0 with Some w => w | None => w0 end.
Definition dog : TaskList.t := TaskList.mk "0" 1000 (Some "01 January 1970") "Walk dog" "u1" "Ana".

Lemma double_delete_resurrects_row_witness :
  exists w', run fmt0 ana [ClickDelete 0; ClickDelete 1; Settle 0 Fulfilled;
                           Settle 0 Fulfilled] w_two = Some w' /\
    shown w' = filter (fun r => TaskList.id r <> TaskList.id dog) (shown w_two) /\
    milk ∈ shown w' /\ doc_at (db w') (TaskList.id milk) = None /\
    doc_at (db w') (TaskList.id dog) = None.
Proof.
  assert (Hl : taskList w_two = [0; 1]%nat) by (vm_compute; reflexivity).
  apply (double_delete_resurrects_row fmt0 ana w_two 0 1 milk dog);
    [vm_compute; reflexivity|rewrite Hl; set_solver|rewrite Hl; set_solver|
     vm_compute; reflexivity|vm_compute; reflexivity|vm_compute; discriminate].
Defined.


(** The input Ana typed while [Walk dog] was in flight is gone. *)
Lemma add_callback_clears_input_witness :
  exists w', handle fmt0 ana (Settle 0 Fulfilled) w_typing = Some w' /\
    input w' = "" /\ taskEdit w' = taskEdit w_typing.
Proof.
  apply (add_callback_clears_input fmt0 ana w_typing 0 (Doc.mk 1000 "Walk dog" "u1" "Ana")
           [0%nat] "Walk dog").
  vm_compute. reflexivity.
Defined.
